(** * The template backend: read-through cache, repository and service

    A shallow embedding of [app/services/cache_service.py],
    [app/services/template_service.py], [app/data/repositories/base_repository.py],
    [app/data/repositories/template_repository.py], [app/data/schemas/models.py],
    [app/data/DTO/template_dto.py] and the routes of
    [app/api/routers/template_router.py].

    Python text is a list of Unicode code points; the database table, the redis
    key space, the wall clock, the uuid4 generator and the two network links are
    fields of an explicit [world] threaded through a state-and-exception monad. *)

From Stdlib Require Import String Ascii List NArith ZArith Bool Lia Arith Permutation.
Import ListNotations.

(** ** Python text *)

(** A character is a Unicode code point; a str is a list of them. *)
Abbreviation char := N (only parsing).
Abbreviation text := (list N) (only parsing).

(** A source-code literal as Python text (all literals of the program are ASCII). *)
Definition txt (s : string) : text := map N_of_ascii (list_ascii_of_string s).
Arguments txt s%_string.

Fixpoint text_eqb (a b : text) : bool :=
  match a, b with
  | [], [] => true
  | x :: a', y :: b' => (x =? y)%N && text_eqb a' b'
  | _, _ => false
  end.

(** [s.startswith(p)] and what follows the prefix. *)
Fixpoint strip_prefix (p s : text) : option text :=
  match p, s with
  | [], _ => Some s
  | x :: p', y :: s' => if (x =? y)%N then strip_prefix p' s' else None
  | _ :: _, [] => None
  end.

Definition starts_with (p s : text) : bool :=
  match strip_prefix p s with Some _ => true | None => false end.

(** ** Python exceptions and fallible pure code *)

Inductive exn :=
| ValueError          (* int() on a bad literal, "not found" of update_by_id *)
| JSONDecodeError     (* json.loads; a subclass of ValueError *)
| ValidationError     (* pydantic; a subclass of ValueError *)
| UnicodeEncodeError  (* print() of a str that UTF-8 cannot encode; a subclass
                         of ValueError *)
| IndexError          (* parts[i] out of range *)
| TypeError           (* iterating a non-iterable *)
| ConnectionError     (* the redis client cannot reach its server *)
| DBAPIError          (* the database driver fails a round trip *)
| IntegrityError.     (* primary-key violation at INSERT *)

(** [except ValueError] also catches the subclasses of ValueError. *)
Definition is_ValueError (e : exn) : bool :=
  match e with
  | ValueError | JSONDecodeError | ValidationError | UnicodeEncodeError => true
  | _ => false
  end.

Inductive outcome (A : Type) :=
| Returns (a : A)
| Raises (e : exn).
Arguments Returns {A} a.
Arguments Raises {A} e.

Definition obind {A B} (o : outcome A) (k : A -> outcome B) : outcome B :=
  match o with
  | Returns a => k a
  | Raises e => Raises e
  end.

Notation "'try!' x <- c ; k" := (obind c (fun x => k))
  (at level 10, x name, c at level 100, k at level 200).

Notation "'opt!' x <- c ; k" :=
  (match c with Some x => k | None => None end)
  (at level 10, x pattern, c at level 100, k at level 200).

(** ** Builtins of [str]: split, strip, int *)

(** [s.split(sep)] and [s.split(sep, maxsplit)] for a non-empty separator:
    occurrences are found left to right and do not overlap.  [budget] is the
    number of splits still allowed ([None]: unlimited); [skip] counts the
    characters of a separator just matched that remain to be passed over;
    [cur] is the field being read, most recent character first. *)
Fixpoint split_from (sep : text) (budget : option nat) (skip : nat)
         (cur : text) (s : text) : list text :=
  match s with
  | [] => [rev cur]
  | c :: r =>
    match skip with
    | S k => split_from sep budget k cur r
    | O =>
      let allowed := match budget with Some O => false | _ => true end in
      if allowed && starts_with sep s
      then rev cur ::
           split_from sep (option_map Nat.pred budget) (Nat.pred (length sep)) [] r
      else split_from sep budget O (c :: cur) r
    end
  end.

Definition py_split (sep s : text) : list text := split_from sep None 0 [] s.
Definition py_split_max (sep : text) (maxsplit : nat) (s : text) : list text :=
  split_from sep (Some maxsplit) 0 [] s.

(** [Py_UNICODE_ISSPACE]: the characters that [str.isspace()] accepts. *)
Definition is_space (c : char) : bool :=
  ((9 <=? c) && (c <=? 13) || (28 <=? c) && (c <=? 32) || (c =? 133) || (c =? 160)
   || (c =? 5760) || (8192 <=? c) && (c <=? 8202) || (c =? 8232) || (c =? 8233)
   || (c =? 8239) || (c =? 8287) || (c =? 12288))%N.

(** [Py_ISSPACE]: the ASCII characters that the parser of [int()] skips. *)
Definition is_ascii_space (c : char) : bool :=
  ((9 <=? c) && (c <=? 13) || (c =? 32))%N.

Fixpoint lstrip (s : text) : text :=
  match s with
  | c :: r => if is_ascii_space c then lstrip r else s
  | [] => []
  end.

Definition dec_val (c : char) : option N :=
  if ((48 <=? c) && (c <=? 57))%N then Some (c - 48)%N else None.

Definition is_digit (c : char) : bool :=
  match dec_val c with Some _ => true | None => false end.

(** The first code point of every run of ten decimal digits 0..9 in the
    Unicode character database (version 14.0, that of CPython 3.11). *)
Definition decimal_runs : list N :=
  [
    48; 1632; 1776; 1984; 2406; 2534; 2662; 2790; 2918; 3046; 3174; 3302;
    3430; 3558; 3664; 3792; 3872; 4160; 4240; 6112; 6160; 6470; 6608; 6784;
    6800; 6992; 7088; 7232; 7248; 42528; 43216; 43264; 43472; 43504; 43600;
    44016; 65296; 66720; 68912; 69734; 69872; 69942; 70096; 70384; 70736;
    70864; 71248; 71360; 71472; 71904; 72016; 72784; 73040; 73120; 92768;
    92864; 93008; 123200; 123632; 125264; 130032
  ]%N.

(** [Py_UNICODE_TODECIMAL]: the value of a decimal digit of any script.  The
    mathematical digits U+1D7CE..U+1D7FF are five runs in a row. *)
Definition unicode_decimal (c : char) : option N :=
  if ((120782 <=? c) && (c <=? 120831))%N then Some ((c - 120782) mod 10)%N
  else
    match find (fun start => (start <=? c) && (c <=? start + 9))%N decimal_runs with
    | Some start => Some (c - start)%N
    | None => None
    end.

(** [_PyUnicode_TransformDecimalAndSpaceToASCII]: ASCII is kept, any other
    white space becomes a space and any other decimal digit its ASCII digit;
    the text ends with a question mark at the first character that is none
    of these. *)
Fixpoint to_ascii (s : text) : text :=
  match s with
  | [] => []
  | c :: r =>
    if (c <? 127)%N then c :: to_ascii r
    else if is_space c then 32%N :: to_ascii r
    else
      match unicode_decimal c with
      | Some d => (48 + d)%N :: to_ascii r
      | None => [63%N]
      end
  end.

(** The digit part of a base-10 literal of [int()]: digits with single
    underscores between them, then white space only.  [need_digit] holds at
    the start and after an underscore; [count] is the number of digits read.
    The result is the value and the number of its digits. *)
Fixpoint int_digits (acc : Z) (need_digit : bool) (count : nat) (s : text)
  : option (Z * nat) :=
  match s with
  | [] => if need_digit then None else Some (acc, count)
  | c :: r =>
    match dec_val c with
    | Some d => int_digits (10 * acc + Z.of_N d) false (S count) r
    | None =>
      if (c =? 95)%N then
        if need_digit then None else int_digits acc true count r
      else if need_digit then None
      else if forallb is_ascii_space s then Some (acc, count)
      else None
    end
  end.

(** [sys.get_int_max_str_digits()], by default. *)
Definition int_max_str_digits : nat := 4300.

(** [int(s)] for a str [s]: the text is folded to ASCII, surrounding white
    space is dropped, one sign is allowed, and a literal of more digits than
    the interpreter's limit is refused.  Every failure is a ValueError. *)
Definition py_int (s : text) : outcome Z :=
  let body := lstrip (to_ascii s) in
  let parsed :=
    match body with
    | c :: r =>
      if (c =? 43)%N then int_digits 0 true 0 r
      else if (c =? 45)%N
           then option_map (fun vn => (Z.opp (fst vn), snd vn)) (int_digits 0 true 0 r)
      else int_digits 0 true 0 body
    | [] => None
    end in
  match parsed with
  | Some (z, digits) =>
    if digits <=? int_max_str_digits then Returns z else Raises ValueError
  | None => Raises ValueError
  end.

(** [l[i]] on a list. *)
Definition py_index {A} (l : list A) (i : nat) : outcome A :=
  match nth_error l i with
  | Some a => Returns a
  | None => Raises IndexError
  end.

(** ** Fixed-width positional numerals *)

(** The [width] low-order digits of [n] in [base], most significant first. *)
Fixpoint digits_be (base : N) (width : nat) (n : N) : list N :=
  match width with
  | O => []
  | S w => digits_be base w (n / base) ++ [n mod base]
  end%N.

Definition of_digits (base : N) (ds : list N) : N :=
  fold_left (fun acc d => acc * base + d)%N ds 0%N.

Definition dec_char (d : N) : char := (48 + d)%N.
Definition hex_char (d : N) : char := (if d <? 10 then 48 + d else 87 + d)%N.

Definition hex_val (c : char) : option N :=
  (if (48 <=? c) && (c <=? 57) then Some (c - 48)
   else if (97 <=? c) && (c <=? 102) then Some (c - 87)
   else if (65 <=? c) && (c <=? 70) then Some (c - 55)
   else None)%N.

(** Python's ["%0<width>d" % n] and ["%0<width>x" % n] for [n] that fits. *)
Definition dec_fixed (width : nat) (n : N) : text := map dec_char (digits_be 10 width n).
Definition hex_fixed (width : nat) (n : N) : text := map hex_char (digits_be 16 width n).

Fixpoint read_all {A} (f : char -> option A) (s : text) : option (list A) :=
  match s with
  | [] => Some []
  | c :: r => opt! d <- f c; opt! ds <- read_all f r; Some (d :: ds)
  end.

(** Exactly [width] digits read from the front of [s]. *)
Definition take_num (val : char -> option N) (base : N) (width : nat) (s : text)
  : option (N * text) :=
  if length s <? width then None
  else opt! ds <- read_all val (firstn width s); Some (of_digits base ds, skipn width s).

Definition expect (c : char) (s : text) : option text :=
  match s with
  | x :: r => if (x =? c)%N then Some r else None
  | [] => None
  end.
Arguments expect c%_N s.

(** ** Identifiers and timestamps *)

(** [uuid.UUID], by its 128-bit integer. *)
Definition UUID := N.

(** [str(u)]: 32 lower-case hex digits grouped 8-4-4-4-12. *)
Definition uuid_str (u : UUID) : text :=
  let hex := hex_fixed 32 u in
  firstn 8 hex ++ 45%N :: firstn 4 (skipn 8 hex) ++ 45%N :: firstn 4 (skipn 12 hex)
    ++ 45%N :: firstn 4 (skipn 16 hex) ++ 45%N :: skipn 20 hex.

Definition parse_uuid_simple (s : text) : option UUID :=
  opt! (u, r) <- take_num hex_val 16 32 s;
  match r with [] => Some u | _ => None end.

Definition parse_uuid_hyphenated (s : text) : option UUID :=
  opt! (a, r) <- take_num hex_val 16 8 s;  opt! r <- expect 45 r;
  opt! (b, r) <- take_num hex_val 16 4 r;  opt! r <- expect 45 r;
  opt! (c, r) <- take_num hex_val 16 4 r;  opt! r <- expect 45 r;
  opt! (d, r) <- take_num hex_val 16 4 r;  opt! r <- expect 45 r;
  opt! (e, r) <- take_num hex_val 16 12 r;
  match r with
  | [] => Some ((((a * 65536 + b) * 65536 + c) * 65536 + d) * 281474976710656 + e)%N
  | _ => None
  end.

(** What pydantic takes for a UUID field given a str: the simple, hyphenated,
    urn and braced spellings. *)
Definition parse_uuid (s : text) : option UUID :=
  match parse_uuid_hyphenated s with
  | Some u => Some u
  | None =>
    match parse_uuid_simple s with
    | Some u => Some u
    | None =>
      match strip_prefix (txt "urn:uuid:") s with
      | Some r => parse_uuid_hyphenated r
      | None =>
        match s with
        | c :: r =>
          if (c =? 123)%N then
            match rev r with
            | z :: m => if (z =? 125)%N then parse_uuid_hyphenated (rev m) else None
            | [] => None
            end
          else None
        | [] => None
        end
      end
    end
  end.

(** A naive [datetime.datetime] (the program only makes them with utcnow()). *)
Record datetime := {
  year : N; month : N; day : N;
  hour : N; minute : N; second : N; microsecond : N
}.

Definition is_leap (y : N) : bool :=
  ((y mod 4 =? 0) && (negb (y mod 100 =? 0) || (y mod 400 =? 0)))%N.

Definition days_in_month (y m : N) : N :=
  (if m =? 2 then (if is_leap y then 29 else 28)
   else if (m =? 4) || (m =? 6) || (m =? 9) || (m =? 11) then 30 else 31)%N.

(** The ranges Python's datetime constructor enforces. *)
Definition valid_datetime (d : datetime) : bool :=
  ((1 <=? year d) && (year d <=? 9999) && (1 <=? month d) && (month d <=? 12)
   && (1 <=? day d) && (day d <=? days_in_month (year d) (month d))
   && (hour d <? 24) && (minute d <? 60) && (second d <? 60)
   && (microsecond d <? 1000000))%N.

(** Comparison of naive datetimes: lexicographic on the seven fields. *)
Definition datetime_fields (d : datetime) : list N :=
  [year d; month d; day d; hour d; minute d; second d; microsecond d].

Fixpoint lex_ltb (a b : list N) : bool :=
  match a, b with
  | x :: a', y :: b' => (x <? y)%N || (x =? y)%N && lex_ltb a' b'
  | _, _ => false
  end.

Definition datetime_ltb (a b : datetime) : bool :=
  lex_ltb (datetime_fields a) (datetime_fields b).

(** [str(d)], that is [d.isoformat(sep=' ')]: the fraction is printed only when
    it is not zero. *)
Definition datetime_str (d : datetime) : text :=
  dec_fixed 4 (year d) ++ 45%N :: dec_fixed 2 (month d) ++ 45%N :: dec_fixed 2 (day d)
    ++ 32%N :: dec_fixed 2 (hour d) ++ 58%N :: dec_fixed 2 (minute d)
    ++ 58%N :: dec_fixed 2 (second d)
    ++ (if (microsecond d =? 0)%N then [] else 46%N :: dec_fixed 6 (microsecond d)).

(** One or more fraction digits, read as microseconds: digits past the sixth
    are dropped. *)
Definition parse_fraction (s : text) : option N :=
  match s with
  | [] => None
  | _ :: _ =>
    opt! ds <- read_all dec_val s;
    let kept := firstn 6 ds in
    Some (of_digits 10 kept * 10 ^ N.of_nat (6 - length kept))%N
  end.

(** What pydantic takes for a datetime field given a str, restricted to naive
    date-times with seconds: [YYYY-MM-DD], one of [T], [t], space or [_], then
    [HH:MM:SS] and an optional fraction.  Whatever is read here pydantic reads
    to the same value.  It also takes strings that are refused here (a time
    without seconds, a date alone, a UTC offset, a unix time), none of which
    the program writes: so a refusal here says nothing about pydantic, and no
    property below rests on one. *)
Definition parse_datetime (s : text) : option datetime :=
  opt! (y, r) <- take_num dec_val 10 4 s;   opt! r <- expect 45 r;
  opt! (mo, r) <- take_num dec_val 10 2 r;  opt! r <- expect 45 r;
  opt! (d, r) <- take_num dec_val 10 2 r;
  opt! r <- match r with
            | c :: r' => if (c =? 84) || (c =? 116) || (c =? 32) || (c =? 95)
                         then Some r' else None
            | [] => None
            end%N;
  opt! (h, r) <- take_num dec_val 10 2 r;   opt! r <- expect 58 r;
  opt! (mi, r) <- take_num dec_val 10 2 r;  opt! r <- expect 58 r;
  opt! (sec, r) <- take_num dec_val 10 2 r;
  opt! us <- match r with
             | [] => Some 0%N
             | c :: r' => if (c =? 46)%N then parse_fraction r' else None
             end;
  let dt := {| year := y; month := mo; day := d; hour := h; minute := mi;
               second := sec; microsecond := us |} in
  if valid_datetime dt then Some dt else None.

(** ** Python values that travel through the cache *)

Local Set Warnings "-register-all".

Inductive pyval :=
| PNone
| PBool (b : bool)
| PInt (z : Z)
| PFloat (literal : text)     (* a float, carried by its JSON literal *)
| PStr (s : text)
| PList (items : list pyval)
| PDict (entries : list (text * pyval))   (* in insertion order *)
| PUuid (u : UUID)
| PDatetime (d : datetime).

(** The digits of a float literal with the dot taken out, as a number, and
    how many of them stood behind the dot; what follows them comes back. *)
Fixpoint float_mantissa (m scale : Z) (dot : bool) (s : text) : Z * Z * text :=
  match s with
  | [] => (m, scale, [])
  | c :: r =>
    match dec_val c with
    | Some d =>
      float_mantissa (10 * m + Z.of_N d) (if dot then scale + 1 else scale) dot r
    | None => if (c =? 46)%N then float_mantissa m scale true r else (m, scale, s)
    end
  end%Z.

Definition digits_value (ds : text) : Z :=
  match read_all dec_val ds with
  | Some l => Z.of_N (of_digits 10 l)
  | None => 0%Z
  end.

(** The exponent part of a float literal: e or E, an optional sign, digits. *)
Definition float_exponent (s : text) : Z :=
  match s with
  | _ :: sign :: r =>
    if (sign =? 45)%N then - digits_value r
    else if (sign =? 43)%N then digits_value r
    else digits_value (sign :: r)
  | _ => 0
  end%Z.

(** Whether [float(literal)] is zero, for a literal of the JSON grammar.  The
    literal denotes m * 10^e; float() rounds it to the nearest double, ties
    to even, so the result is zero exactly when m * 10^e is at most 2^-1075,
    half of the least positive double.  NaN and the infinities are not
    zero. *)
Definition float_is_zero (literal : text) : bool :=
  let digits :=
    match literal with
    | c :: r => if (c =? 45)%N then r else literal
    | [] => literal
    end in
  match digits with
  | c :: _ =>
    if is_digit c then
      let '(m, scale, rest) := float_mantissa 0 0 false digits in
      let e := (float_exponent rest - scale)%Z in
      if (m =? 0)%Z then true
      else if (e <? 0)%Z then (m * 2 ^ 1075 <=? 10 ^ (- e))%Z
      else false
    else false
  | [] => false
  end.

(** [bool(v)], as tested by [if v:]. *)
Definition truthy (v : pyval) : bool :=
  match v with
  | PNone => false
  | PBool b => b
  | PInt z => negb (z =? 0)%Z
  | PFloat lit => negb (float_is_zero lit)
  | PStr s => match s with [] => false | _ => true end
  | PList l => match l with [] => false | _ => true end
  | PDict d => match d with [] => false | _ => true end
  | PUuid _ | PDatetime _ => true
  end.

(** [d[k] = v] on a dict: an existing key keeps its position. *)
Fixpoint dict_set (k : text) (v : pyval) (d : list (text * pyval)) : list (text * pyval) :=
  match d with
  | [] => [(k, v)]
  | (k', v') :: r => if text_eqb k k' then (k, v) :: r else (k', v') :: dict_set k v r
  end.

Fixpoint dict_get (k : text) (d : list (text * pyval)) : option pyval :=
  match d with
  | [] => None
  | (k', v) :: r => if text_eqb k k' then Some v else dict_get k r
  end.

Definition dict_of_pairs (pairs : list (text * pyval)) : list (text * pyval) :=
  fold_left (fun d kv => dict_set (fst kv) (snd kv) d) pairs [].

(** ** [json.dumps(obj, default=str)] *)

(** One character of a JSON string under [ensure_ascii=True]. *)
Definition escape_char (c : char) : text :=
  (if c =? 34 then [92; 34]
   else if c =? 92 then [92; 92]
   else if c =? 10 then [92; 110]
   else if c =? 13 then [92; 114]
   else if c =? 9 then [92; 116]
   else if c =? 8 then [92; 98]
   else if c =? 12 then [92; 102]
   else if (32 <=? c) && (c <=? 126) then [c]
   else if c <? 65536 then 92 :: 117 :: hex_fixed 4 c
   else 92 :: 117 :: hex_fixed 4 (55296 + (c - 65536) / 1024)
          ++ 92 :: 117 :: hex_fixed 4 (56320 + (c - 65536) mod 1024))%N.

Definition json_quote (s : text) : text :=
  34%N :: flat_map escape_char s ++ [34%N].

Fixpoint join (sep : text) (l : list text) : text :=
  match l with
  | [] => []
  | x :: r => match r with [] => x | _ :: _ => x ++ sep ++ join sep r end
  end.

Fixpoint uint_text (d : Decimal.uint) : text :=
  match d with
  | Decimal.Nil => []
  | Decimal.D0 d => 48 :: uint_text d | Decimal.D1 d => 49 :: uint_text d
  | Decimal.D2 d => 50 :: uint_text d | Decimal.D3 d => 51 :: uint_text d
  | Decimal.D4 d => 52 :: uint_text d | Decimal.D5 d => 53 :: uint_text d
  | Decimal.D6 d => 54 :: uint_text d | Decimal.D7 d => 55 :: uint_text d
  | Decimal.D8 d => 56 :: uint_text d | Decimal.D9 d => 57 :: uint_text d
  end%N.

(** [repr] of an int. *)
Definition int_repr (z : Z) : text :=
  match z with
  | Z0 => [48%N]
  | Zpos p => uint_text (Pos.to_uint p)
  | Zneg p => 45%N :: uint_text (Pos.to_uint p)
  end.

(** The default separators [", "] and [": "]; a UUID or a datetime is not
    serializable by itself and goes through [default=str].  The dicts that
    the service writes hold None, str, UUID and datetime values only.  For
    completeness an int is written by its digits and a float by the literal
    it was read from, which leaves out the length limit of str(int) and the
    repr of the float; no property below writes either. *)
Fixpoint json_dumps (v : pyval) : text :=
  match v with
  | PNone => txt "null"
  | PBool true => txt "true"
  | PBool false => txt "false"
  | PInt z => int_repr z
  | PFloat lit => lit
  | PStr s => json_quote s
  | PList l => 91%N :: join (txt ", ") (map json_dumps l) ++ [93%N]
  | PDict d =>
    123%N :: join (txt ", ")
               (map (fun kv => match kv with
                               | (k, x) => json_quote k ++ txt ": " ++ json_dumps x
                               end) d)
      ++ [125%N]
  | PUuid u => json_quote (uuid_str u)
  | PDatetime d => json_quote (datetime_str d)
  end.

(** ** [json.loads] *)

(** What the scanner makes of a text: a value and the text behind it, a
    syntax error (JSONDecodeError), no result within the fuel given, or an
    integer literal that int() refuses for its length (ValueError). *)
Inductive parsed (A : Type) :=
| Parsed (a : A) (rest : text)
| Malformed
| Exhausted
| Refused.
Arguments Parsed {A} a rest.
Arguments Malformed {A}.
Arguments Exhausted {A}.
Arguments Refused {A}.

Definition is_json_ws (c : char) : bool :=
  ((c =? 32) || (c =? 9) || (c =? 10) || (c =? 13))%N.

Fixpoint skip_ws (s : text) : text :=
  match s with
  | c :: r => if is_json_ws c then skip_ws r else s
  | [] => []
  end.

Definition unescape (e : char) : option char :=
  (if e =? 34 then Some 34 else if e =? 92 then Some 92 else if e =? 47 then Some 47
   else if e =? 98 then Some 8 else if e =? 102 then Some 12
   else if e =? 110 then Some 10 else if e =? 114 then Some 13
   else if e =? 116 then Some 9 else None)%N.

Definition hex4 (a b c d : char) : option N :=
  opt! x <- hex_val a; opt! y <- hex_val b; opt! z <- hex_val c; opt! w <- hex_val d;
  Some (((x * 16 + y) * 16 + z) * 16 + w)%N.

Definition is_high_surrogate (u : N) : bool := ((55296 <=? u) && (u <=? 56319))%N.
Definition is_low_surrogate (u : N) : bool := ((56320 <=? u) && (u <=? 57343))%N.
Definition join_surrogates (hi lo : N) : char :=
  (65536 + (hi - 55296) * 1024 + (lo - 56320))%N.

Definition push (c : char) (o : option (text * text)) : option (text * text) :=
  opt! (str, rest) <- o; Some (c :: str, rest).

(** The body of a string after its opening quote (strict mode): the decoded
    text and what follows the closing quote. *)
Fixpoint scanstring (s : text) : option (text * text) :=
  match s with
  | [] => None
  | c :: r =>
    if (c =? 34)%N then Some ([], r)
    else if (c <? 32)%N then None
    else if (c =? 92)%N then
      match r with
      | [] => None
      | e :: r0 =>
        if (e =? 117)%N then
          match r0 with
          | a :: b :: c' :: d :: r1 =>
            match hex4 a b c' d with
            | None => None
            | Some uni =>
              if is_high_surrogate uni then
                match r1 with
                | bs :: u :: a2 :: b2 :: c2 :: d2 :: r3 =>
                  if ((bs =? 92) && (u =? 117))%N then
                    match hex4 a2 b2 c2 d2 with
                    | None => None
                    | Some uni2 =>
                      if is_low_surrogate uni2
                      then push (join_surrogates uni uni2) (scanstring r3)
                      else push uni (scanstring r1)
                    end
                  else push uni (scanstring r1)
                | _ => push uni (scanstring r1)
                end
              else push uni (scanstring r1)
            end
          | _ => None
          end
        else
          opt! x <- unescape e; push x (scanstring r0)
      end
    else push c (scanstring r)
  end.

Fixpoint span_digits (s : text) : text * text :=
  match s with
  | c :: r => if is_digit c then let (ds, rest) := span_digits r in (c :: ds, rest)
              else ([], s)
  | [] => ([], [])
  end.

(** The longest prefix that is a JSON number: an optional minus, then 0 or a
    digit string not starting with 0, then optionally a dot with digits, then
    optionally e or E, a sign and digits. *)
Definition scan_number (s : text) : option (pyval * text) :=
  let (neg, s1) :=
    match s with
    | c :: r => if (c =? 45)%N then (true, r) else (false, s)
    | [] => (false, s)
    end in
  let int_part :=
    match s1 with
    | c :: r =>
      if (c =? 48)%N then Some ([c], r)
      else if ((49 <=? c) && (c <=? 57))%N
           then let (ds, rest) := span_digits r in Some (c :: ds, rest)
           else None
    | [] => None
    end in
  opt! (ip, s2) <- int_part;
  let (frac, s3) :=
    match s2 with
    | dot :: r2 =>
      if (dot =? 46)%N then
        match span_digits r2 with
        | ([], _) => ([], s2)
        | (fd, rest) => (dot :: fd, rest)
        end
      else ([], s2)
    | [] => ([], s2)
    end in
  let (ex, s4) :=
    match s3 with
    | e :: r3 =>
      if ((e =? 101) || (e =? 69))%N then
        let (sign, r4) :=
          match r3 with
          | sg :: r' => if ((sg =? 43) || (sg =? 45))%N then ([sg], r') else ([], r3)
          | [] => ([], r3)
          end in
        match span_digits r4 with
        | ([], _) => ([], s3)
        | (ed, rest) => (e :: sign ++ ed, rest)
        end
      else ([], s3)
    | [] => ([], s3)
    end in
  match frac, ex with
  | [], [] => Some (PInt (if neg then - digits_value ip else digits_value ip)%Z, s4)
  | _, _ => Some (PFloat ((if neg then [45%N] else []) ++ ip ++ frac ++ ex), s4)
  end.

Definition keyword (k : string) (v : pyval) (s : text) : option (pyval * text) :=
  opt! r <- strip_prefix (txt k) s; Some (v, r).

Definition first_of {A} (a b : option A) : option A :=
  match a with Some _ => a | None => b end.

(** The literals of the scanner, then a number. *)
Definition scan_keyword (s : text) : option (pyval * text) :=
  first_of (keyword "null" PNone s)
  (first_of (keyword "true" (PBool true) s)
  (first_of (keyword "false" (PBool false) s)
  (first_of (keyword "NaN" (PFloat (txt "NaN")) s)
  (first_of (keyword "Infinity" (PFloat (txt "Infinity")) s)
  (first_of (keyword "-Infinity" (PFloat (txt "-Infinity")) s)
            (scan_number s)))))).

(** An integer literal is handed to int(), which refuses more digits than
    the interpreter's limit; a literal of the grammar has no leading zero, so
    it has more than 4300 digits exactly when its value reaches 10^4300. *)
Definition int_limit : Z := 10 ^ Z.of_nat int_max_str_digits.

Definition over_limit (v : pyval) : bool :=
  match v with
  | PInt z => (int_limit <=? Z.abs z)%Z
  | _ => false
  end.

(** The scanner of [json.decoder]: one value at the front of [s].  An array is
    read by [scan_items] and an object by [scan_pairs], both entered after the
    opening bracket and the whitespace behind it. *)
Fixpoint scan_once (fuel : nat) (s : text) {struct fuel} : parsed pyval :=
  match fuel with
  | O => Exhausted
  | S fuel' =>
    match s with
    | [] => Malformed
    | c :: r =>
      if (c =? 34)%N then
        match scanstring r with
        | Some (str, rest) => Parsed (PStr str) rest
        | None => Malformed
        end
      else if (c =? 123)%N then
        match skip_ws r with
        | c1 :: r1 =>
          if (c1 =? 125)%N then Parsed (PDict []) r1
          else match scan_pairs fuel' (c1 :: r1) with
               | Parsed pairs rest => Parsed (PDict (dict_of_pairs pairs)) rest
               | Malformed => Malformed
               | Exhausted => Exhausted
               | Refused => Refused
               end
        | [] => Malformed
        end
      else if (c =? 91)%N then
        match skip_ws r with
        | c1 :: r1 =>
          if (c1 =? 93)%N then Parsed (PList []) r1
          else match scan_items fuel' (c1 :: r1) with
               | Parsed items rest => Parsed (PList items) rest
               | Malformed => Malformed
               | Exhausted => Exhausted
               | Refused => Refused
               end
        | [] => Malformed
        end
      else
        match scan_keyword s with
        | Some (v, rest) => if over_limit v then Refused else Parsed v rest
        | None => Malformed
        end
    end
  end

with scan_items (fuel : nat) (s : text) {struct fuel} : parsed (list pyval) :=
  match fuel with
  | O => Exhausted
  | S fuel' =>
    match scan_once fuel' s with
    | Parsed v rest =>
      match skip_ws rest with
      | c :: r =>
        if (c =? 93)%N then Parsed [v] r
        else if (c =? 44)%N then
          match scan_items fuel' (skip_ws r) with
          | Parsed vs rest' => Parsed (v :: vs) rest'
          | Malformed => Malformed
          | Exhausted => Exhausted
          | Refused => Refused
          end
        else Malformed
      | [] => Malformed
      end
    | Malformed => Malformed
    | Exhausted => Exhausted
    | Refused => Refused
    end
  end

with scan_pairs (fuel : nat) (s : text) {struct fuel} : parsed (list (text * pyval)) :=
  match fuel with
  | O => Exhausted
  | S fuel' =>
    match s with
    | q :: r0 =>
      if (q =? 34)%N then
        match scanstring r0 with
        | Some (key, r1) =>
          match skip_ws r1 with
          | colon :: r2 =>
            if (colon =? 58)%N then
              match scan_once fuel' (skip_ws r2) with
              | Parsed v rest =>
                match skip_ws rest with
                | c :: r =>
                  if (c =? 125)%N then Parsed [(key, v)] r
                  else if (c =? 44)%N then
                    match scan_pairs fuel' (skip_ws r) with
                    | Parsed kvs rest' => Parsed ((key, v) :: kvs) rest'
                    | Malformed => Malformed
                    | Exhausted => Exhausted
                    | Refused => Refused
                    end
                  else Malformed
                | [] => Malformed
                end
              | Malformed => Malformed
              | Exhausted => Exhausted
              | Refused => Refused
              end
            else Malformed
          | [] => Malformed
          end
        | None => Malformed
        end
      else Malformed
    | [] => Malformed
    end
  end.

(** [json.loads(s)] for a str: a byte-order mark is refused, whitespace may
    surround the one value.  An integer literal over the length limit raises
    the ValueError of int(), which is no JSONDecodeError.  The fuel is enough for every text (see
    [scan_once_fuel]); the interpreter's recursion limit is not modelled. *)
Definition json_loads (s : text) : outcome pyval :=
  if starts_with [65279%N] s then Raises JSONDecodeError
  else
    let s0 := skip_ws s in
    match scan_once (S (2 * length s0)) s0 with
    | Parsed v rest =>
      match skip_ws rest with
      | [] => Returns v
      | _ => Raises JSONDecodeError
      end
    | Refused => Raises ValueError
    | _ => Raises JSONDecodeError
    end.

(** ** Entities and DTOs ([models.py], [template_dto.py]) *)

Inductive TemplateStatus := DRAFT | PUBLISHED.

(** The enum is a [str] subclass: a member is its value. *)
Definition status_value (s : TemplateStatus) : text :=
  match s with
  | DRAFT => txt "DRAFT"
  | PUBLISHED => txt "PUBLISHED"
  end.

Definition status_of_value (t : text) : option TemplateStatus :=
  if text_eqb t (txt "DRAFT") then Some DRAFT
  else if text_eqb t (txt "PUBLISHED") then Some PUBLISHED
  else None.

(** A row of the table [templateitem]; [id] is its primary key. *)
Module TemplateItem.
Record t := {
  id : UUID;
  title : text;
  body : option text;
  status : TemplateStatus;
  created_at : datetime;
  updated_at : datetime
}.
End TemplateItem.

Module TemplateCreateRequest.
Record t := {
  title : text;
  body : option text;
  status : TemplateStatus
}.
End TemplateCreateRequest.

Module TemplateUpdateRequest.
Record t := {
  title : option text;
  body : option text;
  status : option TemplateStatus
}.
End TemplateUpdateRequest.

Module TemplateResponse.
Record t := {
  id : UUID;
  title : text;
  body : option text;
  status : TemplateStatus;
  created_at : datetime;
  updated_at : datetime
}.
End TemplateResponse.

Module TemplateListResponse.
Record t := {
  source : text;
  templates : list TemplateResponse.t;
  total : option nat;
  limit : option nat;
  offset : option nat
}.
End TemplateListResponse.

Module TemplateCreateResponse.
Record t := {
  message : text;
  template : TemplateResponse.t
}.
End TemplateCreateResponse.

(** [TemplateResponse.model_validate(entity)] on a row ([from_attributes]). *)
Definition model_validate_item (e : TemplateItem.t) : TemplateResponse.t :=
  {| TemplateResponse.id := TemplateItem.id e;
     TemplateResponse.title := TemplateItem.title e;
     TemplateResponse.body := TemplateItem.body e;
     TemplateResponse.status := TemplateItem.status e;
     TemplateResponse.created_at := TemplateItem.created_at e;
     TemplateResponse.updated_at := TemplateItem.updated_at e |}.

Definition py_opt_str (o : option text) : pyval :=
  match o with Some s => PStr s | None => PNone end.

(** [template.model_dump()]: a dict in field order, values as Python objects. *)
Definition model_dump (r : TemplateResponse.t) : pyval :=
  PDict [(txt "id", PUuid (TemplateResponse.id r));
         (txt "title", PStr (TemplateResponse.title r));
         (txt "body", py_opt_str (TemplateResponse.body r));
         (txt "status", PStr (status_value (TemplateResponse.status r)));
         (txt "created_at", PDatetime (TemplateResponse.created_at r));
         (txt "updated_at", PDatetime (TemplateResponse.updated_at r))].

Definition as_uuid (v : pyval) : option UUID :=
  match v with
  | PUuid u => Some u
  | PStr s => parse_uuid s
  | _ => None
  end.

Definition as_str (v : pyval) : option text :=
  match v with PStr s => Some s | _ => None end.

Definition as_opt_str (v : pyval) : option (option text) :=
  match v with
  | PNone => Some None
  | PStr s => Some (Some s)
  | _ => None
  end.

Definition as_status (v : pyval) : option TemplateStatus :=
  match v with PStr s => status_of_value s | _ => None end.

(** Numbers, which pydantic reads as unix time, are not modelled. *)
Definition as_datetime (v : pyval) : option datetime :=
  match v with
  | PDatetime d => Some d
  | PStr s => parse_datetime s
  | _ => None
  end.

(** [TemplateResponse.model_validate(t)] on an element of the cached value:
    all six fields are required ([body] may be None); anything that is not a
    dict lacks them. *)
Definition model_validate (v : pyval) : outcome TemplateResponse.t :=
  let validated :=
    match v with
    | PDict d =>
      opt! i <- (opt! x <- dict_get (txt "id") d; as_uuid x);
      opt! t <- (opt! x <- dict_get (txt "title") d; as_str x);
      opt! b <- (opt! x <- dict_get (txt "body") d; as_opt_str x);
      opt! s <- (opt! x <- dict_get (txt "status") d; as_status x);
      opt! c <- (opt! x <- dict_get (txt "created_at") d; as_datetime x);
      opt! u <- (opt! x <- dict_get (txt "updated_at") d; as_datetime x);
      Some {| TemplateResponse.id := i; TemplateResponse.title := t;
              TemplateResponse.body := b; TemplateResponse.status := s;
              TemplateResponse.created_at := c; TemplateResponse.updated_at := u |}
    | _ => None
    end in
  match validated with
  | Some r => Returns r
  | None => Raises ValidationError
  end.

(** [for t in v]: what iterating a Python value yields. *)
Definition py_iter (v : pyval) : outcome (list pyval) :=
  match v with
  | PList l => Returns l
  | PDict d => Returns (map (fun kv => PStr (fst kv)) d)
  | PStr s => Returns (map (fun c => PStr [c]) s)
  | _ => Raises TypeError
  end.

(** [[f(t) for t in l]]: the first exception ends the comprehension. *)
Fixpoint comprehension {A B} (f : A -> outcome B) (l : list A) : outcome (list B) :=
  match l with
  | [] => Returns []
  | a :: r => try! b <- f a; try! bs <- comprehension f r; Returns (b :: bs)
  end.

(** [update_request.model_dump(exclude_none=True)]. *)
Definition model_dump_exclude_none (r : TemplateUpdateRequest.t) : list (text * pyval) :=
  (match TemplateUpdateRequest.title r with
   | Some t => [(txt "title", PStr t)] | None => []
   end)
  ++ (match TemplateUpdateRequest.body r with
      | Some b => [(txt "body", PStr b)] | None => []
      end)
  ++ (match TemplateUpdateRequest.status r with
      | Some s => [(txt "status", PStr (status_value s))] | None => []
      end).

(** ** The world outside the program *)

(** What the environment will answer, call after call. *)
Definition stream (A : Type) := nat -> A.
Definition shift {A} (s : stream A) : stream A := fun n => s (S n).

Record world := {
  table : list TemplateItem.t;             (* rows, in the order SELECT yields them *)
  redis_db : text -> option (text * Z);    (* key -> value and expiry (server ms) *)
  clock : stream datetime;                 (* readings of datetime.utcnow() *)
  entropy : stream UUID;                   (* results of uuid4() *)
  db_link : stream bool;                   (* true: the database round trip fails *)
  redis_link : stream (option Z)           (* None: the redis call fails;
                                              Some t: it is served at server time t *)
}.

Definition with_table (x : list TemplateItem.t) (w : world) : world :=
  {| table := x; redis_db := redis_db w; clock := clock w; entropy := entropy w;
     db_link := db_link w; redis_link := redis_link w |}.
Definition with_redis_db (x : text -> option (text * Z)) (w : world) : world :=
  {| table := table w; redis_db := x; clock := clock w; entropy := entropy w;
     db_link := db_link w; redis_link := redis_link w |}.
Definition with_clock (x : stream datetime) (w : world) : world :=
  {| table := table w; redis_db := redis_db w; clock := x; entropy := entropy w;
     db_link := db_link w; redis_link := redis_link w |}.
Definition with_entropy (x : stream UUID) (w : world) : world :=
  {| table := table w; redis_db := redis_db w; clock := clock w; entropy := x;
     db_link := db_link w; redis_link := redis_link w |}.
Definition with_db_link (x : stream bool) (w : world) : world :=
  {| table := table w; redis_db := redis_db w; clock := clock w; entropy := entropy w;
     db_link := x; redis_link := redis_link w |}.
Definition with_redis_link (x : stream (option Z)) (w : world) : world :=
  {| table := table w; redis_db := redis_db w; clock := clock w; entropy := entropy w;
     db_link := db_link w; redis_link := x |}.

(** ** Statements that read and change the world, and may raise *)

Definition M (A : Type) := world -> outcome A * world.

Definition ret {A} (a : A) : M A := fun w => (Returns a, w).
Definition raise {A} (e : exn) : M A := fun w => (Raises e, w).
Definition lift {A} (o : outcome A) : M A := fun w => (o, w).

Definition bind {A B} (m : M A) (k : A -> M B) : M B :=
  fun w =>
    match m w with
    | (Returns a, w') => k a w'
    | (Raises e, w') => (Raises e, w')
    end.

Notation "'let*' x := c 'in' k" := (bind c (fun x => k))
  (at level 10, x name, c at level 100, k at level 200).

(** [try: m  except <classes>: handler]. *)
Definition try_except {A} (m : M A) (classes : exn -> bool) (handler : exn -> M A) : M A :=
  fun w =>
    match m w with
    | (Raises e, w') => if classes e then handler e w' else (Raises e, w')
    | r => r
    end.

Definition Exception (e : exn) : bool := true.

Definition uuid4 : M UUID :=
  fun w => (Returns (entropy w 0), with_entropy (shift (entropy w)) w).

Definition utcnow : M datetime :=
  fun w => (Returns (clock w 0), with_clock (shift (clock w)) w).

(** ** The redis client ([app.core.caching.redis_client], not in the sources)

    Modelled from its three call sites: a client that returns str values
    ([decode_responses]).  A call either fails to reach the server, leaving it
    as it was, or is served at the server's current time. *)
Definition redis_advance (w : world) : world :=
  with_redis_link (shift (redis_link w)) w.

Definition redis_call {A} (serve : Z -> world -> A * world) : M A :=
  fun w =>
    let w' := redis_advance w in
    match redis_link w 0 with
    | None => (Raises ConnectionError, w')
    | Some now => let (a, w'') := serve now w' in (Returns a, w'')
    end.

(** An entry past its expiry is absent. *)
Definition live (now : Z) (e : option (text * Z)) : option text :=
  match e with
  | Some (v, expiry) => if (now <? expiry)%Z then Some v else None
  | None => None
  end.

Definition store_key (key : text) (e : option (text * Z)) (w : world) : world :=
  with_redis_db (fun k => if text_eqb k key then e else redis_db w k) w.

Definition redis_get (key : text) : M (option text) :=
  redis_call (fun now w => (live now (redis_db w key), w)).

Definition redis_set (key value : text) (ex : Z) : M unit :=
  redis_call (fun now w => (tt, store_key key (Some (value, now + 1000 * ex)%Z) w)).

Definition redis_delete (key : text) : M nat :=
  redis_call (fun now w =>
    (match live now (redis_db w key) with Some _ => 1 | None => 0 end,
     store_key key None w)).

(** ** The database session ([app.core.database], not in the sources)

    Modelled from the calls of [base_repository.py]: every awaited session
    call is one round trip that may fail; changes reach the table at commit. *)
Definition db_advance (w : world) : world :=
  with_db_link (shift (db_link w)) w.

Definition db_roundtrip : M unit :=
  fun w =>
    let w' := db_advance w in
    if db_link w 0 then (Raises DBAPIError, w') else (Returns tt, w').

Definition find_row (i : UUID) (rows : list TemplateItem.t) : option TemplateItem.t :=
  find (fun r => (TemplateItem.id r =? i)%N) rows.

Definition has_row (i : UUID) (rows : list TemplateItem.t) : bool :=
  existsb (fun r => (TemplateItem.id r =? i)%N) rows.

(** [await session.get(model_class, entity_id)]. *)
Definition session_get (i : UUID) : M (option TemplateItem.t) :=
  let* _ := db_roundtrip in
  fun w => (Returns (find_row i (table w)), w).

(** [session.add(entity); await session.commit()] for a new entity: the
    INSERT is refused when the primary key exists.  The table is kept in the
    order in which a SELECT without ORDER BY returns its rows; where a new
    row comes in that order is the database's choice, not the program's.  It
    is put last here, and the properties below of what a create leaves are
    stated up to the order of the rows. *)
Definition commit_insert (entity : TemplateItem.t) : M unit :=
  let* _ := db_roundtrip in
  fun w =>
    if has_row (TemplateItem.id entity) (table w)
    then (Raises IntegrityError, w)
    else (Returns tt, with_table (table w ++ [entity]) w).

(** [await session.refresh(entity)]: the attributes are read back. *)
Definition refresh (entity : TemplateItem.t) : M TemplateItem.t :=
  let* _ := db_roundtrip in
  fun w =>
    match find_row (TemplateItem.id entity) (table w) with
    | Some r => (Returns r, w)
    | None => (Raises DBAPIError, w)
    end.

(** The row [i] rewritten.  It keeps its place here; whether a database
    returns an updated row at its old place is again its own choice, and the
    properties of what an update leaves are stated up to order. *)
Fixpoint replace_row (i : UUID) (new : TemplateItem.t) (rows : list TemplateItem.t)
  : list TemplateItem.t :=
  match rows with
  | [] => []
  | r :: rest =>
    if (TemplateItem.id r =? i)%N then new :: rest else r :: replace_row i new rest
  end.

(** [await session.commit()] after attribute assignments on the row [i];
    [staged] is [None] when an assigned value does not fit its column. *)
Definition commit_update (i : UUID) (staged : option TemplateItem.t) : M unit :=
  let* _ := db_roundtrip in
  fun w =>
    match staged with
    | None => (Raises DBAPIError, w)
    | Some new =>
      if negb (TemplateItem.id new =? i)%N && has_row (TemplateItem.id new) (table w)
      then (Raises IntegrityError, w)
      else (Returns tt, with_table (replace_row i new (table w)) w)
    end.

(** A keyword argument left out takes its default. *)
Definition default {A} (d : A) (o : option A) : A :=
  match o with Some a => a | None => d end.

(** ** [CacheService] ([cache_service.py]) *)

Definition is_JSONDecodeError (e : exn) : bool :=
  match e with JSONDecodeError => true | _ => false end.

(** One segment of the old format: [id::title::status::created_at]. *)
Definition legacy_item (s : text) : outcome pyval :=
  let parts := py_split_max (txt "::") 3 s in
  try! p0 <- py_index parts 0;
  try! i <- py_int p0;
  try! t <- py_index parts 1;
  try! st <- py_index parts 2;
  try! c <- py_index parts 3;
  Returns (PDict [(txt "id", PInt i); (txt "title", PStr t);
                  (txt "status", PStr st); (txt "created_at", PStr c)]).

(** The loop over [cached.split("||")]; empty segments are skipped. *)
Fixpoint legacy_items (segments : list text) : outcome (list pyval) :=
  match segments with
  | [] => Returns []
  | s :: rest =>
    match s with
    | [] => legacy_items rest
    | _ :: _ =>
      try! item <- legacy_item s;
      try! items <- legacy_items rest;
      Returns (item :: items)
    end
  end.

Definition get_templates_cache (cache_key : text) : M pyval :=
  try_except
    (let* cached := redis_get cache_key in
     match cached with
     | Some ((_ :: _) as cached) =>
       try_except
         (lift (json_loads cached))
         is_JSONDecodeError
         (fun _ =>
            let* items := lift (legacy_items (py_split (txt "||") cached)) in
            ret (PList items))
     | _ => ret PNone
     end)
    Exception
    (fun _ => ret PNone).

Definition set_templates_cache (cache_key : text) (templates : list pyval)
           (ttl : option Z) : M unit :=
  let ttl := default 30%Z ttl in
  try_except
    (let serialized := json_dumps (PList templates) in
     let* _ := redis_set cache_key serialized ttl in
     ret tt)
    Exception
    (fun _ => ret tt).

Definition invalidate_cache (cache_key : text) : M unit :=
  try_except
    (let* deleted := redis_delete cache_key in
     ret tt)
    Exception
    (fun _ => ret tt).

(** ** [BaseRepository] at [TemplateItem] ([base_repository.py],
       [template_repository.py]) *)

Definition create (entity : TemplateItem.t) : M TemplateItem.t :=
  let* _ := commit_insert entity in
  let* entity := refresh entity in
  ret entity.

Definition get_by_id (entity_id : UUID) : M (option TemplateItem.t) :=
  session_get entity_id.

(** [select(model_class).limit(limit).offset(offset)]. *)
Definition get_all (limit offset : option nat) : M (list TemplateItem.t) :=
  let limit := default 100 limit in
  let offset := default 0 offset in
  let* _ := db_roundtrip in
  fun w => (Returns (firstn limit (skipn offset (table w))), w).

(** [hasattr(existing, field)]: the six columns (other attributes of the
    model class are not modelled). *)
Definition hasattr (field : text) : bool :=
  existsb (text_eqb field)
    [txt "id"; txt "title"; txt "body"; txt "status"; txt "created_at"; txt "updated_at"].

(** [setattr(existing, field, value)]; [None] when the value does not fit the
    column, which the next commit reports. *)
Definition setattr (field : text) (value : pyval) (e : TemplateItem.t)
  : option TemplateItem.t :=
  let '(TemplateItem.Build_t i t b s c u) := e in
  if text_eqb field (txt "id") then
    opt! x <- as_uuid value; Some (TemplateItem.Build_t x t b s c u)
  else if text_eqb field (txt "title") then
    opt! x <- as_str value; Some (TemplateItem.Build_t i x b s c u)
  else if text_eqb field (txt "body") then
    opt! x <- as_opt_str value; Some (TemplateItem.Build_t i t x s c u)
  else if text_eqb field (txt "status") then
    opt! x <- as_status value; Some (TemplateItem.Build_t i t b x c u)
  else if text_eqb field (txt "created_at") then
    opt! x <- as_datetime value; Some (TemplateItem.Build_t i t b s x u)
  else if text_eqb field (txt "updated_at") then
    opt! x <- as_datetime value; Some (TemplateItem.Build_t i t b s c x)
  else Some e.

(** [print(...)] of a line that holds [s] as it is: standard output encodes
    it as UTF-8, which has no encoding for a surrogate. *)
Definition encodable (s : text) : bool :=
  forallb (fun c => negb ((55296 <=? c) && (c <=? 57343))%N) s.

Definition print (s : text) : outcome unit :=
  if encodable s then Returns tt else Raises UnicodeEncodeError.

(** What [f"{value}"] takes over from the value as it is: a str is put in
    whole, and str() of any other value is ASCII or escapes what is not
    printable. *)
Definition unescaped (value : pyval) : text :=
  match value with
  | PStr s => s
  | _ => []
  end.

(** The prints of the loop [for field, value in update_data.items()]: the
    field and the value where [hasattr] holds, the field alone where not. *)
Fixpoint print_fields (update_data : list (text * pyval)) : outcome unit :=
  match update_data with
  | [] => Returns tt
  | (field, value) :: rest =>
    try! _ <- (if hasattr field then print (field ++ unescaped value) else print field);
    print_fields rest
  end.

(** The assignments of the loop [for field, value in update_data.items()]. *)
Definition apply_update (update_data : list (text * pyval)) (existing : TemplateItem.t)
  : option TemplateItem.t :=
  fold_left
    (fun staged fv =>
       if hasattr (fst fv)
       then opt! e <- staged; setattr (fst fv) (snd fv) e
       else staged)
    update_data (Some existing).

Definition update_by_id (entity_id : UUID) (update_data : list (text * pyval))
  : M TemplateItem.t :=
  try_except
    (let* existing := session_get entity_id in
     match existing with
     | None => raise ValueError
     | Some existing =>
       let* _ := lift (print_fields update_data) in
       let staged := apply_update update_data existing in
       let* _ := commit_update entity_id staged in
       let* existing := refresh (default existing staged) in
       ret existing
     end)
    Exception
    (fun e => raise e).

Definition delete_by_id (entity_id : UUID) : M bool :=
  (* result = await session.execute(delete(...).where(id == entity_id)) *)
  let* _ := db_roundtrip in
  let* rowcount :=
     (fun w => (Returns (length (filter (fun r => (TemplateItem.id r =? entity_id)%N)
                                        (table w))), w)) in
  (* await session.commit() *)
  let* _ := db_roundtrip in
  let* _ :=
     (fun w => (Returns tt,
                with_table (filter (fun r => negb (TemplateItem.id r =? entity_id)%N)
                                   (table w)) w)) in
  ret (0 <? rowcount).

(** ** [TemplateService] ([template_service.py]) *)

(** [TemplateItem(title=..., body=..., status=...)]: the remaining fields come
    from their default factories, one call each, in field order. *)
Definition new_TemplateItem (title : text) (body : option text) (status : TemplateStatus)
  : M TemplateItem.t :=
  let* i := uuid4 in
  let* c := utcnow in
  let* u := utcnow in
  ret {| TemplateItem.id := i; TemplateItem.title := title; TemplateItem.body := body;
         TemplateItem.status := status;
         TemplateItem.created_at := c; TemplateItem.updated_at := u |}.

Definition list_response (source : string) (templates : list TemplateResponse.t)
           (limit offset : nat) : TemplateListResponse.t :=
  {| TemplateListResponse.source := txt source;
     TemplateListResponse.templates := templates;
     TemplateListResponse.total := Some (length templates);
     TemplateListResponse.limit := Some limit;
     TemplateListResponse.offset := Some offset |}.

Definition get_all_templates (use_cache : bool) (limit offset : nat)
  : M TemplateListResponse.t :=
  let cache_key := txt "test:template" in
  (* Try cache first if enabled *)
  let* hit :=
     (if use_cache then
        let* cached_templates := get_templates_cache cache_key in
        if truthy cached_templates then
          let* templates :=
             lift (try! items <- py_iter cached_templates;
                   comprehension model_validate items) in
          ret (Some (list_response "redis" templates limit offset))
        else ret None
      else ret None) in
  match hit with
  | Some response => ret response
  | None =>
    (* Fetch from database using base repository *)
    let* template_entities := get_all (Some limit) (Some offset) in
    let templates := map model_validate_item template_entities in
    (* Cache the result if caching is enabled *)
    let* _ :=
       (if use_cache then
          let template_dicts := map model_dump templates in
          set_templates_cache cache_key template_dicts None
        else ret tt) in
    ret (list_response "db" templates limit offset)
  end.

Definition get_template_by_id (template_id : UUID) : M (option TemplateResponse.t) :=
  let* template := get_by_id template_id in
  ret (option_map model_validate_item template).

Definition create_template (create_request : TemplateCreateRequest.t)
  : M TemplateCreateResponse.t :=
  let* template_entity :=
     new_TemplateItem (TemplateCreateRequest.title create_request)
                      (TemplateCreateRequest.body create_request)
                      (TemplateCreateRequest.status create_request) in
  let* created_template := create template_entity in
  (* Invalidate cache since we have new data *)
  let* _ := invalidate_cache (txt "test:template") in
  ret {| TemplateCreateResponse.message := txt "Template created successfully";
         TemplateCreateResponse.template := model_validate_item created_template |}.

Definition update_template (template_id : UUID) (update_request : TemplateUpdateRequest.t)
  : M (option TemplateResponse.t) :=
  let update_data := model_dump_exclude_none update_request in
  match update_data with
  | [] =>
    (* No fields to update *)
    get_template_by_id template_id
  | _ :: _ =>
    let* now := utcnow in
    let update_data := dict_set (txt "updated_at") (PDatetime now) update_data in
    try_except
      (let* updated_template := update_by_id template_id update_data in
       let* _ := invalidate_cache (txt "test:template") in
       ret (Some (model_validate_item updated_template)))
      is_ValueError
      (fun _ => ret None)
  end.

Definition delete_template (template_id : UUID) : M bool :=
  let* result := delete_by_id template_id in
  let* _ := (if result then invalidate_cache (txt "test:template") else ret tt) in
  ret result.

(** ** The listing route ([template_router.py]) *)

Inductive http (A : Type) :=
| OK (payload : A)                 (* 200 *)
| UnprocessableEntity              (* 422: a query parameter fails validation *)
| InternalServerError.             (* 500 *)
Arguments OK {A} payload.
Arguments UnprocessableEntity {A}.
Arguments InternalServerError {A}.

(** [GET /test/template]: [limit: int = Query(100, ge=1, le=500)],
    [offset: int = Query(0, ge=0)], [use_cache: bool = Query(True)]. *)
Definition get_templates (limit offset : option Z) (use_cache : option bool)
  : world -> http TemplateListResponse.t * world :=
  let limit := default 100%Z limit in
  let offset := default 0%Z offset in
  let use_cache := default true use_cache in
  fun w =>
    if ((1 <=? limit) && (limit <=? 500) && (0 <=? offset))%Z then
      match get_all_templates use_cache (Z.to_nat limit) (Z.to_nat offset) w with
      | (Returns result, w') => (OK result, w')
      | (Raises _, w') => (InternalServerError, w')
      end
    else (UnprocessableEntity, w).

(** The one key the service uses. *)
Definition listing_key : text := txt "test:template".

(** The world once [TemplateItem(...)] has drawn its id and its two timestamps. *)
Definition after_init (w : world) : world :=
  with_clock (shift (shift (clock w)))
    (with_clock (shift (clock w)) (with_entropy (shift (entropy w)) w)).

(** The row that a non-empty update request, stamped [now], makes of [old]. *)
Definition patched (request : TemplateUpdateRequest.t) (now : datetime)
           (old : TemplateItem.t) : TemplateItem.t :=
  {| TemplateItem.id := TemplateItem.id old;
     TemplateItem.title :=
       default (TemplateItem.title old) (TemplateUpdateRequest.title request);
     TemplateItem.body :=
       match TemplateUpdateRequest.body request with
       | Some b => Some b
       | None => TemplateItem.body old
       end;
     TemplateItem.status :=
       default (TemplateItem.status old) (TemplateUpdateRequest.status request);
     TemplateItem.created_at := TemplateItem.created_at old;
     TemplateItem.updated_at := now |}.

(** Whether at least one of title, body, status is set. *)
Definition sets_a_field (request : TemplateUpdateRequest.t) : bool :=
  match TemplateUpdateRequest.title request, TemplateUpdateRequest.body request,
        TemplateUpdateRequest.status request with
  | None, None, None => false
  | _, _, _ => true
  end.

(** The title and the body that the request sets can be printed. *)
Definition printable_update (request : TemplateUpdateRequest.t) : bool :=
  match TemplateUpdateRequest.title request with Some t => encodable t | None => true end
  && match TemplateUpdateRequest.body request with Some b => encodable b | None => true end.

(** What [get_templates_cache] makes of a non-empty cached text: the JSON
    value; after a JSONDecodeError the items of the old format, or None when
    they cannot be read; and None after any other error of json.loads. *)
Definition decode_cached (cached : text) : pyval :=
  match json_loads cached with
  | Returns v => v
  | Raises e =>
    if is_JSONDecodeError e then
      match legacy_items (py_split (txt "||") cached) with
      | Returns items => PList items
      | Raises _ => PNone
      end
    else PNone
  end.

(** What a redis call served at [now] finds under [key], decoded. *)
Definition cache_view (key : text) (now : Z) (w : world) : pyval :=
  match live now (redis_db w key) with
  | Some ((_ :: _) as cached) => decode_cached cached
  | _ => PNone
  end.

(** The page of the table that [limit] and [offset] select, as responses. *)
Definition page (limit offset : nat) (w : world) : list TemplateResponse.t :=
  map model_validate_item (firstn limit (skipn offset (table w))).

(** A segment of the old format that decodes: its first field is a literal
    that int() takes, and it has (at least) four fields. *)
Definition legacy_segment_ok (s : text) : bool :=
  let parts := py_split_max (txt "::") 3 s in
  match py_int (hd [] parts) with
  | Returns _ => 4 <=? length parts
  | Raises _ => false
  end.

(** What the old format says of a segment and the item read from it: the
    segment has the four fields [id::title::status::created_at], the first a
    literal of int(), and the item is the dict of these. *)
Definition old_format_item (segment : text) (item : pyval) : Prop :=
  exists id title status created_at n,
    py_split_max (txt "::") 3 segment = [id; title; status; created_at]
    /\ py_int id = Returns n
    /\ item = PDict [(txt "id", PInt n); (txt "title", PStr title);
                     (txt "status", PStr status);
                     (txt "created_at", PStr created_at)].

(** Cache-enabled listing reads, one after the other. *)
Fixpoint run_reads (reads : list (nat * nat)) (w : world)
  : list (outcome TemplateListResponse.t) * world :=
  match reads with
  | [] => ([], w)
  | (limit, offset) :: rest =>
    let (r, w1) := get_all_templates true limit offset w in
    let (rs, w2) := run_reads rest w1 in
    (r :: rs, w2)
  end.

(** The listing key holds nothing that reads as a non-empty value. *)
Definition reads_as_miss (w : world) : Prop :=
  redis_db w listing_key = None
  \/ exists cached expiry,
       redis_db w listing_key = Some (cached, expiry) /\ truthy (decode_cached cached) = false.

Definition nonempty_text (s : text) : bool :=
  match s with [] => false | _ :: _ => true end.

(** A UUID is a 128-bit number. *)
Definition valid_uuid (u : UUID) : bool := (u <? 2 ^ 128)%N.

(** A Unicode scalar value: a code point that is not a surrogate.  Text that
    came through UTF-8 (what the database holds) has no others. *)
Definition scalar (c : char) : bool :=
  ((c <? 1114112) && negb ((55296 <=? c) && (c <=? 57343)))%N.

Definition scalar_text (s : text) : bool := forallb scalar s.

(** What a field value is once it went through json.dumps(default=str) and
    json.loads: identifiers and timestamps come back as their strings. *)
Definition cached_atom (v : pyval) : pyval :=
  match v with
  | PUuid u => PStr (uuid_str u)
  | PDatetime d => PStr (datetime_str d)
  | _ => v
  end.

(** The field values of a snapshot: None, text, identifiers, timestamps. *)
Definition atom_ok (v : pyval) : bool :=
  match v with
  | PNone | PUuid _ | PDatetime _ => true
  | PStr s => scalar_text s
  | _ => false
  end.

(** The dict that [get_templates_cache] returns for a snapshot written by
    [set_templates_cache]. *)
Definition cached_form (r : TemplateResponse.t) : pyval :=
  PDict [(txt "id", PStr (uuid_str (TemplateResponse.id r)));
         (txt "title", PStr (TemplateResponse.title r));
         (txt "body", py_opt_str (TemplateResponse.body r));
         (txt "status", PStr (status_value (TemplateResponse.status r)));
         (txt "created_at", PStr (datetime_str (TemplateResponse.created_at r)));
         (txt "updated_at", PStr (datetime_str (TemplateResponse.updated_at r)))].

(** A snapshot as the program can hold one: a 128-bit id, timestamps in
    range, text made of scalar values. *)
Definition valid_snapshot (r : TemplateResponse.t) : bool :=
  valid_uuid (TemplateResponse.id r)
  && scalar_text (TemplateResponse.title r)
  && match TemplateResponse.body r with Some b => scalar_text b | None => true end
  && valid_datetime (TemplateResponse.created_at r)
  && valid_datetime (TemplateResponse.updated_at r).

(** One entry of a dict as json.dumps writes it. *)
Definition pair_text (kv : text * pyval) : text :=
  match kv with (k, x) => json_quote k ++ txt ": " ++ json_dumps x end.

(** A dict entry with a scalar-text key and an atom as value. *)
Definition flat_entry (kv : text * pyval) : Prop :=
  scalar_text (fst kv) = true /\ atom_ok (snd kv) = true.

(** [q] is the result [p] or [p] ran out of fuel. *)
Definition agree {A} (p q : parsed A) : Prop := p = Exhausted \/ p = q.

(** The three mutations of the service, and what each returns. *)
Inductive mutation :=
| Create (request : TemplateCreateRequest.t)
| Update (template_id : UUID) (request : TemplateUpdateRequest.t)
| Delete (template_id : UUID).

Inductive mutation_result :=
| Created (response : TemplateCreateResponse.t)
| Updated (response : option TemplateResponse.t)
| Deleted (removed : bool).

Definition run_mutation (m : mutation) : M mutation_result :=
  match m with
  | Create request => let* r := create_template request in ret (Created r)
  | Update template_id request =>
    let* r := update_template template_id request in ret (Updated r)
  | Delete template_id => let* r := delete_template template_id in ret (Deleted r)
  end.

(** The result tells that the mutation was committed to the table: a create
    that returned, an update with fields that returned a record, a delete
    that removed a row. *)
Definition committed (m : mutation) (r : mutation_result) : bool :=
  match m, r with
  | Create _, Created _ => true
  | Update _ request, Updated (Some _) => sets_a_field request
  | Delete _, Deleted removed => removed
  | _, _ => false
  end.

(** The page of [rows] that [limit] and [offset] select, as responses. *)
Definition page_of (rows : list TemplateItem.t) (limit offset : nat)
  : list TemplateResponse.t :=
  map model_validate_item (firstn limit (skipn offset rows)).

(** The listing key is absent or holds what a read wrote for some page of
    [rows]. *)
Definition caches_page_of (rows : list TemplateItem.t) (w : world) : Prop :=
  redis_db w listing_key = None
  \/ exists limit offset expiry,
       redis_db w listing_key
       = Some (json_dumps (PList (map model_dump (page_of rows limit offset))), expiry).

(** Every row is a snapshot as the program can hold one. *)
Definition valid_rows (rows : list TemplateItem.t) : bool :=
  forallb valid_snapshot (map model_validate_item rows).

(** A listing answer over [rows]: the database failed, or the templates are
    a page of [rows]. *)
Definition answers_from (rows : list TemplateItem.t)
           (out : outcome TemplateListResponse.t) : Prop :=
  out = Raises DBAPIError
  \/ exists response limit offset,
       out = Returns response
       /\ TemplateListResponse.templates response = page_of rows limit offset.

(** ** Sample inputs for the concrete runs below *)

Module Sample.

(** 2023-01-02 03:04:05 plus [n] microseconds. *)
Definition instant (n : nat) : datetime :=
  {| year := 2023; month := 1; day := 2; hour := 3; minute := 4; second := 5;
     microsecond := N.of_nat n |}.

(** No rows, nothing cached, no failure; the clock advances by a microsecond
    per reading, the redis server by a second per call. *)
Definition quiet : world :=
  {| table := [];
     redis_db := fun _ => None;
     clock := instant;
     entropy := fun n => N.of_nat (100 + n);
     db_link := fun _ => false;
     redis_link := fun n => Some (1000 * Z.of_nat n)%Z |}.

Definition row (i : nat) : TemplateItem.t :=
  {| TemplateItem.id := N.of_nat i;
     TemplateItem.title := txt "X";
     TemplateItem.body := None;
     TemplateItem.status := DRAFT;
     TemplateItem.created_at := instant 0;
     TemplateItem.updated_at := instant 0 |}.

(** A table of [n] rows with the ids 0 .. n-1. *)
Definition stocked (n : nat) : world := with_table (map row (seq 0 n)) quiet.

Definition create_X : TemplateCreateRequest.t :=
  {| TemplateCreateRequest.title := txt "X";
     TemplateCreateRequest.body := None;
     TemplateCreateRequest.status := DRAFT |}.

Definition publish : TemplateUpdateRequest.t :=
  {| TemplateUpdateRequest.title := None;
     TemplateUpdateRequest.body := None;
     TemplateUpdateRequest.status := Some PUBLISHED |}.

Definition nothing : TemplateUpdateRequest.t :=
  {| TemplateUpdateRequest.title := None;
     TemplateUpdateRequest.body := None;
     TemplateUpdateRequest.status := None |}.

(** The listing key holding [value] until server time 30000. *)
Definition caching (value : text) (w : world) : world :=
  store_key (txt "test:template") (Some (value, 30000%Z)) w.


(** Only the next redis call fails. *)
Definition redis_hiccup (w : world) : world :=
  with_redis_link (fun n => match n with O => None | S k => redis_link w k end) w.

(** The clock stands still. *)
Definition frozen_clock (w : world) : world := with_clock (fun _ => instant 0) w.

End Sample.

(** ** The rest of the repository ([base_repository.py], [template_repository.py]) *)

Definition find_by_id (entity_id : UUID) : M (option TemplateItem.t) :=
  get_by_id entity_id.

(** [exists(entity_id)]; the name is a keyword here, hence the underscore. *)
Definition exists_ (entity_id : UUID) : M bool :=
  let* result := session_get entity_id in
  ret (match result with Some _ => true | None => false end).

(** [getattr(model_class, field) == value] as the WHERE clause decides it on
    one row: a value of the column's own Python type is compared with the
    stored one, and [None] renders IS NULL.  The status column holds the
    member's name, which is also its value.  What a database makes of a
    literal of another type, or of a status that names no member, depends on
    the database; here such a literal matches no row. *)
Definition column_equals (field : text) (value : pyval) (r : TemplateItem.t) : bool :=
  if text_eqb field (txt "id") then
    match value with PUuid u => (TemplateItem.id r =? u)%N | _ => false end
  else if text_eqb field (txt "title") then
    match value with PStr s => text_eqb (TemplateItem.title r) s | _ => false end
  else if text_eqb field (txt "body") then
    match value, TemplateItem.body r with
    | PStr s, Some b => text_eqb b s
    | PNone, None => true
    | _, _ => false
    end
  else if text_eqb field (txt "status") then
    match value with
    | PStr s => text_eqb (status_value (TemplateItem.status r)) s
    | _ => false
    end
  else if text_eqb field (txt "created_at") then
    match value with
    | PDatetime d => text_eqb (datetime_fields (TemplateItem.created_at r)) (datetime_fields d)
    | _ => false
    end
  else if text_eqb field (txt "updated_at") then
    match value with
    | PDatetime d => text_eqb (datetime_fields (TemplateItem.updated_at r)) (datetime_fields d)
    | _ => false
    end
  else false.

(** The loop [for field, value in criteria.items()]: one more WHERE for each
    field that [hasattr] recognises, the others are passed over.  Its prints
    are those of the loop of [update_by_id]. *)
Definition where_all (criteria : list (text * pyval)) : TemplateItem.t -> bool :=
  fold_left
    (fun stmt fv =>
       if hasattr (fst fv)
       then (fun r => stmt r && column_equals (fst fv) (snd fv) r)
       else stmt)
    criteria (fun _ => true).

(** [select(model_class).where(...).limit(limit).offset(offset)]. *)
Definition find_all (limit offset : option nat) (criteria : list (text * pyval))
  : M (list TemplateItem.t) :=
  let limit := default 100 limit in
  let offset := default 0 offset in
  let stmt := where_all criteria in
  let* _ := lift (print_fields criteria) in
  let* _ := db_roundtrip in
  fun w => (Returns (firstn limit (skipn offset (filter stmt (table w)))), w).

(** [TemplateRepository.find_by_status]: [find_all(status=status)]. *)
Definition find_by_status (status : text) : M (list TemplateItem.t) :=
  find_all None None [(txt "status", PStr status)].

(** ** The rest of the service ([template_service.py]) *)

Definition find_templates_by_status (status : text) : M (list TemplateResponse.t) :=
  let* templates := find_by_status status in
  ret (map model_validate_item templates).

(** ** Request bodies ([template_dto.py])

    What pydantic makes of the parsed JSON body of a request.  A str field
    takes a str only, whatever its characters; keys that name no field are
    ignored. *)

Definition as_request_str (v : pyval) : option text := as_str v.

(** [Field(..., min_length=1, max_length=200)]: lengths count characters. *)
Definition as_title (v : pyval) : option text :=
  opt! s <- as_request_str v;
  if (1 <=? length s) && (length s <=? 200) then Some s else None.

(** A field that may be left out: [missing] is its default. *)
Definition field_or {A} (missing : A) (read : pyval -> option A) (name : string)
           (d : list (text * pyval)) : option A :=
  match dict_get (txt name) d with
  | None => Some missing
  | Some v => read v
  end.

(** An [Optional[...]] field: null is None. *)
Definition optional {A} (read : pyval -> option A) (v : pyval) : option (option A) :=
  match v with
  | PNone => Some None
  | _ => opt! a <- read v; Some (Some a)
  end.

(** [TemplateCreateRequest]: title is required, body defaults to None and
    status to DRAFT. *)
Definition validate_create_request (body : pyval) : outcome TemplateCreateRequest.t :=
  let validated :=
    match body with
    | PDict d =>
      opt! t <- (opt! x <- dict_get (txt "title") d; as_title x);
      opt! b <- field_or None (optional as_request_str) "body" d;
      opt! s <- field_or DRAFT as_status "status" d;
      Some {| TemplateCreateRequest.title := t; TemplateCreateRequest.body := b;
              TemplateCreateRequest.status := s |}
    | _ => None
    end in
  match validated with
  | Some r => Returns r
  | None => Raises ValidationError
  end.

(** [TemplateUpdateRequest]: every field defaults to None. *)
Definition validate_update_request (body : pyval) : outcome TemplateUpdateRequest.t :=
  let validated :=
    match body with
    | PDict d =>
      opt! t <- field_or None (optional as_title) "title" d;
      opt! b <- field_or None (optional as_request_str) "body" d;
      opt! s <- field_or None (optional as_status) "status" d;
      Some {| TemplateUpdateRequest.title := t; TemplateUpdateRequest.body := b;
              TemplateUpdateRequest.status := s |}
    | _ => None
    end in
  match validated with
  | Some r => Returns r
  | None => Raises ValidationError
  end.

(** ** The other routes ([template_router.py]) *)

Module template_router.

(** What the body of a route raises: an [HTTPException] or anything else. *)
Inductive raised :=
| HTTPException (status_code : nat)
| Other (e : exn).

Inductive result (A : Type) :=
| Return (a : A)
| Raise (x : raised).
Arguments Return {A} a.
Arguments Raise {A} x.

Definition body (A : Type) := world -> result A * world.

Definition return_ {A} (a : A) : body A := fun w => (Return a, w).
Definition raise_ {A} (x : raised) : body A := fun w => (Raise x, w).

(** [x = await service.method(...)], then the statements that follow. *)
Definition await {A B} (m : M A) (k : A -> body B) : body B :=
  fun w =>
    match m w with
    | (Returns a, w') => k a w'
    | (Raises e, w') => (Raise (Other e), w')
    end.

Notation "'await!' x := c 'in' k" := (await c (fun x => k))
  (at level 10, x name, c at level 100, k at level 200).

(** The except clauses of a try statement, tried in order. *)
Fixpoint handle {A} (clauses : list ((raised -> bool) * (raised -> body A)))
         (x : raised) : body A :=
  match clauses with
  | [] => raise_ x
  | (matches, handler) :: rest => if matches x then handler x else handle rest x
  end.

Definition try_ {A} (m : body A) (clauses : list ((raised -> bool) * (raised -> body A)))
  : body A :=
  fun w =>
    match m w with
    | (Raise x, w') => handle clauses x w'
    | r => r
    end.

Definition is_HTTPException (x : raised) : bool :=
  match x with HTTPException _ => true | Other _ => false end.

(** [HTTPException] is an [Exception] too, as is everything that the
    operations above raise; the cancellation of the task, which is none, is
    not modelled. *)
Definition is_Exception (x : raised) : bool := true.

(** What the client gets: the status code and, when the route returned, its
    value.  The detail text of an error is not modelled. *)
Inductive response (A : Type) := Response (status_code : nat) (content : option A).
Arguments Response {A} status_code content.

Definition status_code {A} (r : response A) : nat :=
  match r with Response c _ => c end.

Definition content {A} (r : response A) : option A :=
  match r with Response _ a => a end.

(** The framework around a route: the declared status code when the function
    returns, the exception's code when it raises an [HTTPException], 500 for
    anything else. *)
Definition serve {A} (declared : nat) (b : body A) : world -> response A * world :=
  fun w =>
    match b w with
    | (Return a, w') => (Response declared (Some a), w')
    | (Raise (HTTPException c), w') => (Response c None, w')
    | (Raise (Other _), w') => (Response 500 None, w')
    end.

(** A parameter that fails its validation: 422, and the function is not called. *)
Definition unprocessable {A} : world -> response A * world :=
  fun w => (Response 422 None, w).

Definition get_template (template_id : UUID) : body TemplateResponse.t :=
  try_
    (await! template := get_template_by_id template_id in
     match template with
     | None => raise_ (HTTPException 404)
     | Some template => return_ template
     end)
    [(is_HTTPException, fun x => raise_ x);
     (is_Exception, fun e => raise_ (HTTPException 500))].

Definition create_template (create_request : TemplateCreateRequest.t)
  : body TemplateCreateResponse.t :=
  try_
    (await! result := create_template create_request in
     return_ result)
    [(is_Exception, fun e => raise_ (HTTPException 500))].

Definition update_template (template_id : UUID) (update_request : TemplateUpdateRequest.t)
  : body TemplateResponse.t :=
  try_
    (await! template := update_template template_id update_request in
     match template with
     | None => raise_ (HTTPException 404)
     | Some template => return_ template
     end)
    [(is_HTTPException, fun x => raise_ x);
     (is_Exception, fun e => raise_ (HTTPException 500))].

Definition delete_template (template_id : UUID) : body unit :=
  try_
    (await! result := delete_template template_id in
     if negb result then raise_ (HTTPException 404) else return_ tt)
    [(is_HTTPException, fun x => raise_ x);
     (is_Exception, fun e => raise_ (HTTPException 500))].

Definition get_templates_by_status (status : text) : body (list TemplateResponse.t) :=
  try_
    (await! templates := find_templates_by_status status in
     return_ templates)
    [(is_Exception, fun e => raise_ (HTTPException 500))].

(** The five routes as the client meets them.  A path id is a str that must
    read as a UUID, a body must validate as its DTO. *)

Definition GET_template (template_id : text) : world -> response TemplateResponse.t * world :=
  match parse_uuid template_id with
  | Some template_id => serve 200 (get_template template_id)
  | None => unprocessable
  end.

Definition POST_template (json : pyval)
  : world -> response TemplateCreateResponse.t * world :=
  match validate_create_request json with
  | Returns create_request => serve 201 (create_template create_request)
  | Raises _ => unprocessable
  end.

Definition PUT_template (template_id : text) (json : pyval)
  : world -> response TemplateResponse.t * world :=
  match parse_uuid template_id with
  | Some template_id =>
    match validate_update_request json with
    | Returns update_request => serve 200 (update_template template_id update_request)
    | Raises _ => unprocessable
    end
  | None => unprocessable
  end.

Definition DELETE_template (template_id : text) : world -> response unit * world :=
  match parse_uuid template_id with
  | Some template_id => serve 204 (delete_template template_id)
  | None => unprocessable
  end.

Definition GET_templates_by_status (status : text)
  : world -> response (list TemplateResponse.t) * world :=
  serve 200 (get_templates_by_status status).

End template_router.

(** ** Predicates of the properties below *)

(** No two rows share an id. *)
Fixpoint unique_ids (rows : list TemplateItem.t) : bool :=
  match rows with
  | [] => true
  | r :: rest => negb (has_row (TemplateItem.id r) rest) && unique_ids rest
  end.

(** Every title has 1 to 200 characters. *)
Definition titles_fit (rows : list TemplateItem.t) : bool :=
  forallb (fun r => (1 <=? length (TemplateItem.title r))
                    && (length (TemplateItem.title r) <=? 200)) rows.

Definition has_status (s : TemplateStatus) (r : TemplateItem.t) : bool :=
  text_eqb (status_value (TemplateItem.status r)) (status_value s).

(** * Properties *)

(** ** Running the statements *)

Lemma bind_returns A B (m : M A) (k : A -> M B) w a w' :
  m w = (Returns a, w') -> bind m k w = k a w'.
Proof. unfold bind; intros ->; reflexivity. Qed.

Lemma bind_raises A B (m : M A) (k : A -> M B) w e w' :
  m w = (Raises e, w') -> bind m k w = (Raises e, w').
Proof. unfold bind; intros ->; reflexivity. Qed.

Lemma db_roundtrip_eq w :
  db_roundtrip w =
  ((if db_link w 0 then Raises DBAPIError else Returns tt),
   db_advance w).
Proof. unfold db_roundtrip; destruct (db_link w 0); reflexivity. Qed.

Lemma text_eqb_refl (a : text) : text_eqb a a = true.
Proof. induction a; simpl; [ | rewrite N.eqb_refl ]; auto. Qed.

Lemma text_eqb_eq (a b : text) : text_eqb a b = true <-> a = b.
Proof.
  split; [ | intros ->; apply text_eqb_refl ].
  revert b; induction a as [ | x a IH ]; destruct b as [ | y b ]; simpl;
    try discriminate; auto.
  intros H; apply andb_true_iff in H; destruct H as [H1 H2].
  apply N.eqb_eq in H1; subst; f_equal; auto.
Qed.

(** ** The three cache operations never raise *)

Lemma try_Exception_returns A (m : M A) (h : exn -> M A) w :
  (forall e w', exists a, fst (h e w') = Returns a) ->
  exists a, fst (try_except m Exception h w) = Returns a.
Proof.
  intros Hh; unfold try_except.
  destruct (m w) as [[a | e] w']; simpl; eauto.
Qed.

Lemma get_templates_cache_returns key w :
  exists v, fst (get_templates_cache key w) = Returns v.
Proof. apply try_Exception_returns; intros; simpl; eauto. Qed.


Lemma invalidate_cache_returns key w :
  fst (invalidate_cache key w) = Returns tt.
Proof.
  unfold invalidate_cache, try_except, bind, redis_delete, redis_call.
  destruct (redis_link w 0); reflexivity.
Qed.

(** What [invalidate_cache] does to the world: the link advances; the key is
    gone when the call was served and untouched otherwise. *)
Lemma invalidate_cache_eq key w :
  invalidate_cache key w =
  (Returns tt,
   match redis_link w 0 with
   | Some _ => store_key key None (redis_advance w)
   | None => redis_advance w
   end).
Proof.
  unfold invalidate_cache, try_except, bind, redis_delete, redis_call.
  destruct (redis_link w 0); reflexivity.
Qed.

(** ** C9: an update without fields is a read *)

Lemma update_template_nothing template_id w :
  table (snd (update_template template_id Sample.nothing w)) = table w
  /\ redis_db (snd (update_template template_id Sample.nothing w)) = redis_db w
  /\ redis_link (snd (update_template template_id Sample.nothing w)) = redis_link w
  /\ clock (snd (update_template template_id Sample.nothing w)) = clock w
  /\ fst (update_template template_id Sample.nothing w)
     = (if db_link w 0 then Raises DBAPIError
        else Returns (option_map model_validate_item (find_row template_id (table w)))).
Proof.
  unfold update_template, get_template_by_id, get_by_id, session_get; simpl.
  unfold bind; rewrite db_roundtrip_eq.
  destruct (db_link w 0); simpl; repeat split; reflexivity.
Qed.


(** ** Rows and primary keys *)

Lemma find_row_id i rows r : find_row i rows = Some r -> TemplateItem.id r = i.
Proof.
  unfold find_row; intros H; apply find_some in H; destruct H as [_ H].
  now apply N.eqb_eq in H.
Qed.

Lemma find_row_fresh i rows e :
  has_row i rows = false -> TemplateItem.id e = i -> find_row i (rows ++ [e]) = Some e.
Proof.
  unfold has_row, find_row; intros H He; induction rows as [ | r rows IH ]; simpl in *.
  - rewrite He, N.eqb_refl; reflexivity.
  - apply orb_false_iff in H; destruct H as [H1 H2]; rewrite H1; auto.
Qed.

Lemma find_row_replaced i new rows old :
  find_row i rows = Some old -> TemplateItem.id new = i ->
  find_row i (replace_row i new rows) = Some new.
Proof.
  unfold find_row; intros H Hn; induction rows as [ | r rows IH ]; simpl in *;
    [ discriminate | ].
  destruct (TemplateItem.id r =? i)%N eqn:E; simpl.
  - rewrite Hn, N.eqb_refl; reflexivity.
  - rewrite E; auto.
Qed.

Lemma find_row_other i j new rows :
  TemplateItem.id new = i -> j <> i ->
  find_row j (replace_row i new rows) = find_row j rows.
Proof.
  unfold find_row; intros Hn Hj; induction rows as [ | r rows IH ]; simpl; auto.
  destruct (TemplateItem.id r =? i)%N eqn:E; simpl.
  - apply N.eqb_eq in E.
    assert ((TemplateItem.id new =? j)%N = false) as -> by (apply N.eqb_neq; congruence).
    assert ((TemplateItem.id r =? j)%N = false) as -> by (apply N.eqb_neq; congruence).
    reflexivity.
  - destruct (TemplateItem.id r =? j)%N; auto.
Qed.

Arguments find_row : simpl never.
Arguments has_row : simpl never.
Arguments replace_row : simpl never.

(** ** C4: pagination of [get_all] and the bound of the route *)

Lemma get_all_eq limit offset w :
  get_all limit offset w =
  if db_link w 0 then (Raises DBAPIError, db_advance w)
  else (Returns (firstn (default 100 limit) (skipn (default 0 offset) (table w))),
        db_advance w).
Proof.
  unfold get_all, bind; rewrite db_roundtrip_eq; destruct (db_link w 0); reflexivity.
Qed.

(** C4, as stated, fails: on a table of 501 rows [get_all(limit=501)] returns
    all 501 of them, and [get_all(limit=0)] returns none rather than one. *)
Lemma get_all_passes_limit_through :
  (exists rows,
      fst (get_all (Some 501) (Some 0) (Sample.stocked 501)) = Returns rows
      /\ length rows = 501)
  /\ fst (get_all (Some 0) (Some 0) (Sample.stocked 501)) = Returns [].
Proof.
  split; [ eexists; split; [ reflexivity | ] | ]; vm_compute; reflexivity.
Qed.

(** C4, amended. [get_all] defaults to limit=100 and offset=0 and applies the
    caller's limit as it is: it returns the first [limit] rows after the
    offset, so never more than [limit].  The range 1..500 is a validation of
    the route GET /test/template, which answers 422 to a limit outside it
    without touching anything, and hands a limit inside it on unchanged. *)
Theorem get_all_limit_and_route_bound :
  (forall w, get_all None None w = get_all (Some 100) (Some 0) w)
  /\ (forall limit offset w,
         db_link w 0 = false ->
         fst (get_all (Some limit) (Some offset) w)
         = Returns (firstn limit (skipn offset (table w))))
  /\ (forall limit offset w rows,
         fst (get_all (Some limit) (Some offset) w) = Returns rows ->
         length rows = Nat.min limit (length (table w) - offset)
         /\ length rows <= limit)
  /\ (forall limit offset use_cache w,
         (limit < 1 \/ 500 < limit)%Z ->
         get_templates (Some limit) offset use_cache w = (UnprocessableEntity, w))
  /\ (forall limit offset use_cache w,
         (1 <= limit <= 500)%Z -> (0 <= offset)%Z ->
         get_templates (Some limit) (Some offset) use_cache w
         = match get_all_templates (default true use_cache)
                                   (Z.to_nat limit) (Z.to_nat offset) w with
           | (Returns result, w') => (OK result, w')
           | (Raises _, w') => (InternalServerError, w')
           end).
Proof.
  repeat split.
  - intros limit offset w H; rewrite get_all_eq, H; reflexivity.
  - rewrite get_all_eq in H; destruct (db_link w 0); simpl in H; [ discriminate | ].
    injection H as <-; rewrite length_firstn, length_skipn; reflexivity.
  - rewrite get_all_eq in H; destruct (db_link w 0); simpl in H; [ discriminate | ].
    injection H as <-; rewrite length_firstn; apply Nat.le_min_l.
  - intros limit offset use_cache w H; unfold get_templates; simpl.
    destruct H as [H | H].
    + apply Z.leb_gt in H; rewrite H; reflexivity.
    + apply Z.leb_gt in H; rewrite H, andb_false_r; reflexivity.
  - intros limit offset use_cache w [H1 H2] H3; unfold get_templates; simpl.
    apply Z.leb_le in H1, H2, H3; rewrite H1, H2, H3; reflexivity.
Qed.

Lemma get_all_limit_and_route_bound_witness :
  get_templates (Some 501%Z) None None Sample.quiet = (UnprocessableEntity, Sample.quiet)
  /\ (exists rows,
         fst (get_all (Some 2) (Some 1) (Sample.stocked 5)) = Returns rows
         /\ length rows = 2).
Proof.
  split.
  - apply (proj1 (proj2 (proj2 (proj2 get_all_limit_and_route_bound)))); lia.
  - eexists; split; [ reflexivity | ].
    apply (proj1 (proj2 (proj2 get_all_limit_and_route_bound)) 2 1 (Sample.stocked 5)).
    reflexivity.
Defined.

(** ** C5: what [create_template] returns *)

Lemma create_template_eq request w :
  let entity :=
    {| TemplateItem.id := entropy w 0;
       TemplateItem.title := TemplateCreateRequest.title request;
       TemplateItem.body := TemplateCreateRequest.body request;
       TemplateItem.status := TemplateCreateRequest.status request;
       TemplateItem.created_at := clock w 0;
       TemplateItem.updated_at := clock w 1 |} in
  let inserted := with_table (table w ++ [entity]) (db_advance (after_init w)) in
  create_template request w =
  if db_link w 0 then (Raises DBAPIError, db_advance (after_init w))
  else if has_row (entropy w 0) (table w)
       then (Raises IntegrityError, db_advance (after_init w))
  else if db_link w 1 then (Raises DBAPIError, db_advance inserted)
  else
    (Returns {| TemplateCreateResponse.message := txt "Template created successfully";
                TemplateCreateResponse.template := model_validate_item entity |},
     snd (invalidate_cache listing_key (db_advance inserted))).
Proof.
  intros entity inserted.
  unfold create_template, new_TemplateItem, create, commit_insert, refresh, uuid4, utcnow.
  unfold bind at 1 2 3 4 5 6; simpl.
  unfold bind at 1 2; rewrite db_roundtrip_eq; simpl.
  destruct (db_link w 0) eqn:D0; simpl; [ reflexivity | ].
  fold entity.
  destruct (has_row (entropy w 0) (table w)) eqn:Hfresh; simpl; [ reflexivity | ].
  unfold bind at 1; rewrite db_roundtrip_eq; simpl; unfold shift at 1.
  destruct (db_link w 1) eqn:D1; simpl; [ reflexivity | ].
  change (shift (clock w) 0) with (clock w 1); fold entity.
  rewrite (find_row_fresh _ _ entity Hfresh eq_refl).
  unfold bind, ret.
  match goal with
  | |- context [ invalidate_cache ?k ?W ] =>
    pose proof (invalidate_cache_returns k W) as R;
      destruct (invalidate_cache k W) as [o w4] eqn:E0
  end.
  simpl in R; subst o; unfold inserted, after_init, listing_key; rewrite E0; reflexivity.
Qed.

(** C5, as stated, fails: with a clock that advances between two readings
    the record that [create_template] returns has created_at <> updated_at. *)
Lemma create_template_timestamps_differ :
  exists response w',
    create_template Sample.create_X Sample.quiet = (Returns response, w')
    /\ TemplateResponse.created_at (TemplateCreateResponse.template response)
       <> TemplateResponse.updated_at (TemplateCreateResponse.template response).
Proof. do 2 eexists; split; [ reflexivity | discriminate ]. Qed.

(** C5, amended. The record returned by [create_template] has the title,
    body and status of the input and the id that uuid4() produced, which no
    existing row has (a colliding id makes the INSERT, and so the call, fail);
    created_at and updated_at are two successive readings of utcnow(), one per
    field, hence equal exactly when the clock gave the same reading twice.
    The call returns whenever both database round trips succeed and the id is
    new. *)
Theorem create_template_result :
  (forall request w response w',
      create_template request w = (Returns response, w') ->
      let t := TemplateCreateResponse.template response in
      TemplateResponse.title t = TemplateCreateRequest.title request
      /\ TemplateResponse.body t = TemplateCreateRequest.body request
      /\ TemplateResponse.status t = TemplateCreateRequest.status request
      /\ TemplateResponse.id t = entropy w 0
      /\ has_row (TemplateResponse.id t) (table w) = false
      /\ TemplateResponse.created_at t = clock w 0
      /\ TemplateResponse.updated_at t = clock w 1
      /\ (TemplateResponse.created_at t = TemplateResponse.updated_at t
          <-> clock w 0 = clock w 1)
      /\ option_map model_validate_item (find_row (TemplateResponse.id t) (table w'))
         = Some t)
  /\ (forall request w,
         db_link w 0 = false -> db_link w 1 = false ->
         has_row (entropy w 0) (table w) = false ->
         exists response w', create_template request w = (Returns response, w')).
Proof.
  split.
  - intros request w response w' H.
    rewrite create_template_eq in H.
    destruct (db_link w 0); [ discriminate | ].
    destruct (has_row (entropy w 0) (table w)) eqn:Hfresh; [ discriminate | ].
    destruct (db_link w 1); [ discriminate | ].
    rewrite invalidate_cache_eq in H; injection H as <- <-; simpl.
    repeat split; auto.
    match goal with
    | |- context [ table (match ?c with Some _ => ?a | None => ?b end) ] =>
      replace (table (match c with Some _ => a | None => b end))
        with (table w ++ [{|
           TemplateItem.id := entropy w 0;
           TemplateItem.title := TemplateCreateRequest.title request;
           TemplateItem.body := TemplateCreateRequest.body request;
           TemplateItem.status := TemplateCreateRequest.status request;
           TemplateItem.created_at := clock w 0;
           TemplateItem.updated_at := clock w 1 |}]) by (destruct c; reflexivity)
    end.
    erewrite find_row_fresh; eauto.
  - intros request w D0 D1 Hfresh.
    rewrite create_template_eq, D0, Hfresh, D1; eauto.
Qed.

Lemma create_template_result_witness :
  exists response w',
    create_template Sample.create_X (Sample.frozen_clock Sample.quiet)
    = (Returns response, w')
    /\ TemplateResponse.title (TemplateCreateResponse.template response) = txt "X"
    /\ TemplateResponse.created_at (TemplateCreateResponse.template response)
       = TemplateResponse.updated_at (TemplateCreateResponse.template response).
Proof.
  do 2 eexists; split; [ reflexivity | ].
  pose proof (proj1 create_template_result Sample.create_X
                    (Sample.frozen_clock Sample.quiet) _ _ eq_refl) as H.
  split; [ apply H | apply H; reflexivity ].
Defined.

(** ** C6: what an update with fields writes *)

Lemma apply_update_patched request now old :
  apply_update (dict_set (txt "updated_at") (PDatetime now)
                         (model_dump_exclude_none request)) old
  = Some (patched request now old).
Proof.
  destruct request as [[t | ] [b | ] [[ | ] | ]]; destruct old; reflexivity.
Qed.

(** The prints of the update loop go through exactly when the title and the
    body that the request sets can be printed. *)
Lemma print_fields_update request now :
  print_fields (dict_set (txt "updated_at") (PDatetime now)
                         (model_dump_exclude_none request))
  = if printable_update request then Returns tt else Raises UnicodeEncodeError.
Proof.
  unfold printable_update.
  destruct request as [[t | ] [b | ] [[ | ] | ]]; cbn -[encodable print];
    unfold print;
    repeat match goal with
           | |- context [ encodable (?c :: ?l) ] =>
             change (encodable (c :: l)) with (encodable l)
           end;
    change (encodable []) with true; cbn -[encodable];
    repeat match goal with
           | |- context [ encodable ?l ] => destruct (encodable l); cbn -[encodable]
           end;
    reflexivity.
Qed.

Lemma update_template_start template_id request w :
  sets_a_field request = true ->
  let w0 := with_clock (shift (clock w)) w in
  update_template template_id request w =
  if db_link w 0 then (Raises DBAPIError, db_advance w0)
  else
    match find_row template_id (table w) with
    | None => (Returns None, db_advance w0)
    | Some old =>
      try_except
        (let* updated_template :=
            try_except
              (let* _ := lift (print_fields
                                 (dict_set (txt "updated_at") (PDatetime (clock w 0))
                                           (model_dump_exclude_none request))) in
               let staged :=
                 apply_update (dict_set (txt "updated_at") (PDatetime (clock w 0))
                                        (model_dump_exclude_none request)) old in
               let* _ := commit_update template_id staged in
               let* existing := refresh (default old staged) in
               ret existing)
              Exception (fun e => raise e) in
         let* _ := invalidate_cache (txt "test:template") in
         ret (Some (model_validate_item updated_template)))
        is_ValueError (fun _ => ret None) (db_advance w0)
    end.
Proof.
  intros Hset w0.
  unfold update_template.
  destruct (model_dump_exclude_none request) as [ | kv dump ] eqn:Hdump.
  { destruct request as [[t | ] [b | ] [s | ]]; discriminate. }
  rewrite <- Hdump; clear Hdump kv dump.
  unfold bind at 1, utcnow; fold w0.
  unfold try_except at 1, bind at 1, update_by_id, try_except at 1, bind at 1,
    session_get, bind at 1.
  rewrite db_roundtrip_eq.
  change (db_link w0 0) with (db_link w 0); change (table (db_advance w0)) with (table w).
  destruct (db_link w 0) eqn:D0; cbn [fst snd Exception raise is_ValueError];
    [ reflexivity | ].
  destruct (find_row template_id (table w)) as [old | ] eqn:Hold; [ | reflexivity ].
  reflexivity.
Qed.

(** An update whose title or body cannot be printed: the print of the loop
    raises, nothing is written, and the service takes the error for "not
    found". *)
Lemma update_template_unprintable template_id request w :
  sets_a_field request = true ->
  printable_update request = false ->
  let w0 := with_clock (shift (clock w)) w in
  update_template template_id request w =
  if db_link w 0 then (Raises DBAPIError, db_advance w0)
  else (Returns None, db_advance w0).
Proof.
  intros Hset Hprint w0.
  rewrite update_template_start by assumption; cbv zeta; fold w0.
  destruct (db_link w 0); [ reflexivity | ].
  destruct (find_row template_id (table w)) as [old | ]; [ | reflexivity ].
  unfold try_except, bind at 1 2, lift.
  rewrite print_fields_update, Hprint; reflexivity.
Qed.

Lemma update_template_eq template_id request w :
  sets_a_field request = true ->
  printable_update request = true ->
  let w0 := with_clock (shift (clock w)) w in
  update_template template_id request w =
  if db_link w 0 then (Raises DBAPIError, db_advance w0)
  else
    match find_row template_id (table w) with
    | None => (Returns None, db_advance w0)
    | Some old =>
      let new := patched request (clock w 0) old in
      let written :=
        with_table (replace_row template_id new (table w)) (db_advance (db_advance w0)) in
      if db_link w 1 then (Raises DBAPIError, db_advance (db_advance w0))
      else if db_link w 2 then (Raises DBAPIError, db_advance written)
      else (Returns (Some (model_validate_item new)),
            snd (invalidate_cache listing_key (db_advance written)))
    end.
Proof.
  intros Hset Hprint w0.
  rewrite update_template_start by assumption; cbv zeta; fold w0.
  destruct (db_link w 0) eqn:D0; [ reflexivity | ].
  destruct (find_row template_id (table w)) as [old | ] eqn:Hold; [ | reflexivity ].
  unfold try_except at 1 2, bind at 1 2, lift.
  rewrite print_fields_update, Hprint, apply_update_patched.
  unfold bind at 1, commit_update, bind at 1; rewrite db_roundtrip_eq.
  change (db_link (db_advance w0) 0) with (db_link w 1).
  destruct (db_link w 1) eqn:D1; simpl; [ reflexivity | ].
  rewrite (find_row_id _ _ _ Hold), N.eqb_refl; simpl.
  unfold bind at 1, refresh, bind at 1; rewrite db_roundtrip_eq; simpl.
  change (shift (shift (db_link w)) 0) with (db_link w 2).
  destruct (db_link w 2) eqn:D2; simpl; [ reflexivity | ].
  rewrite (find_row_id _ _ _ Hold).
  rewrite (find_row_replaced _ (patched request (clock w 0) old) _ _ Hold)
    by (simpl; eapply find_row_id; eauto).
  unfold ret, bind.
  match goal with
  | |- context [ invalidate_cache ?k ?W ] =>
    pose proof (invalidate_cache_returns k W) as R;
      destruct (invalidate_cache k W) as [o w4] eqn:E0
  end.
  simpl in R; subst o; unfold listing_key; rewrite E0; reflexivity.
Qed.

Lemma table_after_invalidate key w : table (snd (invalidate_cache key w)) = table w.
Proof. rewrite invalidate_cache_eq; simpl; destruct (redis_link w 0); reflexivity. Qed.

(** C6, as stated, fails.  With no field set (the empty subset) nothing is
    written, so updated_at keeps its value; and with a field set updated_at
    becomes the reading of a wall clock, which is not later than the stored
    value when the clock has not moved. *)
Lemma update_template_may_keep_updated_at :
  (exists response w',
      update_template 0%N Sample.nothing (Sample.stocked 1) = (Returns (Some response), w')
      /\ find_row 0%N (table w') = find_row 0%N (table (Sample.stocked 1)))
  /\ (exists response old new w',
         update_template 0%N Sample.publish (Sample.frozen_clock (Sample.stocked 1))
         = (Returns (Some response), w')
         /\ find_row 0%N (table (Sample.stocked 1)) = Some old
         /\ find_row 0%N (table w') = Some new
         /\ datetime_ltb (TemplateItem.updated_at old) (TemplateItem.updated_at new) = false).
Proof.
  split.
  - do 2 eexists; split; reflexivity.
  - do 4 eexists; split; [ lazy; reflexivity | ].
    split; [ reflexivity | split; reflexivity ].
Qed.

(** C6, amended.  When at least one of title, body, status is set and
    [update_template] returns a record, the stored record of that id takes
    the input's value in every field that is set and keeps its previous value
    in every field that is absent, as do its id and created_at and every other
    row; its updated_at becomes the utcnow() reading of the call, which is
    strictly later than the previous value whenever that reading is.  The call
    returns the record whenever the id exists, the title and the body that
    the input sets can be printed, and the three database round trips
    succeed. *)
Theorem update_template_partial :
  (forall template_id request w response w',
      sets_a_field request = true ->
      update_template template_id request w = (Returns (Some response), w') ->
      exists old new,
        find_row template_id (table w) = Some old
        /\ find_row template_id (table w') = Some new
        /\ response = model_validate_item new
        /\ TemplateItem.title new
           = default (TemplateItem.title old) (TemplateUpdateRequest.title request)
        /\ TemplateItem.body new
           = match TemplateUpdateRequest.body request with
             | Some b => Some b
             | None => TemplateItem.body old
             end
        /\ TemplateItem.status new
           = default (TemplateItem.status old) (TemplateUpdateRequest.status request)
        /\ TemplateItem.id new = TemplateItem.id old
        /\ TemplateItem.created_at new = TemplateItem.created_at old
        /\ TemplateItem.updated_at new = clock w 0
        /\ (datetime_ltb (TemplateItem.updated_at old) (clock w 0) = true ->
            datetime_ltb (TemplateItem.updated_at old) (TemplateItem.updated_at new) = true)
        /\ (forall other, other <> template_id ->
                          find_row other (table w') = find_row other (table w)))
  /\ (forall template_id request w old,
         sets_a_field request = true ->
         printable_update request = true ->
         find_row template_id (table w) = Some old ->
         db_link w 0 = false -> db_link w 1 = false -> db_link w 2 = false ->
         exists w',
           update_template template_id request w
           = (Returns (Some (model_validate_item (patched request (clock w 0) old))), w')).
Proof.
  split.
  - intros template_id request w response w' Hset H.
    destruct (printable_update request) eqn:Hprint.
    2: { rewrite update_template_unprintable in H by assumption; cbv zeta in H.
         destruct (db_link w 0); discriminate. }
    rewrite update_template_eq in H by assumption; cbv zeta in H.
    destruct (db_link w 0); [ discriminate | ].
    destruct (find_row template_id (table w)) as [old | ] eqn:Hold; [ | discriminate ].
    destruct (db_link w 1); [ discriminate | ].
    destruct (db_link w 2); [ discriminate | ].
    injection H as <- <-.
    exists old, (patched request (clock w 0) old).
    rewrite table_after_invalidate; simpl.
    pose proof (find_row_id _ _ _ Hold) as Hid.
    repeat split; auto.
    + apply find_row_replaced with (old := old); auto.
    + intros other Hother; apply find_row_other; auto.
  - intros template_id request w old Hset Hprint Hold D0 D1 D2.
    rewrite update_template_eq by assumption.
    rewrite D0, Hold; cbv zeta; rewrite D1, D2; eauto.
Qed.

Lemma update_template_partial_witness :
  exists w',
    update_template 0%N Sample.publish (Sample.stocked 1)
    = (Returns (Some (model_validate_item
                        (patched Sample.publish (Sample.instant 0) (Sample.row 0)))), w').
Proof.
  apply (proj2 update_template_partial 0%N Sample.publish (Sample.stocked 1) (Sample.row 0));
    reflexivity.
Defined.

(** ** The cache operations and the listing read, as equations *)

Lemma json_loads_raises cached e :
  json_loads cached = Raises e -> e = JSONDecodeError \/ e = ValueError.
Proof.
  unfold json_loads; destruct (starts_with _ cached); [ left; congruence | ].
  destruct (scan_once _ _) as [v rest | | | ];
    try (left; congruence); try (right; congruence).
  destruct (skip_ws rest); [ discriminate | left; congruence ].
Qed.

Lemma get_templates_cache_eq key w :
  get_templates_cache key w =
  (Returns match redis_link w 0 with
           | Some now => cache_view key now w
           | None => PNone
           end,
   redis_advance w).
Proof.
  unfold get_templates_cache, try_except at 1, bind at 1, redis_get, redis_call.
  destruct (redis_link w 0) as [now | ]; [ | reflexivity ].
  unfold cache_view; change (redis_db (redis_advance w) key) with (redis_db w key).
  destruct (live now (redis_db w key)) as [[ | c cached] | ]; try reflexivity.
  unfold try_except, lift, bind, decode_cached.
  destruct (json_loads (c :: cached)) as [v | e] eqn:J; [ reflexivity | ].
  destruct (json_loads_raises _ _ J) as [-> | ->]; simpl; [ | reflexivity ].
  destruct (legacy_items _); reflexivity.
Qed.

Lemma set_templates_cache_eq key templates ttl w :
  set_templates_cache key templates ttl w =
  (Returns tt,
   match redis_link w 0 with
   | Some now =>
     store_key key (Some (json_dumps (PList templates), now + 1000 * default 30 ttl)%Z)
               (redis_advance w)
   | None => redis_advance w
   end).
Proof.
  unfold set_templates_cache, try_except, bind, redis_set, redis_call.
  destruct (redis_link w 0); reflexivity.
Qed.

Lemma get_all_templates_uncached limit offset w :
  get_all_templates false limit offset w =
  if db_link w 0 then (Raises DBAPIError, db_advance w)
  else (Returns (list_response "db" (page limit offset w) limit offset), db_advance w).
Proof.
  unfold get_all_templates, bind at 1, ret at 1, bind at 1.
  rewrite get_all_eq; destruct (db_link w 0); reflexivity.
Qed.

Lemma get_all_templates_cached limit offset w :
  get_all_templates true limit offset w =
  let v := match redis_link w 0 with
           | Some now => cache_view listing_key now w
           | None => PNone
           end in
  if truthy v then
    match (try! items <- py_iter v; comprehension model_validate items) with
    | Returns templates =>
      (Returns (list_response "redis" templates limit offset), redis_advance w)
    | Raises e => (Raises e, redis_advance w)
    end
  else if db_link w 0 then (Raises DBAPIError, db_advance (redis_advance w))
  else (Returns (list_response "db" (page limit offset w) limit offset),
        snd (set_templates_cache listing_key (map model_dump (page limit offset w)) None
                                 (db_advance (redis_advance w)))).
Proof.
  cbv zeta.
  unfold get_all_templates, bind at 1, bind at 1.
  fold listing_key; rewrite get_templates_cache_eq.
  destruct (truthy _) eqn:T.
  - unfold bind, lift, ret.
    destruct (try! items <- py_iter _; comprehension model_validate items); reflexivity.
  - unfold ret at 1, bind at 1; rewrite get_all_eq.
    change (db_link (redis_advance w) 0) with (db_link w 0).
    destruct (db_link w 0); [ reflexivity | ].
    unfold bind, ret.
    change (table (redis_advance w)) with (table w); simpl default; fold (page limit offset w).
    rewrite set_templates_cache_eq; reflexivity.
Qed.

Lemma rowcount_positive (f : TemplateItem.t -> bool) rows :
  (0 <? length (filter f rows)) = existsb f rows.
Proof.
  induction rows as [ | r rows IH ]; simpl; auto.
  destruct (f r); simpl; auto.
Qed.

Lemma delete_template_eq template_id w :
  let removed :=
    with_table (filter (fun r => negb (TemplateItem.id r =? template_id)%N) (table w))
               (db_advance (db_advance w)) in
  delete_template template_id w =
  if db_link w 0 then (Raises DBAPIError, db_advance w)
  else if db_link w 1 then (Raises DBAPIError, db_advance (db_advance w))
  else if has_row template_id (table w)
       then (Returns true, snd (invalidate_cache listing_key removed))
       else (Returns false, removed).
Proof.
  intros removed.
  unfold delete_template, bind at 1, delete_by_id, bind at 1; rewrite db_roundtrip_eq.
  destruct (db_link w 0) eqn:D0; simpl; [ reflexivity | ].
  unfold bind at 1 2; rewrite db_roundtrip_eq; simpl.
  change (shift (db_link w) 0) with (db_link w 1).
  destruct (db_link w 1) eqn:D1; simpl; [ reflexivity | ].
  unfold bind at 1; simpl; unfold ret at 1.
  rewrite rowcount_positive; fold (has_row template_id (table w)).
  destruct (has_row template_id (table w)); unfold bind, ret; [ | reflexivity ].
  match goal with
  | |- context [ invalidate_cache ?k ?W ] =>
    pose proof (invalidate_cache_returns k W) as R;
      destruct (invalidate_cache k W) as [o w4] eqn:E0
  end.
  simpl in R; subst o; unfold removed, listing_key; rewrite E0; reflexivity.
Qed.

(** ** C2: failures of the cache stay inside the cache operations *)





Lemma table_after_set key templates ttl w :
  table (snd (set_templates_cache key templates ttl w)) = table w.
Proof. rewrite set_templates_cache_eq; simpl; destruct (redis_link w 0); reflexivity. Qed.




(** ** C3: a listing served from the cache *)




(** ** C8: an empty cached list is a miss *)

Lemma page_of_empty_table limit offset w : table w = [] -> page limit offset w = [].
Proof. unfold page; intros ->; rewrite skipn_nil, firstn_nil; reflexivity. Qed.

Lemma reads_as_miss_view w now :
  reads_as_miss w -> truthy (cache_view listing_key now w) = false.
Proof.
  unfold cache_view; intros [-> | (cached & expiry & -> & H)]; simpl; [ reflexivity | ].
  destruct (now <? expiry)%Z; [ | reflexivity ].
  destruct cached; [ reflexivity | assumption ].
Qed.

Lemma read_of_empty_table limit offset w :
  table w = [] -> reads_as_miss w ->
  (fst (get_all_templates true limit offset w) = Raises DBAPIError
   \/ fst (get_all_templates true limit offset w)
      = Returns (list_response "db" [] limit offset))
  /\ table (snd (get_all_templates true limit offset w)) = []
  /\ reads_as_miss (snd (get_all_templates true limit offset w)).
Proof.
  intros Htable Hmiss.
  rewrite get_all_templates_cached; cbv zeta.
  assert (truthy match redis_link w 0 with
                 | Some now => cache_view listing_key now w
                 | None => PNone
                 end = false) as ->
      by (destruct (redis_link w 0); [ apply reads_as_miss_view; assumption | reflexivity ]).
  destruct (db_link w 0); simpl.
  - split; [ left; reflexivity | split; assumption ].
  - rewrite page_of_empty_table by assumption.
    split; [ right; reflexivity | ].
    rewrite table_after_set; split; [ assumption | ].
    rewrite set_templates_cache_eq; simpl.
    destruct (shift (redis_link w) 0); [ | exact Hmiss ].
    right; do 2 eexists; split; reflexivity.
Qed.

(** C8, as stated, fails: a listing over an empty table is served with source
    "redis" when the key still holds a page.  Here the one row is deleted,
    the redis delete of the invalidation fails and is absorbed, and the next
    read returns the cached page of one template over the empty table. *)
Lemma stale_page_over_empty_table :
  exists w1 listing w2,
    delete_template 0%N
      (Sample.redis_hiccup
         (Sample.caching (json_dumps (PList (map model_dump (page 100 0 (Sample.stocked 1)))))
                         (Sample.stocked 1)))
    = (Returns true, w1)
    /\ table w1 = []
    /\ get_all_templates true 100 0 w1 = (Returns listing, w2)
    /\ TemplateListResponse.source listing = txt "redis"
    /\ length (TemplateListResponse.templates listing) = 1.
Proof.
  do 3 eexists; split; [ reflexivity | ].
  split; [ reflexivity | ].
  split; [ vm_compute; reflexivity | split; reflexivity ].
Qed.

(** C8, amended.  A cache-enabled listing read that finds an empty list under the key
    goes to the table: when the database answers, it returns the requested
    page with source "db" and, when redis takes the write, stores that page
    under the key for 30 seconds.  Hence over an empty table, starting with
    no entry (or one that reads as empty), every one of any number of
    cache-enabled reads is answered with source "db" and no templates, unless
    the database itself fails. *)
Theorem empty_cached_list_is_a_miss :
  (forall limit offset w now cached expiry,
      redis_link w 0 = Some now ->
      redis_db w listing_key = Some (cached, expiry) -> (now < expiry)%Z ->
      json_loads cached = Returns (PList []) ->
      db_link w 0 = false ->
      exists response w',
        get_all_templates true limit offset w = (Returns response, w')
        /\ TemplateListResponse.source response = txt "db"
        /\ TemplateListResponse.templates response = page limit offset w
        /\ table w' = table w
        /\ (forall t, redis_link w 1 = Some t ->
                      redis_db w' listing_key
                      = Some (json_dumps (PList (map model_dump (page limit offset w))),
                              t + 30000)%Z))
  /\ (forall reads w,
         table w = [] -> reads_as_miss w ->
         Forall (fun r => r = Raises DBAPIError
                          \/ exists limit offset, r = Returns (list_response "db" [] limit offset))
                (fst (run_reads reads w))).
Proof.
  split.
  - intros limit offset w now cached expiry Hlink Hdb Hlive Hjson D0.
    rewrite get_all_templates_cached; cbv zeta; rewrite Hlink.
    unfold cache_view; rewrite Hdb; simpl.
    apply Z.ltb_lt in Hlive; rewrite Hlive.
    destruct cached as [ | c cached ]; [ discriminate | ].
    unfold decode_cached; rewrite Hjson; simpl; rewrite D0.
    do 2 eexists; split; [ reflexivity | ].
    rewrite table_after_set; repeat split.
    intros t Ht; rewrite set_templates_cache_eq; simpl.
    change (shift (redis_link w) 0) with (redis_link w 1); rewrite Ht; reflexivity.
  - induction reads as [ | [limit offset] reads IH ]; intros w Htable Hmiss; simpl.
    + constructor.
    + destruct (read_of_empty_table limit offset w Htable Hmiss) as (Hr & Ht & Hm).
      destruct (get_all_templates true limit offset w) as [r w1]; simpl in *.
      specialize (IH w1 Ht Hm).
      destruct (run_reads reads w1) as [rs w2]; simpl in *.
      constructor; [ | assumption ].
      destruct Hr as [-> | ->]; [ left; reflexivity | right; eauto ].
Qed.

Lemma empty_cached_list_is_a_miss_witness :
  Forall (fun r => r = Raises DBAPIError
                   \/ exists limit offset, r = Returns (list_response "db" [] limit offset))
         (fst (run_reads [(100, 0); (10, 5); (1, 0)] Sample.quiet)).
Proof.
  apply (proj2 empty_cached_list_is_a_miss); [ reflexivity | left; reflexivity ].
Defined.

(** ** C10: entries of the old format *)

Lemma split_from_not_nil sep s : forall budget skip cur,
  split_from sep budget skip cur s <> [].
Proof.
  induction s as [ | c r IH ]; intros budget skip cur; simpl; [ discriminate | ].
  destruct skip; [ | apply IH ].
  destruct (_ && _); [ discriminate | apply IH ].
Qed.

Lemma split_from_length sep s : forall budget skip cur,
  length (split_from sep (Some budget) skip cur s) <= S budget.
Proof.
  induction s as [ | c r IH ]; intros budget skip cur; cbn [split_from length];
    [ lia | ].
  destruct skip; [ | apply IH ].
  destruct budget as [ | budget ]; cbn [andb]; [ apply IH | ].
  destruct (starts_with sep (c :: r)); cbn [andb length option_map Nat.pred];
    [ | apply IH ].
  specialize (IH budget (Nat.pred (length sep)) []); lia.
Qed.

Lemma legacy_item_ok s :
  match legacy_item s with
  | Returns item => legacy_segment_ok s = true /\ old_format_item s item
  | Raises _ => legacy_segment_ok s = false
  end.
Proof.
  unfold legacy_item, legacy_segment_ok, old_format_item.
  pose proof (split_from_length (txt "::") s 3 0 []) as Hlen.
  pose proof (split_from_not_nil (txt "::") s (Some 3) 0 []) as Hne.
  fold (py_split_max (txt "::") 3 s) in Hne, Hlen.
  destruct (py_split_max (txt "::") 3 s) as [ | p0 ps ]; [ congruence | ].
  cbn [py_index nth_error obind hd].
  destruct (py_int p0) as [z | e] eqn:Hint; cbn [obind]; [ | reflexivity ].
  destruct ps as [ | p1 [ | p2 [ | p3 ps ]]]; try reflexivity.
  destruct ps as [ | p4 ps ]; [ | cbn [length] in Hlen; lia ].
  split; [ reflexivity | ].
  exists p0, p1, p2, p3, z; repeat split; assumption.
Qed.

Lemma legacy_items_ok segments :
  match legacy_items segments with
  | Returns items =>
    forallb legacy_segment_ok (filter nonempty_text segments) = true
    /\ Forall2 old_format_item (filter nonempty_text segments) items
  | Raises _ => forallb legacy_segment_ok (filter nonempty_text segments) = false
  end.
Proof.
  induction segments as [ | s segments IH ]; cbn [legacy_items filter];
    [ split; [ reflexivity | constructor ] | ].
  destruct s as [ | c s ]; [ exact IH | ].
  cbn [nonempty_text forallb].
  pose proof (legacy_item_ok (c :: s)) as H.
  destruct (legacy_item (c :: s)) as [item | e]; cbn [obind];
    [ destruct H as [H Hitem]; rewrite H | rewrite H; reflexivity ].
  destruct (legacy_items segments) as [items | e]; cbn [obind andb];
    [ | assumption ].
  destruct IH as [IH1 IH2]; split; [ assumption | constructor; assumption ].
Qed.

(** A segment whose id is a UUID string never decodes. *)

Lemma below_16 d : (d < 16)%N -> In d (map N.of_nat (seq 0 16)).
Proof.
  intros H; rewrite <- (N2Nat.id d); apply in_map, in_seq; lia.
Qed.

Lemma hex_char_plain d :
  (d < 16)%N ->
  (hex_char d <? 127)%N = true
  /\ is_ascii_space (hex_char d) = false
  /\ (hex_char d =? 43)%N = false
  /\ (hex_char d =? 45)%N = false.
Proof.
  intros H; apply below_16 in H; simpl in H.
  repeat (destruct H as [<- | H]; [ repeat split | ]); destruct H.
Qed.

Lemma to_ascii_hex d r :
  (d < 16)%N -> to_ascii (hex_char d :: r) = hex_char d :: to_ascii r.
Proof.
  intros H; apply hex_char_plain in H; cbn [to_ascii].
  destruct H as [-> _]; reflexivity.
Qed.

Lemma to_ascii_dash r : to_ascii (45%N :: r) = 45%N :: to_ascii r.
Proof. reflexivity. Qed.

Lemma not_all_space_dash pre post :
  forallb is_ascii_space (pre ++ 45%N :: post) = false.
Proof.
  induction pre as [ | c pre IH ]; cbn [app forallb]; [ reflexivity | ].
  rewrite IH; apply andb_false_r.
Qed.

(** A dash ends no literal of int(): what follows the digits is white space
    only. *)
Lemma int_digits_dash pre : forall acc need count post,
  int_digits acc need count (pre ++ 45%N :: post) = None.
Proof.
  induction pre as [ | c pre IH ]; intros acc need count post;
    cbn [app int_digits].
  - change (dec_val 45) with (@None N); change (45 =? 95)%N with false; cbv iota.
    destruct need; [ reflexivity | ].
    pose proof (not_all_space_dash [] post) as H; cbn [app] in H.
    rewrite H; reflexivity.
  - destruct (dec_val c); [ apply IH | ].
    destruct (c =? 95)%N; [ destruct need; [ reflexivity | apply IH ] | ].
    destruct need; [ reflexivity | ].
    pose proof (not_all_space_dash (c :: pre) post) as H; cbn [app] in H.
    rewrite H; reflexivity.
Qed.

Lemma lstrip_plain c s : is_ascii_space c = false -> lstrip (c :: s) = c :: s.
Proof. cbn [lstrip]; intros ->; reflexivity. Qed.

Lemma py_int_uuid u : py_int (uuid_str u) = Raises ValueError.
Proof.
  unfold py_int, uuid_str, hex_fixed.
  cbn [digits_be app map firstn skipn rev].
  repeat first [ rewrite to_ascii_hex by (apply N.mod_lt; discriminate)
               | rewrite to_ascii_dash ].
  cbv zeta.
  match goal with
  | |- context [ lstrip (hex_char ?d :: ?r) ] =>
    let H := fresh "H" in
    assert (d < 16)%N as H by (apply N.mod_lt; discriminate);
      apply hex_char_plain in H; destruct H as (_ & Hs & Hp & Hm);
      rewrite (lstrip_plain _ r Hs), Hp, Hm
  end.
  match goal with
  | |- context [ int_digits ?z ?n ?k ?l ] =>
    lazymatch l with
    | ?a :: ?b :: ?c :: ?d :: ?e :: ?f :: ?g :: ?h :: _ :: ?r =>
      let H := fresh "H" in
      assert (int_digits z n k l = None) as H
          by exact (int_digits_dash [a; b; c; d; e; f; g; h] z n k r);
        rewrite H
    end
  end.
  reflexivity.
Qed.

Lemma uuid_segment_not_ok u seg :
  hd [] (py_split_max (txt "::") 3 seg) = uuid_str u -> legacy_segment_ok seg = false.
Proof. unfold legacy_segment_ok; intros ->; rewrite py_int_uuid; reflexivity. Qed.

(** C10.  [get_templates_cache] never raises.  For a live cached text that
    json.loads refuses, it returns the items decoded from the old format,
    one per non-empty "||" segment and in their order, each the dict of the
    segment's four "::" fields with the first read by int(), when every such
    segment has a first "::" field that int() accepts and four fields; when
    some non-empty segment lacks either it returns None, and so it does
    whenever a segment's first field is the string of a UUID. *)
Theorem legacy_entries_decode_or_miss :
  (forall key w, exists v, fst (get_templates_cache key w) = Returns v)
  /\ (forall key w now cached expiry,
         redis_link w 0 = Some now ->
         redis_db w key = Some (cached, expiry) -> (now < expiry)%Z ->
         json_loads cached = Raises JSONDecodeError ->
         let segments := filter nonempty_text (py_split (txt "||") cached) in
         (forallb legacy_segment_ok segments = true -> cached <> [] ->
          exists items,
            fst (get_templates_cache key w) = Returns (PList items)
            /\ length items = length segments
            /\ Forall2 old_format_item segments items)
         /\ (forallb legacy_segment_ok segments = false ->
             fst (get_templates_cache key w) = Returns PNone)
         /\ (cached = [] -> fst (get_templates_cache key w) = Returns PNone)
         /\ (forall u seg,
                In seg segments ->
                hd [] (py_split_max (txt "::") 3 seg) = uuid_str u ->
                fst (get_templates_cache key w) = Returns PNone)).
Proof.
  split; [ exact get_templates_cache_returns | ].
  intros key w now cached expiry Hlink Hdb Hlive Hjson segments.
  rewrite get_templates_cache_eq, Hlink; unfold cache_view; rewrite Hdb; simpl.
  apply Z.ltb_lt in Hlive; rewrite Hlive.
  assert (forallb legacy_segment_ok segments = false ->
          match cached with
          | [] => PNone
          | _ :: _ => decode_cached cached
          end = PNone) as Hbad.
  { intros Hall; destruct cached as [ | c cached ]; [ reflexivity | ].
    unfold decode_cached; rewrite Hjson.
    pose proof (legacy_items_ok (py_split (txt "||") (c :: cached))) as H.
    fold segments in H.
    destruct (legacy_items _); [ destruct H; congruence | reflexivity ]. }
  repeat split.
  - intros Hall Hne; destruct cached as [ | c cached ]; [ congruence | ].
    unfold decode_cached; rewrite Hjson.
    pose proof (legacy_items_ok (py_split (txt "||") (c :: cached))) as H.
    fold segments in H.
    destruct (legacy_items _) as [items | e]; [ | congruence ].
    exists items; split; [ reflexivity | ].
    split; [ symmetry; eapply Forall2_length | ]; apply H.
  - intros Hall; rewrite (Hbad Hall); reflexivity.
  - intros ->; reflexivity.
  - intros u seg Hin Hid; rewrite Hbad; [ reflexivity | ].
    destruct (forallb legacy_segment_ok segments) eqn:Hall; [ | reflexivity ].
    rewrite forallb_forall in Hall; rewrite <- (Hall seg Hin).
    eapply uuid_segment_not_ok; eassumption.
Qed.

Lemma legacy_entries_decode_or_miss_witness :
  fst (get_templates_cache listing_key
         (Sample.caching
            (uuid_str 7%N ++ txt "::Title::DRAFT::2023-01-02 03:04:05") Sample.quiet))
  = Returns PNone
  /\ fst (get_templates_cache listing_key
            (Sample.caching (txt "7::Title::DRAFT::2023-01-02||+8_0::::::") Sample.quiet))
     = Returns (PList [PDict [(txt "id", PInt 7); (txt "title", PStr (txt "Title"));
                              (txt "status", PStr (txt "DRAFT"));
                              (txt "created_at", PStr (txt "2023-01-02"))];
                       PDict [(txt "id", PInt 80); (txt "title", PStr []);
                              (txt "status", PStr []);
                              (txt "created_at", PStr [])]]).
Proof.
  split.
  - refine (proj2 (proj2 (proj2
              (proj2 legacy_entries_decode_or_miss listing_key
                     (Sample.caching
                        (uuid_str 7%N ++ txt "::Title::DRAFT::2023-01-02 03:04:05")
                        Sample.quiet)
                     0%Z (uuid_str 7%N ++ txt "::Title::DRAFT::2023-01-02 03:04:05")
                     30000%Z eq_refl eq_refl eq_refl _)))
              7%N (uuid_str 7%N ++ txt "::Title::DRAFT::2023-01-02 03:04:05") _ _).
    + vm_compute; reflexivity.
    + vm_compute; left; reflexivity.
    + vm_compute; reflexivity.
  - destruct (proj1 (proj2 legacy_entries_decode_or_miss listing_key
                       (Sample.caching (txt "7::Title::DRAFT::2023-01-02||+8_0::::::")
                                       Sample.quiet)
                       0%Z (txt "7::Title::DRAFT::2023-01-02||+8_0::::::") 30000%Z
                       eq_refl eq_refl eq_refl ltac:(vm_compute; reflexivity))
                ltac:(vm_compute; reflexivity) ltac:(discriminate))
      as (items & -> & _ & Hitems).
    assert (filter nonempty_text
                   (py_split (txt "||") (txt "7::Title::DRAFT::2023-01-02||+8_0::::::"))
            = [txt "7::Title::DRAFT::2023-01-02"; txt "+8_0::::::"]) as Hsegments
        by (vm_compute; reflexivity).
    rewrite Hsegments in Hitems; clear Hsegments.
    inversion Hitems as [ | s1 i1 ss1 is1 H1 Hrest ]; subst.
    inversion Hrest as [ | s2 i2 ss2 is2 H2 Hnil ]; subst.
    inversion Hnil; subst.
    destruct H1 as (a & b & c & d & n & Hs & Hn & ->).
    destruct H2 as (a' & b' & c' & d' & n' & Hs' & Hn' & ->).
    vm_compute in Hs, Hs'.
    injection Hs as <- <- <- <-; injection Hs' as <- <- <- <-.
    vm_compute in Hn, Hn'.
    injection Hn as <-; injection Hn' as <-.
    reflexivity.
Defined.

(** ** Round trips of the printed forms *)

(** *** Fixed-width numerals *)

Lemma of_digits_app base xs ys :
  of_digits base (xs ++ ys)
  = (of_digits base xs * base ^ N.of_nat (length ys) + of_digits base ys)%N.
Proof.
  unfold of_digits; rewrite fold_left_app.
  generalize (fold_left (fun acc d => (acc * base + d)%N) xs 0%N) as a.
  induction ys as [ | y ys IH ]; intros a.
  - simpl; lia.
  - cbn [fold_left length].
    rewrite (IH (a * base + y)%N), (IH (0 * base + y)%N), Nat2N.inj_succ, N.pow_succ_r'.
    lia.
Qed.

Lemma length_digits_be base width n : length (digits_be base width n) = width.
Proof.
  revert n; induction width as [ | w IH ]; intros n; simpl; [ reflexivity | ].
  rewrite length_app, IH; simpl; lia.
Qed.

Lemma digits_be_below base width n :
  (0 < base)%N -> Forall (fun d => (d < base)%N) (digits_be base width n).
Proof.
  intros Hb; revert n; induction width as [ | w IH ]; intros n; simpl; [ constructor | ].
  apply Forall_app; split; [ apply IH | ].
  constructor; [ apply N.mod_lt; lia | constructor ].
Qed.

Lemma of_digits_digits_be base width n :
  (0 < base)%N -> of_digits base (digits_be base width n) = (n mod base ^ N.of_nat width)%N.
Proof.
  intros Hb; revert n; induction width as [ | w IH ]; intros n.
  - simpl; rewrite N.mod_1_r; reflexivity.
  - cbn [digits_be]; rewrite of_digits_app, IH; cbn [length of_digits fold_left].
    change (N.of_nat 1) with 1%N.
    rewrite N.pow_1_r, (Nat2N.inj_succ w), N.pow_succ_r', N.Div0.mod_mul_r; lia.
Qed.

Lemma read_all_map {A} (val : char -> option A) (chr : A -> char) ds :
  Forall (fun d => val (chr d) = Some d) ds -> read_all val (map chr ds) = Some ds.
Proof.
  induction 1 as [ | d ds Hd _ IH ]; simpl; [ reflexivity | ].
  rewrite Hd, IH; reflexivity.
Qed.

Lemma take_num_map val chr base ds rest :
  Forall (fun d => val (chr d) = Some d) ds ->
  take_num val base (length ds) (map chr ds ++ rest) = Some (of_digits base ds, rest).
Proof.
  intros H; unfold take_num.
  assert ((length (map chr ds ++ rest) <? length ds) = false) as ->
      by (apply Nat.ltb_ge; rewrite length_app, length_map; lia).
  assert (firstn (length ds) (map chr ds ++ rest) = map chr ds) as ->.
  { rewrite <- (length_map chr ds), firstn_app, Nat.sub_diag, firstn_all.
    simpl; apply app_nil_r. }
  assert (skipn (length ds) (map chr ds ++ rest) = rest) as ->.
  { rewrite <- (length_map chr ds), skipn_app, Nat.sub_diag, skipn_all.
    reflexivity. }
  rewrite read_all_map by assumption; reflexivity.
Qed.

Lemma dec_val_char d : (d < 10)%N -> dec_val (dec_char d) = Some d.
Proof.
  intros H; unfold dec_val, dec_char.
  assert (((48 <=? 48 + d) && (48 + d <=? 57))%N = true) as ->
      by (apply andb_true_iff; split; apply N.leb_le; lia).
  f_equal; lia.
Qed.

Lemma hex_val_char d : (d < 16)%N -> hex_val (hex_char d) = Some d.
Proof.
  intros H; apply below_16 in H; simpl in H.
  repeat (destruct H as [<- | H]; [ reflexivity | ]); destruct H.
Qed.

Lemma take_num_width val chr base width ds rest :
  length ds = width ->
  Forall (fun d => val (chr d) = Some d) ds ->
  take_num val base width (map chr ds ++ rest) = Some (of_digits base ds, rest).
Proof. intros <-; apply take_num_map. Qed.

Lemma expect_head c rest : expect c (c :: rest) = Some rest.
Proof. simpl; rewrite N.eqb_refl; reflexivity. Qed.

Lemma take_dec width n rest :
  (n < 10 ^ N.of_nat width)%N ->
  take_num dec_val 10 width (dec_fixed width n ++ rest) = Some (n, rest).
Proof.
  intros H; unfold dec_fixed.
  rewrite take_num_width.
  - rewrite of_digits_digits_be by reflexivity.
    rewrite N.mod_small by assumption; reflexivity.
  - apply length_digits_be.
  - eapply Forall_impl; [ | apply (digits_be_below 10 width n); reflexivity ].
    intros d Hd; apply dec_val_char; assumption.
Qed.

Lemma hex_digits_read ds :
  Forall (fun d => (d < 16)%N) ds -> Forall (fun d => hex_val (hex_char d) = Some d) ds.
Proof. apply Forall_impl; intros d Hd; apply hex_val_char; assumption. Qed.

(** *** UUID strings *)

Lemma parse_uuid_hyphenated_groups A B C E F :
  length A = 8 -> length B = 4 -> length C = 4 -> length E = 4 -> length F = 12 ->
  Forall (fun d => (d < 16)%N) (A ++ B ++ C ++ E ++ F) ->
  parse_uuid_hyphenated
    (map hex_char A ++ 45%N :: map hex_char B ++ 45%N :: map hex_char C
       ++ 45%N :: map hex_char E ++ 45%N :: map hex_char F)
  = Some (of_digits 16 (A ++ B ++ C ++ E ++ F)).
Proof.
  intros LA LB LC LE LF H.
  apply Forall_app in H; destruct H as [HA H].
  apply Forall_app in H; destruct H as [HB H].
  apply Forall_app in H; destruct H as [HC H].
  apply Forall_app in H; destruct H as [HE HF].
  apply hex_digits_read in HA, HB, HC, HE, HF.
  unfold parse_uuid_hyphenated.
  rewrite (take_num_width _ _ _ _ _ _ LA HA), expect_head.
  rewrite (take_num_width _ _ _ _ _ _ LB HB), expect_head.
  rewrite (take_num_width _ _ _ _ _ _ LC HC), expect_head.
  rewrite (take_num_width _ _ _ _ _ _ LE HE), expect_head.
  rewrite <- (app_nil_r (map hex_char F)), (take_num_width _ _ _ _ _ _ LF HF).
  f_equal.
  rewrite !of_digits_app, !length_app, LB, LC, LE, LF.
  change (16 ^ N.of_nat (4 + (4 + (4 + 12))))%N with 79228162514264337593543950336%N.
  change (16 ^ N.of_nat (4 + (4 + 12)))%N with 1208925819614629174706176%N.
  change (16 ^ N.of_nat (4 + 12))%N with 18446744073709551616%N.
  change (16 ^ N.of_nat 12)%N with 281474976710656%N.
  lia.
Qed.

Lemma uuid_str_groups u :
  exists A B C E F,
    length A = 8 /\ length B = 4 /\ length C = 4 /\ length E = 4 /\ length F = 12
    /\ A ++ B ++ C ++ E ++ F = digits_be 16 32 u
    /\ uuid_str u = map hex_char A ++ 45%N :: map hex_char B ++ 45%N :: map hex_char C
                       ++ 45%N :: map hex_char E ++ 45%N :: map hex_char F.
Proof.
  pose proof (length_digits_be 16 32 u) as Hlen.
  unfold uuid_str, hex_fixed.
  destruct (digits_be 16 32 u) as [ | x0 ds ]; [ discriminate | ].
  do 31 (destruct ds as [ | ? ds ]; [ discriminate | ]).
  destruct ds; [ | discriminate ]; clear Hlen.
  match goal with
  | |- context [ map hex_char [?a0; ?a1; ?a2; ?a3; ?a4; ?a5; ?a6; ?a7; ?b0; ?b1; ?b2; ?b3;
                               ?c0; ?c1; ?c2; ?c3; ?e0; ?e1; ?e2; ?e3; ?f0; ?f1; ?f2; ?f3;
                               ?f4; ?f5; ?f6; ?f7; ?f8; ?f9; ?f10; ?f11] ] =>
    exists [a0; a1; a2; a3; a4; a5; a6; a7], [b0; b1; b2; b3], [c0; c1; c2; c3],
           [e0; e1; e2; e3], [f0; f1; f2; f3; f4; f5; f6; f7; f8; f9; f10; f11]
  end.
  repeat split; reflexivity.
Qed.

Lemma parse_uuid_str u : valid_uuid u = true -> parse_uuid (uuid_str u) = Some u.
Proof.
  unfold valid_uuid; intros Hu; apply N.ltb_lt in Hu.
  destruct (uuid_str_groups u) as (A & B & C & E & F & LA & LB & LC & LE & LF & HD & ->).
  unfold parse_uuid; rewrite parse_uuid_hyphenated_groups; try assumption.
  - rewrite HD, of_digits_digits_be, N.mod_small by (reflexivity || assumption).
    reflexivity.
  - rewrite HD; apply digits_be_below; reflexivity.
Qed.

(** *** Timestamps *)

Lemma parse_fraction_fixed us :
  (us < 1000000)%N -> parse_fraction (dec_fixed 6 us) = Some us.
Proof.
  intros H; unfold parse_fraction.
  assert (read_all dec_val (dec_fixed 6 us) = Some (digits_be 10 6 us)) as E.
  { unfold dec_fixed; apply read_all_map.
    eapply Forall_impl; [ | apply (digits_be_below 10 6 us); reflexivity ].
    intros d Hd; apply dec_val_char; assumption. }
  destruct (dec_fixed 6 us) as [ | c r ] eqn:D.
  - apply (f_equal (@length _)) in D; unfold dec_fixed in D.
    rewrite length_map, length_digits_be in D; discriminate.
  - rewrite E; cbv zeta.
    rewrite firstn_all2 by (rewrite length_digits_be; lia).
    rewrite length_digits_be, of_digits_digits_be by reflexivity.
    rewrite N.mod_small by assumption.
    f_equal; change (10 ^ N.of_nat (6 - 6))%N with 1%N; lia.
Qed.

Lemma days_in_month_le y m : (days_in_month y m <= 31)%N.
Proof.
  unfold days_in_month.
  destruct (m =? 2)%N; [ destruct (is_leap y); lia | ].
  destruct (_ || _); lia.
Qed.

Lemma parse_datetime_str d : valid_datetime d = true -> parse_datetime (datetime_str d) = Some d.
Proof.
  intros Hv; pose proof Hv as Hvalid.
  unfold valid_datetime in Hv.
  repeat (apply andb_true_iff in Hv; destruct Hv as [Hv ?]).
  repeat match goal with
         | H : (_ <=? _)%N = true |- _ => apply N.leb_le in H
         | H : (_ <? _)%N = true |- _ => apply N.ltb_lt in H
         end.
  pose proof (days_in_month_le (year d) (month d)).
  destruct d as [y mo dd h mi sec us]; cbn [year month day hour minute second microsecond] in *.
  unfold parse_datetime, datetime_str;
    cbn [year month day hour minute second microsecond].
  rewrite take_dec, expect_head by (simpl; lia).
  rewrite take_dec, expect_head by (simpl; lia).
  rewrite take_dec by (simpl; lia).
  cbn [N.eqb Pos.eqb orb].
  rewrite take_dec, expect_head by (simpl; lia).
  rewrite take_dec, expect_head by (simpl; lia).
  rewrite take_dec by (simpl; lia).
  destruct (us =? 0)%N eqn:Hus.
  - apply N.eqb_eq in Hus; subst us; rewrite Hvalid; reflexivity.
  - cbn [N.eqb Pos.eqb]; rewrite parse_fraction_fixed by assumption.
    rewrite Hvalid; reflexivity.
Qed.

(** *** JSON strings *)

Lemma hex4_fixed n :
  (n < 65536)%N ->
  exists a b c d, hex_fixed 4 n = [a; b; c; d] /\ hex4 a b c d = Some n.
Proof.
  intros Hn.
  assert (of_digits 16 (digits_be 16 4 n) = n) as Hsum
      by (rewrite of_digits_digits_be, N.mod_small by (reflexivity || assumption);
          reflexivity).
  pose proof (digits_be_below 16 4 n eq_refl) as Hds.
  pose proof (length_digits_be 16 4 n) as Hlen.
  unfold hex_fixed.
  destruct (digits_be 16 4 n) as [ | d3 [ | d2 [ | d1 [ | d0 [ | ? ? ]]]]]; try discriminate.
  inversion Hds as [ | ? ? H3 Hds3 ]; subst.
  inversion Hds3 as [ | ? ? H2 Hds2 ]; subst.
  inversion Hds2 as [ | ? ? H1 Hds1 ]; subst.
  inversion Hds1 as [ | ? ? H0 _ ]; subst.
  do 4 eexists; split; [ reflexivity | ].
  unfold hex4; rewrite !hex_val_char by assumption.
  f_equal; rewrite <- Hsum; unfold of_digits; simpl; lia.
Qed.

Lemma scanstring_u a b c d r1 :
  scanstring (92 :: 117 :: a :: b :: c :: d :: r1)%N =
  match hex4 a b c d with
  | None => None
  | Some uni =>
    if is_high_surrogate uni then
      match r1 with
      | bs :: u :: a2 :: b2 :: c2 :: d2 :: r3 =>
        if ((bs =? 92) && (u =? 117))%N then
          match hex4 a2 b2 c2 d2 with
          | None => None
          | Some uni2 =>
            if is_low_surrogate uni2
            then push (join_surrogates uni uni2) (scanstring r3)
            else push uni (scanstring r1)
          end
        else push uni (scanstring r1)
      | _ => push uni (scanstring r1)
      end
    else push uni (scanstring r1)
  end.
Proof. reflexivity. Qed.

Lemma scanstring_plain c r :
  (c =? 34)%N = false -> (c <? 32)%N = false -> (c =? 92)%N = false ->
  scanstring (c :: r) = push c (scanstring r).
Proof. intros H1 H2 H3; simpl; rewrite H1, H2, H3; reflexivity. Qed.

Lemma scanstring_escape_char c tail :
  scalar c = true -> scanstring (escape_char c ++ tail) = push c (scanstring tail).
Proof.
  unfold scalar, escape_char; intros Hc.
  apply andb_true_iff in Hc; destruct Hc as [Hmax Hsur]; apply N.ltb_lt in Hmax.
  destruct (c =? 34)%N eqn:E1; [ apply N.eqb_eq in E1; subst; reflexivity | ].
  destruct (c =? 92)%N eqn:E2; [ apply N.eqb_eq in E2; subst; reflexivity | ].
  destruct (c =? 10)%N eqn:E3; [ apply N.eqb_eq in E3; subst; reflexivity | ].
  destruct (c =? 13)%N eqn:E4; [ apply N.eqb_eq in E4; subst; reflexivity | ].
  destruct (c =? 9)%N eqn:E5; [ apply N.eqb_eq in E5; subst; reflexivity | ].
  destruct (c =? 8)%N eqn:E6; [ apply N.eqb_eq in E6; subst; reflexivity | ].
  destruct (c =? 12)%N eqn:E7; [ apply N.eqb_eq in E7; subst; reflexivity | ].
  destruct ((32 <=? c) && (c <=? 126))%N eqn:E8.
  { apply andb_true_iff in E8; destruct E8 as [Hlo _]; apply N.leb_le in Hlo.
    apply scanstring_plain; [ assumption | apply N.ltb_ge; assumption | assumption ]. }
  destruct (c <? 65536)%N eqn:E9.
  - apply N.ltb_lt in E9.
    destruct (hex4_fixed c E9) as (a & b & x & d & -> & Hhex).
    cbn [app]; rewrite scanstring_u, Hhex.
    unfold is_high_surrogate.
    destruct ((55296 <=? c) && (c <=? 56319))%N eqn:Hhigh; [ | reflexivity ].
    exfalso; apply andb_true_iff in Hhigh; destruct Hhigh as [H1 H2].
    apply N.leb_le in H1, H2.
    assert (((55296 <=? c) && (c <=? 57343))%N = true) as Hs
        by (apply andb_true_iff; split; apply N.leb_le; lia).
    rewrite Hs in Hsur; discriminate.
  - apply N.ltb_ge in E9.
    pose proof (N.div_mod' (c - 65536) 1024) as Hdm.
    pose proof (N.mod_lt (c - 65536) 1024 ltac:(discriminate)) as Hr.
    assert ((c - 65536) / 1024 < 1024)%N as Hq
        by (apply N.Div0.div_lt_upper_bound; lia).
    set (q := ((c - 65536) / 1024)%N) in *; set (r := ((c - 65536) mod 1024)%N) in *.
    destruct (hex4_fixed (55296 + q)) as (a & b & x & d & -> & Hhi); [ lia | ].
    destruct (hex4_fixed (56320 + r)) as (a2 & b2 & x2 & d2 & -> & Hlo); [ lia | ].
    cbn [app]; rewrite scanstring_u, Hhi.
    assert (is_high_surrogate (55296 + q) = true) as ->
        by (apply andb_true_iff; split; apply N.leb_le; lia).
    cbn [N.eqb Pos.eqb andb]; rewrite Hlo.
    assert (is_low_surrogate (56320 + r) = true) as ->
        by (apply andb_true_iff; split; apply N.leb_le; lia).
    replace (join_surrogates (55296 + q) (56320 + r)) with c
      by (unfold join_surrogates; lia).
    reflexivity.
Qed.

Lemma scanstring_escaped s : forall rest,
  scalar_text s = true ->
  scanstring (flat_map escape_char s ++ 34%N :: rest) = Some (s, rest).
Proof.
  induction s as [ | c s IH ]; intros rest Hs; [ reflexivity | ].
  simpl in Hs; apply andb_true_iff in Hs; destruct Hs as [Hc Hs].
  cbn [flat_map]; rewrite <- app_assoc, scanstring_escape_char, IH by assumption.
  reflexivity.
Qed.

Lemma json_quote_scanned s rest :
  scalar_text s = true ->
  exists body, json_quote s ++ rest = 34%N :: body /\ scanstring body = Some (s, rest).
Proof.
  intros Hs; exists (flat_map escape_char s ++ 34%N :: rest); split.
  - unfold json_quote; cbn [app]; rewrite <- app_assoc; reflexivity.
  - apply scanstring_escaped; assumption.
Qed.

(** *** Values of a snapshot *)

Lemma forallb_scalar_map (chr : N -> char) ds :
  Forall (fun d => scalar (chr d) = true) ds -> scalar_text (map chr ds) = true.
Proof.
  induction 1 as [ | d ds Hd _ IH ]; simpl; [ reflexivity | ].
  rewrite Hd; exact IH.
Qed.

Lemma hex_char_scalar d : (d < 16)%N -> scalar (hex_char d) = true.
Proof.
  intros H; apply below_16 in H; simpl in H.
  repeat (destruct H as [<- | H]; [ reflexivity | ]); destruct H.
Qed.

Lemma dec_char_scalar d : (d < 10)%N -> scalar (dec_char d) = true.
Proof.
  intros H; unfold scalar, dec_char.
  apply andb_true_iff; split; [ apply N.ltb_lt; lia | ].
  apply negb_true_iff, andb_false_iff; left; apply N.leb_gt; lia.
Qed.

Lemma dec_fixed_scalar width n : scalar_text (dec_fixed width n) = true.
Proof.
  apply forallb_scalar_map.
  eapply Forall_impl; [ | apply (digits_be_below 10 width n); reflexivity ].
  intros d Hd; apply dec_char_scalar; assumption.
Qed.

Lemma scalar_text_app a b :
  scalar_text (a ++ b) = scalar_text a && scalar_text b.
Proof. apply forallb_app. Qed.

Lemma uuid_str_scalar u : scalar_text (uuid_str u) = true.
Proof.
  destruct (uuid_str_groups u) as (A & B & C & E & F & _ & _ & _ & _ & _ & HD & ->).
  pose proof (digits_be_below 16 32 u eq_refl) as H; rewrite <- HD in H.
  apply Forall_app in H; destruct H as [HA H].
  apply Forall_app in H; destruct H as [HB H].
  apply Forall_app in H; destruct H as [HC H].
  apply Forall_app in H; destruct H as [HE HF].
  assert (forall l, Forall (fun d => (d < 16)%N) l -> scalar_text (map hex_char l) = true)
    as Hmap.
  { intros l Hl; apply forallb_scalar_map.
    eapply Forall_impl; [ | exact Hl ]; intros d Hd; apply hex_char_scalar; assumption. }
  repeat (rewrite scalar_text_app || cbn [scalar_text forallb]);
    fold (scalar_text (map hex_char B)); fold (scalar_text (map hex_char C));
    fold (scalar_text (map hex_char E)); fold (scalar_text (map hex_char F)).
  rewrite !Hmap by assumption; reflexivity.
Qed.

Lemma datetime_str_scalar d : scalar_text (datetime_str d) = true.
Proof.
  unfold datetime_str.
  repeat (rewrite scalar_text_app || rewrite dec_fixed_scalar
          || (progress cbn [scalar_text forallb andb])
          || match goal with
             | |- context [ forallb scalar ?l ] => fold (scalar_text l)
             end).
  destruct (microsecond d =? 0)%N; cbn [scalar_text forallb]; [ reflexivity | ].
  fold (scalar_text (dec_fixed 6 (microsecond d))); rewrite dec_fixed_scalar; reflexivity.
Qed.

Lemma status_value_scalar s : scalar_text (status_value s) = true.
Proof. destruct s; reflexivity. Qed.

(** An atom is scanned back to its cached form, from any text that follows. *)
Lemma scan_once_atom v fuel rest :
  atom_ok v = true ->
  scan_once (S fuel) (json_dumps v ++ rest) = Parsed (cached_atom v) rest.
Proof.
  assert (forall s, scalar_text s = true ->
                    scan_once (S fuel) (json_quote s ++ rest) = Parsed (PStr s) rest) as Hstr.
  { intros s Hs; destruct (json_quote_scanned s rest Hs) as (body & -> & Hb).
    cbn [scan_once N.eqb Pos.eqb]; rewrite Hb; reflexivity. }
  destruct v; cbn [atom_ok]; intros Hv; try discriminate.
  - reflexivity.
  - apply Hstr; assumption.
  - apply Hstr, uuid_str_scalar.
  - apply Hstr, datetime_str_scalar.
Qed.

Lemma atom_head v rest :
  atom_ok v = true -> skip_ws (json_dumps v ++ rest) = json_dumps v ++ rest.
Proof. destruct v; cbn [atom_ok]; intros Hv; try discriminate; reflexivity. Qed.

Lemma pair_text_head kv rest :
  exists body, pair_text kv ++ rest = 34%N :: body.
Proof. destruct kv as [k x]; eexists; reflexivity. Qed.

Lemma join_cons sep (x y : text) l :
  join sep (x :: y :: l) = x ++ sep ++ join sep (y :: l).
Proof. reflexivity. Qed.

Lemma join_pairs_head entries rest :
  entries <> [] ->
  exists body, join (txt ", ") (map pair_text entries) ++ rest = 34%N :: body.
Proof.
  destruct entries as [ | kv [ | kv2 entries ]]; intros H; [ congruence | | ].
  - apply pair_text_head.
  - cbn [map]; rewrite join_cons, <- app_assoc; apply pair_text_head.
Qed.

Lemma scan_pairs_flat entries : forall fuel rest,
  entries <> [] -> Forall flat_entry entries -> length entries < fuel ->
  scan_pairs fuel (join (txt ", ") (map pair_text entries) ++ 125%N :: rest)
  = Parsed (map (fun kv => (fst kv, cached_atom (snd kv))) entries) rest.
Proof.
  induction entries as [ | [k x] entries IH ]; intros fuel rest Hne Hflat Hfuel;
    [ congruence | ].
  inversion Hflat as [ | ? ? [Hk Hx] Hrest ]; subst; cbn [fst snd] in *.
  destruct fuel as [ | fuel ]; [ inversion Hfuel | ].
  destruct fuel as [ | fuel ]; [ simpl in Hfuel; lia | ].
  assert (forall tail,
             scan_pairs (S (S fuel)) (pair_text (k, x) ++ tail)
             = match scan_once (S fuel) (json_dumps x ++ tail) with
               | Parsed v rest0 =>
                 match skip_ws rest0 with
                 | c :: r =>
                   if (c =? 125)%N then Parsed [(k, v)] r
                   else if (c =? 44)%N then
                     match scan_pairs (S fuel) (skip_ws r) with
                     | Parsed kvs rest' => Parsed ((k, v) :: kvs) rest'
                     | Malformed => Malformed
                     | Exhausted => Exhausted
                     | Refused => Refused
                     end
                   else Malformed
                 | [] => Malformed
                 end
               | Malformed => Malformed
               | Exhausted => Exhausted
               | Refused => Refused
               end) as Hstep.
  { intros tail; unfold pair_text; rewrite <- !app_assoc.
    destruct (json_quote_scanned k (txt ": " ++ json_dumps x ++ tail) Hk)
      as (body & -> & Hb).
    cbn [scan_pairs N.eqb Pos.eqb]; rewrite Hb.
    change (txt ": " ++ json_dumps x ++ tail) with (58 :: 32 :: json_dumps x ++ tail)%N.
    cbn [skip_ws is_json_ws N.eqb Pos.eqb orb].
    rewrite atom_head by assumption; reflexivity. }
  destruct entries as [ | kv2 entries ].
  - cbn [map join]; rewrite Hstep, scan_once_atom by assumption; reflexivity.
  - cbn [map]; rewrite join_cons, <- !app_assoc, Hstep, scan_once_atom by assumption.
    change (txt ", " ++ ?t) with (44 :: 32 :: t)%N.
    cbn [skip_ws is_json_ws N.eqb Pos.eqb orb app].
    destruct (join_pairs_head (kv2 :: entries) (125%N :: rest)) as [body Hbody];
      [ discriminate | ].
    cbn [map] in Hbody, IH; rewrite Hbody.
    cbn [skip_ws is_json_ws N.eqb Pos.eqb orb]; rewrite <- Hbody.
    rewrite IH; [ reflexivity | discriminate | assumption | simpl in *; lia ].
Qed.

(** *** The scanner's fuel *)

Lemma scan_once_S fuel s :
  scan_once (S fuel) s =
  match s with
  | [] => Malformed
  | c :: r =>
    if (c =? 34)%N then
      match scanstring r with
      | Some (str, rest) => Parsed (PStr str) rest
      | None => Malformed
      end
    else if (c =? 123)%N then
      match skip_ws r with
      | c1 :: r1 =>
        if (c1 =? 125)%N then Parsed (PDict []) r1
        else match scan_pairs fuel (c1 :: r1) with
             | Parsed pairs rest => Parsed (PDict (dict_of_pairs pairs)) rest
             | Malformed => Malformed
             | Exhausted => Exhausted
             | Refused => Refused
             end
      | [] => Malformed
      end
    else if (c =? 91)%N then
      match skip_ws r with
      | c1 :: r1 =>
        if (c1 =? 93)%N then Parsed (PList []) r1
        else match scan_items fuel (c1 :: r1) with
             | Parsed items rest => Parsed (PList items) rest
             | Malformed => Malformed
             | Exhausted => Exhausted
             | Refused => Refused
             end
      | [] => Malformed
      end
    else
      match scan_keyword s with
      | Some (v, rest) => if over_limit v then Refused else Parsed v rest
      | None => Malformed
      end
  end.
Proof. destruct s; reflexivity. Qed.

Lemma scan_items_S fuel s :
  scan_items (S fuel) s =
  match scan_once fuel s with
  | Parsed v rest =>
    match skip_ws rest with
    | c :: r =>
      if (c =? 93)%N then Parsed [v] r
      else if (c =? 44)%N then
        match scan_items fuel (skip_ws r) with
        | Parsed vs rest' => Parsed (v :: vs) rest'
        | Malformed => Malformed
        | Exhausted => Exhausted
        | Refused => Refused
        end
      else Malformed
    | [] => Malformed
    end
  | Malformed => Malformed
  | Exhausted => Exhausted
  | Refused => Refused
  end.
Proof. reflexivity. Qed.

Lemma scan_pairs_S fuel s :
  scan_pairs (S fuel) s =
  match s with
  | q :: r0 =>
    if (q =? 34)%N then
      match scanstring r0 with
      | Some (key, r1) =>
        match skip_ws r1 with
        | colon :: r2 =>
          if (colon =? 58)%N then
            match scan_once fuel (skip_ws r2) with
            | Parsed v rest =>
              match skip_ws rest with
              | c :: r =>
                if (c =? 125)%N then Parsed [(key, v)] r
                else if (c =? 44)%N then
                  match scan_pairs fuel (skip_ws r) with
                  | Parsed kvs rest' => Parsed ((key, v) :: kvs) rest'
                  | Malformed => Malformed
                  | Exhausted => Exhausted
                  | Refused => Refused
                  end
                else Malformed
              | [] => Malformed
              end
            | Malformed => Malformed
            | Exhausted => Exhausted
            | Refused => Refused
            end
          else Malformed
        | [] => Malformed
        end
      | None => Malformed
      end
    else Malformed
  | [] => Malformed
  end.
Proof. destruct s; reflexivity. Qed.

(** Destructs the scrutinee of a match in the hypothesis [H]. *)
Ltac break H :=
  match type of H with
  | context [ match ?x with _ => _ end ] =>
    first [ is_var x; destruct x | let E := fresh "E" in destruct x eqn:E ];
    try discriminate
  end.

(** More fuel does not change a result that was reached. *)
Lemma scan_agree fuel :
  (forall s, agree (scan_once fuel s) (scan_once (S fuel) s))
  /\ (forall s, agree (scan_items fuel s) (scan_items (S fuel) s))
  /\ (forall s, agree (scan_pairs fuel s) (scan_pairs (S fuel) s)).
Proof.
  induction fuel as [ | fuel (IHonce & IHitems & IHpairs) ].
  - repeat split; intros s; left; reflexivity.
  - repeat split; intros s.
    + rewrite (scan_once_S (S fuel)), (scan_once_S fuel).
      destruct s as [ | c r ]; [ right; reflexivity | ].
      destruct (c =? 34)%N; [ right; reflexivity | ].
      destruct (c =? 123)%N.
      { destruct (skip_ws r) as [ | c1 r1 ]; [ right; reflexivity | ].
        destruct (c1 =? 125)%N; [ right; reflexivity | ].
        destruct (IHpairs (c1 :: r1)) as [E | E];
          [ rewrite E; left | rewrite <- E; right ]; reflexivity. }
      destruct (c =? 91)%N; [ | right; reflexivity ].
      destruct (skip_ws r) as [ | c1 r1 ]; [ right; reflexivity | ].
      destruct (c1 =? 93)%N; [ right; reflexivity | ].
      destruct (IHitems (c1 :: r1)) as [E | E];
        [ rewrite E; left | rewrite <- E; right ]; reflexivity.
    + rewrite (scan_items_S (S fuel)), (scan_items_S fuel).
      destruct (IHonce s) as [E | E]; [ rewrite E; left; reflexivity | rewrite <- E ].
      destruct (scan_once fuel s) as [v rest | | | ]; try (right; reflexivity).
      destruct (skip_ws rest) as [ | c r ]; [ right; reflexivity | ].
      destruct (c =? 93)%N; [ right; reflexivity | ].
      destruct (c =? 44)%N; [ | right; reflexivity ].
      destruct (IHitems (skip_ws r)) as [E' | E'];
        [ rewrite E'; left | rewrite <- E'; right ]; reflexivity.
    + rewrite (scan_pairs_S (S fuel)), (scan_pairs_S fuel).
      destruct s as [ | q r0 ]; [ right; reflexivity | ].
      destruct (q =? 34)%N; [ | right; reflexivity ].
      destruct (scanstring r0) as [[key r1] | ]; [ | right; reflexivity ].
      destruct (skip_ws r1) as [ | colon r2 ]; [ right; reflexivity | ].
      destruct (colon =? 58)%N; [ | right; reflexivity ].
      destruct (IHonce (skip_ws r2)) as [E | E];
        [ rewrite E; left; reflexivity | rewrite <- E ].
      destruct (scan_once fuel (skip_ws r2)) as [v rest | | | ]; try (right; reflexivity).
      destruct (skip_ws rest) as [ | c r ]; [ right; reflexivity | ].
      destruct (c =? 125)%N; [ right; reflexivity | ].
      destruct (c =? 44)%N; [ | right; reflexivity ].
      destruct (IHpairs (skip_ws r)) as [E' | E'];
        [ rewrite E'; left | rewrite <- E'; right ]; reflexivity.
Qed.

Lemma scan_once_more_fuel fuel fuel' s :
  fuel <= fuel' -> scan_once fuel s <> Exhausted -> scan_once fuel' s = scan_once fuel s.
Proof.
  induction 1 as [ | fuel' Hle IH ]; intros H; [ reflexivity | ].
  destruct (proj1 (scan_agree fuel') s) as [E | E].
  - rewrite IH in E by assumption; congruence.
  - rewrite <- E; apply IH; assumption.
Qed.

(** A scanned value takes at least one character. *)

Lemma skip_ws_length s : length (skip_ws s) <= length s.
Proof.
  induction s as [ | c s IH ]; simpl; [ lia | ].
  destruct (is_json_ws c); simpl; lia.
Qed.

Lemma strip_prefix_length p : forall s r,
  strip_prefix p s = Some r -> length s = length p + length r.
Proof.
  induction p as [ | x p IH ]; intros s r H; simpl in H.
  - injection H as <-; reflexivity.
  - destruct s as [ | y s ]; [ discriminate | ].
    destruct (x =? y)%N; [ | discriminate ].
    simpl; rewrite (IH _ _ H); reflexivity.
Qed.

Lemma span_digits_length s : forall ds rest,
  span_digits s = (ds, rest) -> length s = length ds + length rest.
Proof.
  induction s as [ | c s IH ]; intros ds rest H; simpl in H.
  - injection H as <- <-; reflexivity.
  - destruct (is_digit c).
    + destruct (span_digits s) as [ds' rest'].
      injection H as <- <-; simpl; rewrite (IH _ _ eq_refl); reflexivity.
    + injection H as <- <-; reflexivity.
Qed.

Lemma push_some c o str rest :
  push c o = Some (str, rest) -> exists str', o = Some (str', rest).
Proof.
  unfold push; destruct o as [[str' rest'] | ]; [ | discriminate ].
  intros H; injection H as _ <-; eauto.
Qed.

Lemma scanstring_consumes n : forall s str rest,
  length s <= n -> scanstring s = Some (str, rest) -> length rest < length s.
Proof.
  induction n as [ | n IH ]; intros s str rest Hlen H;
    (destruct s as [ | c r ]; [ discriminate | ]); simpl in Hlen; [ lia | ].
  cbn [scanstring] in H.
  repeat break H;
    try (injection H as <- <-; simpl; lia);
    try (apply push_some in H; destruct H as [str' H]; apply IH in H;
         simpl in *; lia).
Qed.

Lemma scan_number_consumes s v rest :
  scan_number s = Some (v, rest) -> length rest < length s.
Proof.
  unfold scan_number; intros H.
  repeat match goal with
         | H : context [ match ?x with _ => _ end ] |- _ =>
           first [ is_var x; destruct x | let E := fresh "E" in destruct x eqn:E ];
             try discriminate
         end.
  all: repeat match goal with
              | E : span_digits _ = _ |- _ => apply span_digits_length in E
              | E : (_, _) = (_, _) |- _ => inversion E; clear E; subst
              | E : Some _ = Some _ |- _ => inversion E; clear E; subst
              end.
  all: simpl in *; lia.
Qed.

Lemma keyword_consumes k v' s v rest :
  k <> EmptyString -> keyword k v' s = Some (v, rest) -> length rest < length s.
Proof.
  unfold keyword; intros Hk H.
  destruct (strip_prefix (txt k) s) as [r | ] eqn:E; [ | discriminate ].
  injection H as <- <-; apply strip_prefix_length in E.
  destruct k; [ congruence | simpl in E; lia ].
Qed.

Lemma scan_keyword_consumes s v rest :
  scan_keyword s = Some (v, rest) -> length rest < length s.
Proof.
  unfold scan_keyword, first_of; intros H.
  repeat match type of H with
         | context [ match keyword ?k ?x s with _ => _ end ] =>
           let E := fresh "E" in
           destruct (keyword k x s) as [[? ?] | ] eqn:E;
             [ injection H as <- <-; eapply keyword_consumes; [ | exact E ]; discriminate
             | ]
         end.
  apply scan_number_consumes with (v := v); assumption.
Qed.

Lemma scan_consumes fuel :
  (forall s v rest, scan_once fuel s = Parsed v rest -> length rest < length s)
  /\ (forall s v rest, scan_items fuel s = Parsed v rest -> length rest < length s)
  /\ (forall s v rest, scan_pairs fuel s = Parsed v rest -> length rest < length s).
Proof.
  induction fuel as [ | fuel (IHonce & IHitems & IHpairs) ];
    [ repeat split; intros s v rest H; discriminate | ].
  repeat split; intros s v rest H.
  - rewrite scan_once_S in H.
    destruct s as [ | c r ]; [ discriminate | ].
    destruct (c =? 34)%N.
    { destruct (scanstring r) as [[str rest'] | ] eqn:E; [ | discriminate ].
      injection H as _ <-; apply scanstring_consumes with (n := length r) in E;
        simpl; lia. }
    destruct (c =? 123)%N.
    { pose proof (skip_ws_length r) as Hws.
      destruct (skip_ws r) as [ | c1 r1 ]; [ discriminate | ].
      destruct (c1 =? 125)%N; [ injection H as _ <-; simpl in *; lia | ].
      destruct (scan_pairs fuel (c1 :: r1)) as [pairs rest' | | | ] eqn:E; try discriminate.
      injection H as _ <-; apply IHpairs in E; simpl in *; lia. }
    destruct (c =? 91)%N.
    { pose proof (skip_ws_length r) as Hws.
      destruct (skip_ws r) as [ | c1 r1 ]; [ discriminate | ].
      destruct (c1 =? 93)%N; [ injection H as _ <-; simpl in *; lia | ].
      destruct (scan_items fuel (c1 :: r1)) as [items rest' | | | ] eqn:E; try discriminate.
      injection H as _ <-; apply IHitems in E; simpl in *; lia. }
    destruct (scan_keyword (c :: r)) as [[v' rest'] | ] eqn:E; [ | discriminate ].
    destruct (over_limit v'); [ discriminate | ].
    injection H as _ <-; apply scan_keyword_consumes in E; assumption.
  - rewrite scan_items_S in H.
    destruct (scan_once fuel s) as [v0 rest0 | | | ] eqn:E; try discriminate.
    apply IHonce in E.
    pose proof (skip_ws_length rest0) as Hws.
    destruct (skip_ws rest0) as [ | c r ]; [ discriminate | ].
    destruct (c =? 93)%N; [ injection H as _ <-; simpl in *; lia | ].
    destruct (c =? 44)%N; [ | discriminate ].
    pose proof (skip_ws_length r) as Hws'.
    destruct (scan_items fuel (skip_ws r)) as [vs rest' | | | ] eqn:E'; try discriminate.
    injection H as _ <-; apply IHitems in E'; simpl in *; lia.
  - rewrite scan_pairs_S in H.
    destruct s as [ | q r0 ]; [ discriminate | ].
    destruct (q =? 34)%N; [ | discriminate ].
    destruct (scanstring r0) as [[key r1] | ] eqn:Ek; [ | discriminate ].
    apply scanstring_consumes with (n := length r0) in Ek; [ | lia ].
    pose proof (skip_ws_length r1) as Hws1.
    destruct (skip_ws r1) as [ | colon r2 ]; [ discriminate | ].
    destruct (colon =? 58)%N; [ | discriminate ].
    pose proof (skip_ws_length r2) as Hws2.
    destruct (scan_once fuel (skip_ws r2)) as [v0 rest0 | | | ] eqn:E; try discriminate.
    apply IHonce in E.
    pose proof (skip_ws_length rest0) as Hws.
    destruct (skip_ws rest0) as [ | c r ]; [ discriminate | ].
    destruct (c =? 125)%N; [ injection H as _ <-; simpl in *; lia | ].
    destruct (c =? 44)%N; [ | discriminate ].
    pose proof (skip_ws_length r) as Hws'.
    destruct (scan_pairs fuel (skip_ws r)) as [kvs rest' | | | ] eqn:E'; try discriminate.
    injection H as _ <-; apply IHpairs in E'; simpl in *; lia.
Qed.

(** Twice the length of the text, and one, is fuel enough for any text. *)
Lemma scan_enough_fuel fuel :
  (forall s, 2 * length s < fuel -> scan_once fuel s <> Exhausted)
  /\ (forall s, 2 * length s + 1 < fuel -> scan_items fuel s <> Exhausted)
  /\ (forall s, 2 * length s + 1 < fuel -> scan_pairs fuel s <> Exhausted).
Proof.
  induction fuel as [ | fuel (IHonce & IHitems & IHpairs) ];
    [ repeat split; intros s H; lia | ].
  repeat split; intros s Hfuel.
  - rewrite scan_once_S.
    destruct s as [ | c r ]; [ discriminate | ].
    destruct (c =? 34)%N; [ destruct (scanstring r) as [[? ?] | ]; discriminate | ].
    destruct (c =? 123)%N.
    { pose proof (skip_ws_length r) as Hws.
      destruct (skip_ws r) as [ | c1 r1 ]; [ discriminate | ].
      destruct (c1 =? 125)%N; [ discriminate | ].
      specialize (IHpairs (c1 :: r1)).
      destruct (scan_pairs fuel (c1 :: r1)); try discriminate.
      exfalso; apply IHpairs; [ simpl in *; lia | reflexivity ]. }
    destruct (c =? 91)%N.
    { pose proof (skip_ws_length r) as Hws.
      destruct (skip_ws r) as [ | c1 r1 ]; [ discriminate | ].
      destruct (c1 =? 93)%N; [ discriminate | ].
      specialize (IHitems (c1 :: r1)).
      destruct (scan_items fuel (c1 :: r1)); try discriminate.
      exfalso; apply IHitems; [ simpl in *; lia | reflexivity ]. }
    destruct (scan_keyword (c :: r)) as [[v ?] | ]; [ | discriminate ].
    destruct (over_limit v); discriminate.
  - rewrite scan_items_S.
    specialize (IHonce s).
    destruct (scan_once fuel s) as [v rest | | | ] eqn:E; try discriminate;
      [ | exfalso; apply IHonce; [ lia | reflexivity ] ].
    apply (proj1 (scan_consumes fuel)) in E.
    pose proof (skip_ws_length rest) as Hws.
    destruct (skip_ws rest) as [ | c r ]; [ discriminate | ].
    destruct (c =? 93)%N; [ discriminate | ].
    destruct (c =? 44)%N; [ | discriminate ].
    pose proof (skip_ws_length r) as Hws'.
    specialize (IHitems (skip_ws r)).
    destruct (scan_items fuel (skip_ws r)); try discriminate.
    exfalso; apply IHitems; [ simpl in *; lia | reflexivity ].
  - rewrite scan_pairs_S.
    destruct s as [ | q r0 ]; [ discriminate | ].
    destruct (q =? 34)%N; [ | discriminate ].
    destruct (scanstring r0) as [[key r1] | ] eqn:Ek; [ | discriminate ].
    apply scanstring_consumes with (n := length r0) in Ek; [ | lia ].
    pose proof (skip_ws_length r1) as Hws1.
    destruct (skip_ws r1) as [ | colon r2 ]; [ discriminate | ].
    destruct (colon =? 58)%N; [ | discriminate ].
    pose proof (skip_ws_length r2) as Hws2.
    specialize (IHonce (skip_ws r2)).
    destruct (scan_once fuel (skip_ws r2)) as [v rest | | | ] eqn:E; try discriminate;
      [ | exfalso; apply IHonce; [ simpl in *; lia | reflexivity ] ].
    apply (proj1 (scan_consumes fuel)) in E.
    pose proof (skip_ws_length rest) as Hws.
    destruct (skip_ws rest) as [ | c r ]; [ discriminate | ].
    destruct (c =? 125)%N; [ discriminate | ].
    destruct (c =? 44)%N; [ | discriminate ].
    pose proof (skip_ws_length r) as Hws'.
    specialize (IHpairs (skip_ws r)).
    destruct (scan_pairs fuel (skip_ws r)); try discriminate.
    exfalso; apply IHpairs; [ simpl in *; lia | reflexivity ].
Qed.

Lemma scan_once_fuel s : scan_once (S (2 * length s)) s <> Exhausted.
Proof. apply (proj1 (scan_enough_fuel (S (2 * length s)))); lia. Qed.

(** Whatever some amount of fuel scans, [json.loads] scans. *)
Lemma scan_once_any_fuel fuel s v rest :
  scan_once fuel s = Parsed v rest ->
  scan_once (S (2 * length s)) s = Parsed v rest.
Proof.
  intros H.
  destruct (Nat.le_ge_cases fuel (S (2 * length s))) as [Hle | Hge].
  - rewrite (scan_once_more_fuel fuel) by (assumption || congruence); assumption.
  - rewrite <- H; symmetry; apply scan_once_more_fuel; [ assumption | ].
    apply scan_once_fuel.
Qed.

(** *** Snapshots through the cache *)

Lemma snapshot_entries_flat r :
  valid_snapshot r = true ->
  Forall flat_entry
         [(txt "id", PUuid (TemplateResponse.id r));
          (txt "title", PStr (TemplateResponse.title r));
          (txt "body", py_opt_str (TemplateResponse.body r));
          (txt "status", PStr (status_value (TemplateResponse.status r)));
          (txt "created_at", PDatetime (TemplateResponse.created_at r));
          (txt "updated_at", PDatetime (TemplateResponse.updated_at r))].
Proof.
  unfold valid_snapshot; intros H.
  repeat (apply andb_true_iff in H; destruct H as [H ?]).
  repeat constructor; cbn [fst snd atom_ok]; try reflexivity; try assumption.
  - destruct (TemplateResponse.body r); assumption || reflexivity.
  - apply status_value_scalar.
Qed.

Lemma json_dumps_snapshot r :
  json_dumps (model_dump r)
  = 123%N :: join (txt ", ")
                  (map pair_text
                       [(txt "id", PUuid (TemplateResponse.id r));
                        (txt "title", PStr (TemplateResponse.title r));
                        (txt "body", py_opt_str (TemplateResponse.body r));
                        (txt "status", PStr (status_value (TemplateResponse.status r)));
                        (txt "created_at", PDatetime (TemplateResponse.created_at r));
                        (txt "updated_at", PDatetime (TemplateResponse.updated_at r))])
      ++ [125%N].
Proof. reflexivity. Qed.

Lemma scan_once_snapshot r fuel rest :
  valid_snapshot r = true -> 7 < fuel ->
  scan_once fuel (json_dumps (model_dump r) ++ rest) = Parsed (cached_form r) rest.
Proof.
  intros Hv Hfuel.
  destruct fuel as [ | fuel ]; [ lia | ].
  rewrite json_dumps_snapshot; cbn [app]; rewrite <- app_assoc; cbn [app].
  match goal with
  | |- context [ join ?sep (map pair_text ?es) ++ ?tail ] =>
    destruct (join_pairs_head es tail) as [body Hbody]; [ discriminate | ];
      rewrite Hbody, scan_once_S; cbn [N.eqb Pos.eqb skip_ws is_json_ws orb];
      rewrite <- Hbody, (scan_pairs_flat es fuel rest)
  end.
  - destruct r as [i t [b | ] s c u]; reflexivity.
  - discriminate.
  - apply snapshot_entries_flat; assumption.
  - simpl; lia.
Qed.

Lemma json_dumps_snapshot_head r rest :
  exists body, json_dumps (model_dump r) ++ rest = 123%N :: body.
Proof. rewrite json_dumps_snapshot; eexists; reflexivity. Qed.

Lemma join_snapshots_head rs rest :
  rs <> [] ->
  exists body,
    join (txt ", ") (map json_dumps (map model_dump rs)) ++ rest = 123%N :: body.
Proof.
  destruct rs as [ | r [ | r2 rs ]]; intros H; [ congruence | | ].
  - apply json_dumps_snapshot_head.
  - cbn [map]; rewrite join_cons, <- app_assoc; apply json_dumps_snapshot_head.
Qed.

Lemma scan_items_snapshots rs : forall fuel rest,
  rs <> [] -> forallb valid_snapshot rs = true -> length rs + 8 <= fuel ->
  scan_items fuel (join (txt ", ") (map json_dumps (map model_dump rs)) ++ 93%N :: rest)
  = Parsed (map cached_form rs) rest.
Proof.
  induction rs as [ | r rs IH ]; intros fuel rest Hne Hv Hfuel; [ congruence | ].
  cbn [forallb] in Hv; apply andb_true_iff in Hv; destruct Hv as [Hr Hrs].
  destruct fuel as [ | fuel ]; [ simpl in Hfuel; lia | ].
  rewrite scan_items_S.
  destruct rs as [ | r2 rs ].
  - cbn [map join]; rewrite scan_once_snapshot by (assumption || (simpl in Hfuel; lia)).
    reflexivity.
  - cbn [map]; rewrite join_cons, <- !app_assoc.
    rewrite scan_once_snapshot by (assumption || (simpl in Hfuel; lia)).
    change (txt ", " ++ ?t) with (44 :: 32 :: t)%N.
    cbn [skip_ws is_json_ws N.eqb Pos.eqb orb].
    destruct (join_snapshots_head (r2 :: rs) (93%N :: rest)) as [body Hbody];
      [ discriminate | ].
    cbn [map] in Hbody, IH; rewrite Hbody.
    cbn [skip_ws is_json_ws N.eqb Pos.eqb orb]; rewrite <- Hbody.
    rewrite IH; [ reflexivity | discriminate | assumption | ].
    cbn [length] in Hfuel |- *; lia.
Qed.

(** What was written is JSON, and reads back as the cached forms. *)
Lemma json_loads_snapshots rs :
  forallb valid_snapshot rs = true ->
  json_loads (json_dumps (PList (map model_dump rs))) = Returns (PList (map cached_form rs)).
Proof.
  intros Hv; unfold json_loads; cbn [json_dumps].
  cbn [starts_with strip_prefix N.eqb Pos.eqb skip_ws is_json_ws orb].
  assert (scan_once (S (length rs + 8))
                    (91%N :: join (txt ", ") (map json_dumps (map model_dump rs)) ++ [93%N])
          = Parsed (PList (map cached_form rs)) []) as H.
  { rewrite scan_once_S; cbn [N.eqb Pos.eqb].
    destruct rs as [ | r rs ]; [ reflexivity | ].
    destruct (join_snapshots_head (r :: rs) [93%N]) as [body Hbody]; [ discriminate | ].
    rewrite Hbody; cbn [skip_ws is_json_ws N.eqb Pos.eqb orb]; rewrite <- Hbody.
    rewrite scan_items_snapshots by (assumption || discriminate || lia).
    reflexivity. }
  apply scan_once_any_fuel in H; rewrite H; reflexivity.
Qed.

Lemma status_of_value_value s : status_of_value (status_value s) = Some s.
Proof. destruct s; reflexivity. Qed.

Lemma model_validate_cached_form r :
  valid_snapshot r = true -> model_validate (cached_form r) = Returns r.
Proof.
  unfold valid_snapshot; intros H.
  repeat (apply andb_true_iff in H; destruct H as [H ?]).
  destruct r as [i t b s c u]; cbn [TemplateResponse.id TemplateResponse.title
    TemplateResponse.body TemplateResponse.status TemplateResponse.created_at
    TemplateResponse.updated_at] in *.
  unfold model_validate, cached_form;
    cbn [TemplateResponse.id TemplateResponse.title TemplateResponse.body
         TemplateResponse.status TemplateResponse.created_at TemplateResponse.updated_at].
  change (dict_get (txt "id") ?d) with (Some (PStr (uuid_str i))).
  change (dict_get (txt "title") ?d) with (Some (PStr t)).
  change (dict_get (txt "body") ?d) with (Some (py_opt_str b)).
  change (dict_get (txt "status") ?d) with (Some (PStr (status_value s))).
  change (dict_get (txt "created_at") ?d) with (Some (PStr (datetime_str c))).
  change (dict_get (txt "updated_at") ?d) with (Some (PStr (datetime_str u))).
  cbn [as_uuid as_str as_status as_datetime].
  rewrite parse_uuid_str, status_of_value_value, !parse_datetime_str by assumption.
  destruct b; reflexivity.
Qed.

Lemma comprehension_cached_forms rs :
  forallb valid_snapshot rs = true ->
  comprehension model_validate (map cached_form rs) = Returns rs.
Proof.
  induction rs as [ | r rs IH ]; intros Hv; [ reflexivity | ].
  cbn [forallb] in Hv; apply andb_true_iff in Hv; destruct Hv as [Hr Hrs].
  cbn [map comprehension]; rewrite model_validate_cached_form, IH by assumption.
  reflexivity.
Qed.

(** ** C7: what is written to the cache and what is read back *)

(** C7, as stated, fails: the dicts that [get_templates_cache] returns are
    not equal to the dicts that were written, since the id and the timestamps
    come back as strings. *)
Lemma cached_dicts_hold_strings :
  exists v w',
    get_templates_cache listing_key
      (snd (set_templates_cache listing_key
              (map model_dump (page 10 0 (Sample.stocked 1))) None Sample.quiet))
    = (Returns v, w')
    /\ v <> PList (map model_dump (page 10 0 (Sample.stocked 1)))
    /\ v = PList (map cached_form (page 10 0 (Sample.stocked 1))).
Proof.
  do 2 eexists; split; [ vm_compute; reflexivity | split; [ discriminate | reflexivity ] ].
Qed.

(** C7, amended.  For every list of template snapshots (128-bit ids,
    timestamps in range, text of scalar values), [set_templates_cache], when
    its redis call is served, stores JSON text, which json.loads accepts, so
    the old format is never produced; [get_templates_cache], served before
    the entry expires, returns the same dicts with the id and the timestamps
    as their strings; and TemplateResponse.model_validate of the returned
    dicts gives back exactly the original snapshots. *)
Theorem snapshots_round_trip_through_cache :
  forall key snapshots ttl w now,
    forallb valid_snapshot snapshots = true ->
    redis_link w 0 = Some now ->
    let w1 := snd (set_templates_cache key (map model_dump snapshots) ttl w) in
    let written := json_dumps (PList (map model_dump snapshots)) in
    redis_db w1 key = Some (written, now + 1000 * default 30 ttl)%Z
    /\ json_loads written = Returns (PList (map cached_form snapshots))
    /\ (forall now',
           redis_link w 1 = Some now' -> (now' < now + 1000 * default 30 ttl)%Z ->
           fst (get_templates_cache key w1) = Returns (PList (map cached_form snapshots)))
    /\ (try! items <- py_iter (PList (map cached_form snapshots));
        comprehension model_validate items) = Returns snapshots.
Proof.
  intros key snapshots ttl w now Hv Hlink; cbv zeta.
  rewrite set_templates_cache_eq, Hlink; cbn [snd].
  assert (redis_db (store_key key (Some (json_dumps (PList (map model_dump snapshots)),
                                         (now + 1000 * default 30 ttl)%Z))
                              (redis_advance w)) key
          = Some (json_dumps (PList (map model_dump snapshots)),
                  (now + 1000 * default 30 ttl)%Z)) as Hdb
      by (simpl; rewrite text_eqb_refl; reflexivity).
  split; [ exact Hdb | ].
  split; [ apply json_loads_snapshots; assumption | ].
  split.
  - intros now' Hlink' Hlive.
    rewrite get_templates_cache_eq; cbn [fst].
    change (redis_link (store_key key _ (redis_advance w)) 0) with (redis_link w 1).
    rewrite Hlink'; unfold cache_view; rewrite Hdb; cbn [live].
    apply Z.ltb_lt in Hlive; rewrite Hlive.
    unfold decode_cached; rewrite json_loads_snapshots by assumption.
    reflexivity.
  - cbn [py_iter obind]; apply comprehension_cached_forms; assumption.
Qed.

Lemma snapshots_round_trip_through_cache_witness :
  fst (get_templates_cache listing_key
         (snd (set_templates_cache listing_key
                 (map model_dump (page 10 0 (Sample.stocked 2))) None Sample.quiet)))
  = Returns (PList (map cached_form (page 10 0 (Sample.stocked 2)))).
Proof.
  refine (proj1 (proj2 (proj2
            (snapshots_round_trip_through_cache
               listing_key (page 10 0 (Sample.stocked 2)) None Sample.quiet 0%Z
               _ eq_refl))) 1000%Z eq_refl _).
  - vm_compute; reflexivity.
  - reflexivity.
Defined.

(** ** C1: mutations and the listing cache *)

Lemma forallb_firstn {A} (f : A -> bool) n l :
  forallb f l = true -> forallb f (firstn n l) = true.
Proof.
  revert n; induction l as [ | a l IH ]; intros [ | n ] H; simpl in *; try reflexivity.
  apply andb_true_iff in H; destruct H as [-> H]; simpl; auto.
Qed.

Lemma forallb_skipn {A} (f : A -> bool) n l :
  forallb f l = true -> forallb f (skipn n l) = true.
Proof.
  revert n; induction l as [ | a l IH ]; intros [ | n ] H; simpl in *; try reflexivity;
    try assumption.
  apply andb_true_iff in H; destruct H as [_ H]; auto.
Qed.

Lemma page_of_valid rows limit offset :
  valid_rows rows = true -> forallb valid_snapshot (page_of rows limit offset) = true.
Proof.
  unfold valid_rows, page_of; intros H.
  rewrite <- firstn_map, <- skipn_map; apply forallb_firstn, forallb_skipn; assumption.
Qed.

(** A cache-enabled read over a table whose pages are all the cache can hold. *)
Lemma read_answers_from_table limit offset w :
  valid_rows (table w) = true -> caches_page_of (table w) w ->
  answers_from (table w) (fst (get_all_templates true limit offset w))
  /\ table (snd (get_all_templates true limit offset w)) = table w
  /\ caches_page_of (table w) (snd (get_all_templates true limit offset w)).
Proof.
  intros Hvalid Hcache.
  rewrite get_all_templates_cached; cbv zeta.
  destruct (truthy _) eqn:T.
  - (* served from the cache *)
    destruct (redis_link w 0) as [now | ]; [ | discriminate ].
    unfold cache_view in *.
    destruct Hcache as [Hnone | (l' & o' & expiry & Hsome)];
      [ rewrite Hnone in *; discriminate | ].
    rewrite Hsome in *; cbn [live] in *.
    destruct (now <? expiry)%Z; [ | discriminate ].
    cbn [json_dumps] in *.
    change (91%N :: join (txt ", ") (map json_dumps (map model_dump (page_of (table w) l' o')))
               ++ [93%N])
      with (json_dumps (PList (map model_dump (page_of (table w) l' o')))) in *.
    unfold decode_cached in *.
    rewrite json_loads_snapshots in * by (apply page_of_valid; assumption).
    cbn [py_iter obind].
    rewrite comprehension_cached_forms by (apply page_of_valid; assumption).
    cbn [fst snd]; split; [ | split ].
    + right; do 3 eexists; split; reflexivity.
    + reflexivity.
    + right; exists l', o', expiry; exact Hsome.
  - (* read from the table *)
    destruct (db_link w 0); cbn [fst snd].
    + split; [ left; reflexivity | split; [ reflexivity | exact Hcache ] ].
    + split; [ right; do 3 eexists; split; reflexivity | ].
      rewrite table_after_set; split; [ reflexivity | ].
      rewrite set_templates_cache_eq; cbn [snd].
      destruct (redis_link (db_advance (redis_advance w)) 0) as [t | ]; [ | exact Hcache ].
      right; exists limit, offset; eexists.
      simpl; reflexivity.
Qed.

Lemma reads_answer_from_table reads : forall w,
  valid_rows (table w) = true -> caches_page_of (table w) w ->
  Forall (answers_from (table w)) (fst (run_reads reads w)).
Proof.
  induction reads as [ | [limit offset] reads IH ]; intros w Hvalid Hcache; simpl;
    [ constructor | ].
  destruct (read_answers_from_table limit offset w Hvalid Hcache) as (Hout & Htable & Hc).
  destruct (get_all_templates true limit offset w) as [out w1]; cbn [fst snd] in *.
  specialize (IH w1); rewrite Htable in IH; specialize (IH Hvalid Hc).
  destruct (run_reads reads w1) as [outs w2]; cbn [fst] in *.
  constructor; assumption.
Qed.

Lemma run_mutation_eq m w :
  run_mutation m w =
  match m with
  | Create request =>
    match create_template request w with
    | (Returns r, w') => (Returns (Created r), w')
    | (Raises e, w') => (Raises e, w')
    end
  | Update template_id request =>
    match update_template template_id request w with
    | (Returns r, w') => (Returns (Updated r), w')
    | (Raises e, w') => (Raises e, w')
    end
  | Delete template_id =>
    match delete_template template_id w with
    | (Returns r, w') => (Returns (Deleted r), w')
    | (Raises e, w') => (Raises e, w')
    end
  end.
Proof. destruct m; reflexivity. Qed.

Lemma cleared_when_served w0 now :
  redis_link w0 0 = Some now ->
  redis_db (snd (invalidate_cache listing_key w0)) listing_key = None.
Proof.
  intros H; rewrite invalidate_cache_eq, H; reflexivity.
Qed.

Lemma committed_clears_cache m w r w' now :
  run_mutation m w = (Returns r, w') -> committed m r = true ->
  redis_link w 0 = Some now ->
  redis_db w' listing_key = None.
Proof.
  rewrite run_mutation_eq; intros Hrun Hcommitted Hlink.
  destruct m as [request | template_id request | template_id].
  - rewrite create_template_eq in Hrun.
    destruct (db_link w 0); [ discriminate | ].
    destruct (has_row _ _); [ discriminate | ].
    destruct (db_link w 1); [ discriminate | ].
    injection Hrun as _ <-; apply cleared_when_served with (now := now); exact Hlink.
  - destruct (sets_a_field request) eqn:Hset.
    + destruct (printable_update request) eqn:Hprint.
      * rewrite update_template_eq in Hrun by assumption; cbv zeta in Hrun.
        destruct (db_link w 0); [ discriminate | ].
        destruct (find_row _ _);
          [ | injection Hrun as <- _; discriminate ].
        destruct (db_link w 1); [ discriminate | ].
        destruct (db_link w 2); [ discriminate | ].
        injection Hrun as _ <-; apply cleared_when_served with (now := now); exact Hlink.
      * rewrite update_template_unprintable in Hrun by assumption; cbv zeta in Hrun.
        destruct (db_link w 0); [ discriminate | ].
        injection Hrun as <- _; discriminate.
    + destruct (update_template template_id request w) as [[[u | ] | e] w1];
        injection Hrun as <- _ || discriminate Hrun;
        simpl in Hcommitted; congruence.
  - rewrite delete_template_eq in Hrun; cbv zeta in Hrun.
    destruct (db_link w 0); [ discriminate | ].
    destruct (db_link w 1); [ discriminate | ].
    destruct (has_row _ _);
      [ | injection Hrun as <- _; discriminate ].
    injection Hrun as _ <-; apply cleared_when_served with (now := now); exact Hlink.
Qed.

Lemma uncommitted_leaves_cache m w out w' :
  run_mutation m w = (out, w') ->
  (forall r, out = Returns r -> committed m r = false) ->
  redis_db w' = redis_db w /\ redis_link w' = redis_link w.
Proof.
  rewrite run_mutation_eq; intros Hrun Hnot.
  destruct m as [request | template_id request | template_id].
  - rewrite create_template_eq in Hrun.
    destruct (db_link w 0); [ injection Hrun as _ <-; split; reflexivity | ].
    destruct (has_row _ _); [ injection Hrun as _ <-; split; reflexivity | ].
    destruct (db_link w 1); [ injection Hrun as _ <-; split; reflexivity | ].
    injection Hrun as <- _; specialize (Hnot _ eq_refl); discriminate.
  - destruct (sets_a_field request) eqn:Hset.
    + destruct (printable_update request) eqn:Hprint.
      * rewrite update_template_eq in Hrun by assumption; cbv zeta in Hrun.
        destruct (db_link w 0); [ injection Hrun as _ <-; split; reflexivity | ].
        destruct (find_row _ _); [ | injection Hrun as _ <-; split; reflexivity ].
        destruct (db_link w 1); [ injection Hrun as _ <-; split; reflexivity | ].
        destruct (db_link w 2); [ injection Hrun as _ <-; split; reflexivity | ].
        injection Hrun as <- _; specialize (Hnot _ eq_refl); simpl in Hnot; congruence.
      * rewrite update_template_unprintable in Hrun by assumption; cbv zeta in Hrun.
        destruct (db_link w 0); injection Hrun as _ <-; split; reflexivity.
    + destruct request as [[t | ] [b | ] [s | ]]; try discriminate.
      pose proof (update_template_nothing template_id w) as H.
      change Sample.nothing
        with {| TemplateUpdateRequest.title := None; TemplateUpdateRequest.body := None;
                TemplateUpdateRequest.status := None |} in H.
      destruct (update_template template_id _ w) as [[u | e] w1]; cbn [fst snd] in H;
        injection Hrun as _ <-; split; apply H.
  - rewrite delete_template_eq in Hrun; cbv zeta in Hrun.
    destruct (db_link w 0); [ injection Hrun as _ <-; split; reflexivity | ].
    destruct (db_link w 1); [ injection Hrun as _ <-; split; reflexivity | ].
    destruct (has_row _ _); [ | injection Hrun as _ <-; split; reflexivity ].
    injection Hrun as <- _; specialize (Hnot _ eq_refl); discriminate.
Qed.

(** C1, as stated, fails: when the redis delete of the invalidation fails,
    the failure is absorbed, the create still returns, the key keeps its
    entry, and the next cache-enabled read serves the list from before the
    create (one template) although the table now has two rows. *)
Lemma failed_invalidation_leaves_stale_cache :
  exists created w1 listing w2,
    create_template Sample.create_X
      (Sample.redis_hiccup
         (Sample.caching (json_dumps (PList (map model_dump (page 100 0 (Sample.stocked 1)))))
                         (Sample.stocked 1)))
    = (Returns created, w1)
    /\ redis_db w1 listing_key <> None
    /\ length (table w1) = 2
    /\ get_all_templates true 100 0 w1 = (Returns listing, w2)
    /\ TemplateListResponse.source listing = txt "redis"
    /\ length (TemplateListResponse.templates listing) = 1.
Proof.
  do 4 eexists; split; [ reflexivity | ].
  split; [ discriminate | ].
  split; [ reflexivity | ].
  split; [ vm_compute; reflexivity | split; reflexivity ].
Qed.

(** C1, amended.  When a mutation (create, update with a field set, delete
    of an existing id) is committed and returns, and the redis delete of its
    invalidation is served, the listing key is absent when the operation
    returns; the next cache-enabled listing read is then answered from the
    table with its own page, and every later cache-enabled read returns a
    page of the table as the mutation left it (or fails with the database).
    When the mutation raises, finds no record or removes nothing, the redis
    content is untouched and no redis call is made. *)
Theorem committed_mutation_invalidates_cache :
  (forall m w r w' now,
      run_mutation m w = (Returns r, w') -> committed m r = true ->
      redis_link w 0 = Some now ->
      redis_db w' listing_key = None
      /\ (forall limit offset,
             db_link w' 0 = false ->
             fst (get_all_templates true limit offset w')
             = Returns (list_response "db" (page limit offset w') limit offset))
      /\ (valid_rows (table w') = true ->
          forall reads, Forall (answers_from (table w')) (fst (run_reads reads w'))))
  /\ (forall m w out w',
         run_mutation m w = (out, w') ->
         (forall r, out = Returns r -> committed m r = false) ->
         redis_db w' = redis_db w /\ redis_link w' = redis_link w).
Proof.
  split; [ | exact uncommitted_leaves_cache ].
  intros m w r w' now Hrun Hcommitted Hlink.
  pose proof (committed_clears_cache m w r w' now Hrun Hcommitted Hlink) as Hnone.
  split; [ exact Hnone | split ].
  - intros limit offset Hdb.
    rewrite get_all_templates_cached; cbv zeta.
    unfold cache_view; rewrite Hnone; cbn [live].
    destruct (redis_link w' 0); cbn [truthy]; rewrite Hdb; reflexivity.
  - intros Hvalid reads; apply reads_answer_from_table; [ assumption | ].
    left; exact Hnone.
Qed.

Lemma committed_mutation_invalidates_cache_witness :
  redis_db
    (snd (run_mutation (Delete 0%N)
            (Sample.caching
               (json_dumps (PList (map model_dump (page 100 0 (Sample.stocked 1)))))
               (Sample.stocked 1))))
    listing_key = None.
Proof.
  set (w := Sample.caching _ _).
  assert (run_mutation (Delete 0%N) w
          = (Returns (Deleted true), snd (run_mutation (Delete 0%N) w))) as Hrun
      by (vm_compute; reflexivity).
  assert (redis_link w 0 = Some 0%Z) as Hlink by reflexivity.
  exact (proj1 (proj1 committed_mutation_invalidates_cache (Delete 0%N) w (Deleted true)
                      (snd (run_mutation (Delete 0%N) w)) 0%Z Hrun eq_refl Hlink)).
Defined.

(** * Further properties of the repository, the service and the routes *)

(** ** The repository operations, as equations *)

Lemma create_eq entity w :
  let inserted := with_table (table w ++ [entity]) (db_advance w) in
  create entity w =
  if db_link w 0 then (Raises DBAPIError, db_advance w)
  else if has_row (TemplateItem.id entity) (table w)
       then (Raises IntegrityError, db_advance w)
  else if db_link w 1 then (Raises DBAPIError, db_advance inserted)
  else (Returns entity, db_advance inserted).
Proof.
  intros inserted; unfold create, commit_insert, refresh.
  unfold bind at 1 2; rewrite db_roundtrip_eq.
  destruct (db_link w 0) eqn:D0; simpl; [ reflexivity | ].
  destruct (has_row (TemplateItem.id entity) (table w)) eqn:Hfresh; simpl; [ reflexivity | ].
  unfold bind at 1 2; rewrite db_roundtrip_eq; simpl.
  change (shift (db_link w) 0) with (db_link w 1).
  destruct (db_link w 1) eqn:D1; simpl; [ reflexivity | ].
  rewrite (find_row_fresh _ _ entity Hfresh eq_refl); reflexivity.
Qed.

Lemma session_get_eq i w :
  session_get i w =
  if db_link w 0 then (Raises DBAPIError, db_advance w)
  else (Returns (find_row i (table w)), db_advance w).
Proof.
  unfold session_get, bind; rewrite db_roundtrip_eq; destruct (db_link w 0); reflexivity.
Qed.

Lemma exists_eq i w :
  exists_ i w =
  if db_link w 0 then (Raises DBAPIError, db_advance w)
  else (Returns (has_row i (table w)), db_advance w).
Proof.
  unfold exists_, bind at 1; rewrite session_get_eq.
  destruct (db_link w 0); [ reflexivity | ].
  unfold ret, find_row, has_row; simpl; f_equal; f_equal.
  induction (table w) as [ | r rows IH ]; simpl; [ reflexivity | ].
  destruct (TemplateItem.id r =? i)%N; auto.
Qed.

Lemma delete_by_id_eq entity_id w :
  delete_by_id entity_id w =
  if db_link w 0 then (Raises DBAPIError, db_advance w)
  else if db_link w 1 then (Raises DBAPIError, db_advance (db_advance w))
  else (Returns (has_row entity_id (table w)),
        with_table (filter (fun r => negb (TemplateItem.id r =? entity_id)%N) (table w))
                   (db_advance (db_advance w))).
Proof.
  unfold delete_by_id, bind at 1; rewrite db_roundtrip_eq.
  destruct (db_link w 0) eqn:D0; simpl; [ reflexivity | ].
  unfold bind at 1 2; rewrite db_roundtrip_eq; simpl.
  change (shift (db_link w) 0) with (db_link w 1).
  destruct (db_link w 1) eqn:D1; simpl; [ reflexivity | ].
  unfold bind, ret; rewrite rowcount_positive; reflexivity.
Qed.

Lemma find_all_eq limit offset criteria w :
  find_all limit offset criteria w =
  match print_fields criteria with
  | Raises e => (Raises e, w)
  | Returns _ =>
    if db_link w 0 then (Raises DBAPIError, db_advance w)
    else (Returns (firstn (default 100 limit)
                          (skipn (default 0 offset)
                                 (filter (where_all criteria) (table w)))),
          db_advance w)
  end.
Proof.
  unfold find_all, bind at 1, lift.
  destruct (print_fields criteria); [ | reflexivity ].
  unfold bind; rewrite db_roundtrip_eq; destruct (db_link w 0); reflexivity.
Qed.

(** ** Lists of rows *)

Lemma has_row_app i rows more :
  has_row i (rows ++ more) = has_row i rows || has_row i more.
Proof. unfold has_row; apply existsb_app. Qed.

Lemma has_row_find i rows :
  has_row i rows = match find_row i rows with Some _ => true | None => false end.
Proof.
  unfold has_row, find_row; induction rows as [ | r rows IH ]; simpl; [ reflexivity | ].
  destruct (TemplateItem.id r =? i)%N; auto.
Qed.

Lemma find_row_app_other i rows e :
  i <> TemplateItem.id e -> find_row i (rows ++ [e]) = find_row i rows.
Proof.
  unfold find_row; intros H; induction rows as [ | r rows IH ]; simpl.
  - assert ((TemplateItem.id e =? i)%N = false) as -> by (apply N.eqb_neq; congruence).
    reflexivity.
  - destruct (TemplateItem.id r =? i)%N; auto.
Qed.

Lemma has_row_removed i rows :
  has_row i (filter (fun r => negb (TemplateItem.id r =? i)%N) rows) = false.
Proof.
  unfold has_row; induction rows as [ | r rows IH ]; simpl; [ reflexivity | ].
  destruct (TemplateItem.id r =? i)%N eqn:E; simpl; [ assumption | ].
  rewrite E; assumption.
Qed.

Lemma find_row_removed_other i j rows :
  j <> i ->
  find_row j (filter (fun r => negb (TemplateItem.id r =? i)%N) rows) = find_row j rows.
Proof.
  unfold find_row; intros H; induction rows as [ | r rows IH ]; simpl; [ reflexivity | ].
  destruct (TemplateItem.id r =? i)%N eqn:E; simpl.
  - apply N.eqb_eq in E.
    assert ((TemplateItem.id r =? j)%N = false) as -> by (apply N.eqb_neq; congruence).
    assumption.
  - destruct (TemplateItem.id r =? j)%N; auto.
Qed.

Lemma filter_absent i rows :
  has_row i rows = false ->
  filter (fun r => negb (TemplateItem.id r =? i)%N) rows = rows.
Proof.
  unfold has_row; induction rows as [ | r rows IH ]; simpl; [ reflexivity | ].
  intros H; apply orb_false_iff in H; destruct H as [-> H]; simpl; f_equal; auto.
Qed.

Lemma has_row_filter i (f : TemplateItem.t -> bool) rows :
  has_row i rows = false -> has_row i (filter f rows) = false.
Proof.
  unfold has_row; induction rows as [ | r rows IH ]; simpl; [ reflexivity | ].
  intros H; apply orb_false_iff in H; destruct H as [H1 H2].
  destruct (f r); simpl; [ rewrite H1 | ]; auto.
Qed.

Lemma replace_row_cons i new r rows :
  replace_row i new (r :: rows)
  = if (TemplateItem.id r =? i)%N then new :: rows else r :: replace_row i new rows.
Proof. reflexivity. Qed.

Lemma map_id_replace_row i new rows :
  TemplateItem.id new = i ->
  map TemplateItem.id (replace_row i new rows) = map TemplateItem.id rows.
Proof.
  intros H; induction rows as [ | r rows IH ]; [ reflexivity | ].
  rewrite replace_row_cons.
  destruct (TemplateItem.id r =? i)%N eqn:E; simpl.
  - apply N.eqb_eq in E; congruence.
  - f_equal; exact IH.
Qed.

Lemma has_row_ids i rows :
  has_row i rows = existsb (fun j => (j =? i)%N) (map TemplateItem.id rows).
Proof.
  unfold has_row; induction rows as [ | r rows IH ]; simpl; [ reflexivity | ].
  rewrite IH; reflexivity.
Qed.

Lemma unique_ids_by_ids rows rows' :
  map TemplateItem.id rows = map TemplateItem.id rows' ->
  unique_ids rows = unique_ids rows'.
Proof.
  revert rows'; induction rows as [ | r rows IH ]; intros [ | r' rows' ] H;
    try discriminate; [ reflexivity | ].
  simpl in H; injection H as Hid Hrest; simpl.
  rewrite (has_row_ids _ rows), (has_row_ids _ rows'), Hid, Hrest, (IH rows' Hrest).
  reflexivity.
Qed.

Lemma unique_ids_app rows e :
  unique_ids rows = true -> has_row (TemplateItem.id e) rows = false ->
  unique_ids (rows ++ [e]) = true.
Proof.
  induction rows as [ | r rows IH ]; simpl; intros H Hfresh; [ reflexivity | ].
  apply andb_true_iff in H; destruct H as [H1 H2].
  unfold has_row in Hfresh; simpl in Hfresh.
  apply orb_false_iff in Hfresh; destruct Hfresh as [Hne Hfresh].
  rewrite has_row_app; apply negb_true_iff in H1; rewrite H1; simpl.
  unfold has_row at 1; simpl.
  rewrite N.eqb_sym, Hne; simpl; apply IH; assumption.
Qed.

Lemma unique_ids_filter (f : TemplateItem.t -> bool) rows :
  unique_ids rows = true -> unique_ids (filter f rows) = true.
Proof.
  induction rows as [ | r rows IH ]; simpl; intros H; [ reflexivity | ].
  apply andb_true_iff in H; destruct H as [H1 H2]; apply negb_true_iff in H1.
  destruct (f r); simpl; auto.
  rewrite (has_row_filter _ f _ H1); simpl; auto.
Qed.

Lemma firstn_skipn_tile {A} (a b o : nat) (l : list A) :
  firstn a (skipn o l) ++ firstn b (skipn (o + a) l) = firstn (a + b) (skipn o l).
Proof.
  rewrite Nat.add_comm, <- skipn_skipn.
  generalize (skipn o l) as m; clear l o.
  induction a as [ | a IH ]; intros m; simpl; [ reflexivity | ].
  destruct m as [ | x m ]; simpl; [ now rewrite firstn_nil | ].
  f_equal; apply IH.
Qed.

Lemma in_firstn {A} (x : A) n l : In x (firstn n l) -> In x l.
Proof.
  revert l; induction n as [ | n IH ]; intros [ | y l ] H; simpl in *; try contradiction.
  destruct H as [H | H]; [ left; exact H | right; apply IH; exact H ].
Qed.

(** ** X1: create and lookup *)

(** X1. A row that [create] returned is the entity given; its id was not in
    the table before, the table now holds the former rows and the entity
    (each as often as before, in whatever order), [get_by_id], [find_by_id]
    and [exists] find the entity under its id, and every other id is found as
    before. *)
Theorem create_then_get_by_id :
  forall entity w e w1,
    create entity w = (Returns e, w1) ->
    e = entity
    /\ has_row (TemplateItem.id entity) (table w) = false
    /\ Permutation (table w1) (entity :: table w)
    /\ (db_link w1 0 = false ->
        fst (get_by_id (TemplateItem.id entity) w1) = Returns (Some entity)
        /\ fst (find_by_id (TemplateItem.id entity) w1) = Returns (Some entity)
        /\ fst (exists_ (TemplateItem.id entity) w1) = Returns true)
    /\ (forall other, other <> TemplateItem.id entity ->
                      find_row other (table w1) = find_row other (table w)).
Proof.
  intros entity w e w1 H; rewrite create_eq in H; cbv zeta in H.
  destruct (db_link w 0); [ discriminate | ].
  destruct (has_row (TemplateItem.id entity) (table w)) eqn:Hfresh; [ discriminate | ].
  destruct (db_link w 1); [ discriminate | ].
  injection H as <- <-; simpl.
  split; [ reflexivity | split; [ reflexivity | split; [ | split ] ] ].
  - apply Permutation_sym, Permutation_cons_append.
  - intros D; unfold find_by_id, get_by_id.
    rewrite exists_eq, session_get_eq; simpl in *; rewrite D; simpl.
    rewrite (find_row_fresh _ _ entity Hfresh eq_refl), has_row_app, Hfresh.
    unfold has_row; simpl; rewrite N.eqb_refl; auto.
  - intros other Hother; apply find_row_app_other; assumption.
Qed.

Lemma create_then_get_by_id_witness :
  fst (get_by_id 7%N (snd (create (Sample.row 7) (Sample.stocked 2))))
  = Returns (Some (Sample.row 7)).
Proof.
  refine (proj1 (proj1 (proj2 (proj2 (proj2
            (create_then_get_by_id (Sample.row 7) (Sample.stocked 2) (Sample.row 7)
               (snd (create (Sample.row 7) (Sample.stocked 2))) _)))) _)); reflexivity.
Defined.

(** ** X2: create never overwrites *)

(** X2. When a row of the entity's id exists and the database answers, [create]
    raises the integrity error and the table is as it was; the old row is
    still the one found. *)
Theorem create_refuses_existing_id :
  forall entity w old,
    find_row (TemplateItem.id entity) (table w) = Some old ->
    db_link w 0 = false ->
    fst (create entity w) = Raises IntegrityError
    /\ table (snd (create entity w)) = table w.
Proof.
  intros entity w old Hold D; rewrite create_eq, D; cbv zeta.
  rewrite has_row_find, Hold; split; reflexivity.
Qed.

Lemma create_refuses_existing_id_witness :
  fst (create (Sample.row 1) (Sample.stocked 2)) = Raises IntegrityError.
Proof.
  refine (proj1 (create_refuses_existing_id (Sample.row 1) (Sample.stocked 2)
                                            (Sample.row 1) _ _)); reflexivity.
Defined.

(** ** X3: delete and lookup *)

(** X3. When [delete_by_id] returns, its result tells whether a row of that id
    existed; no row of that id is left, [exists] answers False, every other
    id is found as before, and a second [delete_by_id] returns False and
    leaves the table as it is. *)
Theorem delete_by_id_removes :
  forall entity_id w removed w1,
    delete_by_id entity_id w = (Returns removed, w1) ->
    removed = has_row entity_id (table w)
    /\ has_row entity_id (table w1) = false
    /\ (forall other, other <> entity_id ->
                      find_row other (table w1) = find_row other (table w))
    /\ (db_link w1 0 = false -> fst (exists_ entity_id w1) = Returns false)
    /\ (db_link w1 0 = false -> db_link w1 1 = false ->
        fst (delete_by_id entity_id w1) = Returns false
        /\ table (snd (delete_by_id entity_id w1)) = table w1).
Proof.
  intros entity_id w removed w1 H; rewrite delete_by_id_eq in H.
  destruct (db_link w 0); [ discriminate | ].
  destruct (db_link w 1); [ discriminate | ].
  injection H as <- <-.
  split; [ reflexivity | ].
  split; [ apply has_row_removed | ].
  split; [ intros other Hother; apply find_row_removed_other; assumption | ].
  split.
  - intros D; rewrite exists_eq, D; simpl; rewrite has_row_removed; reflexivity.
  - intros D0 D1; rewrite delete_by_id_eq, D0, D1; simpl.
    rewrite has_row_removed; split; [ reflexivity | ].
    apply filter_absent, has_row_removed.
Qed.

Lemma delete_by_id_removes_witness :
  fst (exists_ 1%N (snd (delete_by_id 1%N (Sample.stocked 2)))) = Returns false.
Proof.
  refine (proj1 (proj2 (proj2 (proj2
            (delete_by_id_removes 1%N (Sample.stocked 2) true
               (snd (delete_by_id 1%N (Sample.stocked 2))) _)))) _); reflexivity.
Defined.

(** ** X4: the pages of [get_all] tile the table *)

(** X4. Two consecutive pages are together the page of their joint size: with
    the database answering, [get_all(limit=a, offset=o)] followed by
    [get_all(limit=b, offset=o+a)] gives what [get_all(limit=a+b, offset=o)]
    gives, and an offset at or past the end gives the empty list. *)
Theorem get_all_pages_tile :
  forall a b o w,
    db_link w 0 = false -> db_link w 1 = false ->
    exists p1 w1 p2 w2,
      get_all (Some a) (Some o) w = (Returns p1, w1)
      /\ get_all (Some b) (Some (o + a)) w1 = (Returns p2, w2)
      /\ fst (get_all (Some (a + b)) (Some o) w) = Returns (p1 ++ p2)
      /\ table w2 = table w
      /\ (length (table w) <= o -> p1 = []).
Proof.
  intros a b o w D0 D1.
  exists (firstn a (skipn o (table w))), (db_advance w),
    (firstn b (skipn (o + a) (table w))), (db_advance (db_advance w)).
  rewrite !get_all_eq, D0; simpl.
  change (shift (db_link w) 0) with (db_link w 1); rewrite D1.
  split; [ reflexivity | split; [ reflexivity | split; [ | split ] ] ].
  - rewrite firstn_skipn_tile; reflexivity.
  - reflexivity.
  - intros Ho; rewrite skipn_all2 by assumption; apply firstn_nil.
Qed.

Lemma get_all_pages_tile_witness :
  exists p1 w1 p2 w2,
    get_all (Some 2) (Some 1) (Sample.stocked 5) = (Returns p1, w1)
    /\ get_all (Some 1) (Some (1 + 2)) w1 = (Returns p2, w2)
    /\ fst (get_all (Some (2 + 1)) (Some 1) (Sample.stocked 5)) = Returns (p1 ++ p2)
    /\ table w2 = table (Sample.stocked 5)
    /\ (length (table (Sample.stocked 5)) <= 1 -> p1 = []).
Proof.
  apply (get_all_pages_tile 2 1 1 (Sample.stocked 5)); reflexivity.
Defined.

(** ** What a mutation does to the table *)

Lemma update_template_empty template_id request w :
  sets_a_field request = false ->
  update_template template_id request w = update_template template_id Sample.nothing w.
Proof. destruct request as [[t | ] [b | ] [s | ]]; try discriminate; reflexivity. Qed.

(** The table after a mutation, whether it returned or raised: as it was,
    or with the new row at its end, or with the row of the id replaced by
    its patched version, or without the rows of the id. *)
Lemma table_after_mutation m w :
  let rows := table (snd (run_mutation m w)) in
  rows = table w
  \/ (exists request entity,
         m = Create request /\ TemplateItem.id entity = entropy w 0
         /\ TemplateItem.title entity = TemplateCreateRequest.title request
         /\ has_row (entropy w 0) (table w) = false /\ rows = table w ++ [entity])
  \/ (exists template_id request old,
         m = Update template_id request /\ find_row template_id (table w) = Some old
         /\ rows = replace_row template_id (patched request (clock w 0) old) (table w))
  \/ (exists template_id,
         m = Delete template_id
         /\ rows = filter (fun r => negb (TemplateItem.id r =? template_id)%N) (table w)).
Proof.
  cbv zeta; rewrite run_mutation_eq.
  destruct m as [request | template_id request | template_id].
  - rewrite create_template_eq; cbv zeta.
    destruct (db_link w 0); [ left; reflexivity | ].
    destruct (has_row _ _) eqn:Hfresh; [ left; reflexivity | ].
    right; left; exists request.
    exists {| TemplateItem.id := entropy w 0;
              TemplateItem.title := TemplateCreateRequest.title request;
              TemplateItem.body := TemplateCreateRequest.body request;
              TemplateItem.status := TemplateCreateRequest.status request;
              TemplateItem.created_at := clock w 0;
              TemplateItem.updated_at := clock w 1 |}.
    repeat (split; [ reflexivity | ]).
    destruct (db_link w 1); cbn [snd]; [ | rewrite table_after_invalidate ]; reflexivity.
  - destruct (sets_a_field request) eqn:Hset.
    + destruct (printable_update request) eqn:Hprint.
      * rewrite update_template_eq by assumption; cbv zeta.
        destruct (db_link w 0); [ left; reflexivity | ].
        destruct (find_row _ _) as [old | ] eqn:Hold; [ | left; reflexivity ].
        destruct (db_link w 1); [ left; reflexivity | ].
        right; right; left; exists template_id, request, old.
        split; [ reflexivity | split; [ first [ exact Hold | reflexivity ] | ] ].
        destruct (db_link w 2); cbn [snd]; [ | rewrite table_after_invalidate ];
          reflexivity.
      * left; rewrite update_template_unprintable by assumption; cbv zeta.
        destruct (db_link w 0); reflexivity.
    + left; rewrite update_template_empty by assumption.
      pose proof (update_template_nothing template_id w) as (H & _).
      destruct (update_template template_id Sample.nothing w) as [[u | e] w1]; exact H.
  - rewrite delete_template_eq; cbv zeta.
    destruct (db_link w 0); [ left; reflexivity | ].
    destruct (db_link w 1); [ left; reflexivity | ].
    right; right; right; exists template_id; split; [ reflexivity | ].
    destruct (has_row _ _); cbn [snd]; [ rewrite table_after_invalidate | ]; reflexivity.
Qed.

(** ** X5: ids stay unique *)

(** X5. When no two rows share an id, no two rows share an id after any create,
    update or delete of the service, whether it returned or raised. *)
Theorem mutations_keep_ids_unique :
  forall m w,
    unique_ids (table w) = true ->
    unique_ids (table (snd (run_mutation m w))) = true.
Proof.
  intros m w H.
  destruct (table_after_mutation m w)
    as [-> | [(request & entity & _ & Hid & _ & Hfresh & ->)
           | [(template_id & request & old & _ & Hold & ->) | (template_id & _ & ->)]]].
  - exact H.
  - apply unique_ids_app; [ exact H | rewrite Hid; exact Hfresh ].
  - rewrite <- H; apply unique_ids_by_ids, map_id_replace_row.
    simpl; eapply find_row_id; exact Hold.
  - apply unique_ids_filter; exact H.
Qed.

Lemma mutations_keep_ids_unique_witness :
  unique_ids (table (snd (run_mutation (Create Sample.create_X) (Sample.stocked 3)))) = true.
Proof.
  apply (mutations_keep_ids_unique (Create Sample.create_X) (Sample.stocked 3)).
  reflexivity.
Defined.

(** ** X6: a mutation adds or removes at most its own id *)

(** X6. The ids of the table, up to their order: a create leaves them or adds
    the one new id, which no row had; an update never changes them; a delete
    leaves them or takes out the deleted id and nothing else. *)
Theorem mutations_change_one_id :
  forall m w,
    let ids := map TemplateItem.id (table w) in
    let ids' := map TemplateItem.id (table (snd (run_mutation m w))) in
    match m with
    | Create _ =>
      Permutation ids' ids
      \/ (has_row (entropy w 0) (table w) = false
          /\ Permutation ids' (entropy w 0 :: ids))
    | Update _ _ => Permutation ids' ids
    | Delete template_id =>
      Permutation ids' ids
      \/ Permutation ids' (filter (fun i => negb (i =? template_id)%N) ids)
    end.
Proof.
  intros m w; cbv zeta.
  destruct (table_after_mutation m w)
    as [-> | [(request & entity & -> & Hid & _ & Hfresh & ->)
           | [(template_id & request & old & -> & Hold & ->) | (template_id & -> & ->)]]].
  - destruct m; auto.
  - right; split; [ exact Hfresh | ].
    rewrite map_app, <- Hid; apply Permutation_sym, Permutation_cons_append.
  - rewrite map_id_replace_row by (simpl; eapply find_row_id; exact Hold).
    apply Permutation_refl.
  - right; induction (table w) as [ | r rows IH ]; simpl; [ constructor | ].
    destruct (TemplateItem.id r =? template_id)%N; simpl;
      [ | apply perm_skip ]; exact IH.
Qed.

(** ** X7: a mutation that fails after its commit *)

(** X7. When the commit of a create or of an update is taken and the refresh
    that follows fails, the operation raises although the table holds the
    new or changed row, and the listing cache is not invalidated: the redis
    content is as before and no redis call was made.  An update reaches its
    commit when the title and body it sets can be printed; when one cannot,
    the print of the update loop raises first, nothing is written and the
    update returns None. *)
Theorem refresh_failure_after_commit :
  (forall request w,
      db_link w 0 = false -> has_row (entropy w 0) (table w) = false ->
      db_link w 1 = true ->
      let w' := snd (create_template request w) in
      fst (create_template request w) = Raises DBAPIError
      /\ has_row (entropy w 0) (table w') = true
      /\ length (table w') = S (length (table w))
      /\ redis_db w' = redis_db w /\ redis_link w' = redis_link w)
  /\ (forall template_id request w old,
         sets_a_field request = true -> find_row template_id (table w) = Some old ->
         db_link w 0 = false -> db_link w 1 = false -> db_link w 2 = true ->
         let w' := snd (update_template template_id request w) in
         (printable_update request = true ->
          fst (update_template template_id request w) = Raises DBAPIError
          /\ find_row template_id (table w') = Some (patched request (clock w 0) old))
         /\ (printable_update request = false ->
             fst (update_template template_id request w) = Returns None
             /\ table w' = table w)
         /\ redis_db w' = redis_db w /\ redis_link w' = redis_link w).
Proof.
  split.
  - intros request w D0 Hfresh D1; cbv zeta.
    rewrite create_template_eq; cbv zeta; rewrite D0, Hfresh, D1; cbn [fst snd].
    split; [ reflexivity | ].
    split; [ | split; [ | split; reflexivity ] ].
    + cbn [table with_table db_advance with_db_link].
      rewrite has_row_app; unfold has_row at 2; simpl.
      rewrite N.eqb_refl; apply orb_true_r.
    + cbn [table with_table db_advance with_db_link].
      rewrite length_app; simpl; lia.
  - intros template_id request w old Hset Hold D0 D1 D2; cbv zeta.
    destruct (printable_update request) eqn:Hprint.
    + rewrite update_template_eq by assumption; cbv zeta.
      rewrite D0, Hold, D1, D2; cbn [fst snd].
      split; [ | split; [ discriminate | split; reflexivity ] ].
      intros _; split; [ reflexivity | ].
      cbn [table with_table db_advance with_db_link].
      apply find_row_replaced with (old := old); [ exact Hold | ].
      simpl; eapply find_row_id; exact Hold.
    + rewrite update_template_unprintable by assumption; cbv zeta.
      rewrite D0; cbn [fst snd].
      split; [ discriminate | split; [ | split; reflexivity ] ].
      intros _; split; reflexivity.
Qed.

Lemma refresh_failure_after_commit_witness :
  fst (create_template Sample.create_X
         (with_db_link (fun n => Nat.eqb n 1) (Sample.stocked 1)))
  = Raises DBAPIError
  /\ length (table (snd (create_template Sample.create_X
                           (with_db_link (fun n => Nat.eqb n 1) (Sample.stocked 1)))))
     = 2.
Proof.
  pose proof (proj1 refresh_failure_after_commit Sample.create_X
                    (with_db_link (fun n => Nat.eqb n 1) (Sample.stocked 1))
                    eq_refl eq_refl eq_refl) as H.
  split; [ apply H | apply H ].
Defined.

(** ** X8: templates by status *)

Lemma where_status s r :
  where_all [(txt "status", PStr (status_value s))] r = has_status s r.
Proof. reflexivity. Qed.

Lemma print_status s :
  print_fields [(txt "status", PStr (status_value s))] = Returns tt.
Proof. destruct s; reflexivity. Qed.

Lemma has_status_eq s r : has_status s r = true <-> TemplateItem.status r = s.
Proof.
  unfold has_status; destruct (TemplateItem.status r), s; simpl; split;
    intros H; congruence.
Qed.

(** X8. Given the name of a status and a database that answers,
    [find_templates_by_status] returns the first 100 rows of that status in
    table order and no other: every template returned has the status asked
    for, there are as many as rows of that status but never more than 100,
    and neither the table nor redis is touched.  The route answers 200 with
    the same list. *)
Theorem find_templates_by_status_result :
  forall s w,
    db_link w 0 = false ->
    let matching := filter (has_status s) (table w) in
    exists templates w',
      find_templates_by_status (status_value s) w = (Returns templates, w')
      /\ templates = map model_validate_item (firstn 100 matching)
      /\ Forall (fun t => TemplateResponse.status t = s) templates
      /\ length templates = Nat.min 100 (length matching)
      /\ table w' = table w /\ redis_db w' = redis_db w /\ redis_link w' = redis_link w
      /\ template_router.GET_templates_by_status (status_value s) w
         = (template_router.Response 200 (Some templates), w').
Proof.
  intros s w D matching.
  exists (map model_validate_item (firstn 100 matching)), (db_advance w).
  assert (find_templates_by_status (status_value s) w
          = (Returns (map model_validate_item (firstn 100 matching)), db_advance w)) as E.
  { unfold find_templates_by_status, find_by_status, bind; rewrite find_all_eq, print_status, D.
    unfold ret, matching; simpl default; cbn [skipn].
    rewrite (filter_ext _ _ (where_status s)); reflexivity. }
  split; [ exact E | split; [ reflexivity | split; [ | split ] ] ].
  - apply Forall_forall; intros t Ht.
    apply in_map_iff in Ht; destruct Ht as (r & <- & Hr).
    apply in_firstn in Hr; apply filter_In in Hr; destruct Hr as [_ Hr].
    apply has_status_eq in Hr; exact Hr.
  - rewrite length_map, length_firstn; reflexivity.
  - repeat (split; [ reflexivity | ]).
    unfold template_router.GET_templates_by_status, template_router.serve,
      template_router.get_templates_by_status, template_router.try_, template_router.await.
    rewrite E; reflexivity.
Qed.

Lemma find_templates_by_status_result_witness :
  exists templates w',
    find_templates_by_status (txt "DRAFT") (Sample.stocked 101) = (Returns templates, w')
    /\ length templates = 100.
Proof.
  destruct (find_templates_by_status_result DRAFT (Sample.stocked 101) eq_refl)
    as (templates & w' & E & _ & _ & L & _).
  exists templates, w'; split; [ exact E | ].
  rewrite L; vm_compute; reflexivity.
Defined.

(** ** X9: reads do not write *)

(** X9. No read of the service changes the table, reads a clock or draws an id.
    A listing with use_cache=False, a lookup by id and a listing by status do
    not touch redis either: its content is as before and no redis call is
    made, whatever the cache holds. *)
Theorem reads_do_not_write :
  forall w,
    (forall use_cache limit offset,
        let w' := snd (get_all_templates use_cache limit offset w) in
        table w' = table w /\ clock w' = clock w /\ entropy w' = entropy w)
    /\ (forall limit offset,
           let w' := snd (get_all_templates false limit offset w) in
           redis_db w' = redis_db w /\ redis_link w' = redis_link w)
    /\ (forall template_id,
           let w' := snd (get_template_by_id template_id w) in
           table w' = table w /\ clock w' = clock w /\ entropy w' = entropy w
           /\ redis_db w' = redis_db w /\ redis_link w' = redis_link w)
    /\ (forall status,
           let w' := snd (find_templates_by_status status w) in
           table w' = table w /\ clock w' = clock w /\ entropy w' = entropy w
           /\ redis_db w' = redis_db w /\ redis_link w' = redis_link w).
Proof.
  intros w; split; [ | split; [ | split ] ].
  - intros [ | ] limit offset; cbv zeta.
    + rewrite get_all_templates_cached; cbv zeta.
      destruct (truthy _).
      * destruct (try! items <- py_iter _; comprehension model_validate items);
          repeat split; reflexivity.
      * destruct (db_link w 0); [ repeat split; reflexivity | ].
        rewrite set_templates_cache_eq; cbn [snd].
        destruct (redis_link _ 0); repeat split; reflexivity.
    + rewrite get_all_templates_uncached; destruct (db_link w 0); repeat split; reflexivity.
  - intros limit offset; cbv zeta.
    rewrite get_all_templates_uncached; destruct (db_link w 0); split; reflexivity.
  - intros template_id; cbv zeta.
    unfold get_template_by_id, get_by_id, bind; rewrite session_get_eq.
    destruct (db_link w 0); repeat split; reflexivity.
  - intros status; cbv zeta.
    unfold find_templates_by_status, find_by_status, bind; rewrite find_all_eq.
    destruct (print_fields _); [ | repeat split; reflexivity ].
    destruct (db_link w 0); repeat split; reflexivity.
Qed.

(** ** X10: the cached listing lives for 30 seconds *)

Lemma page_valid limit offset w :
  valid_rows (table w) = true -> forallb valid_snapshot (page limit offset w) = true.
Proof. intros H; exact (page_of_valid (table w) limit offset H). Qed.

(** The world after a cache-enabled read that was answered from the table,
    with the redis write served at server time [written]. *)
Lemma world_after_db_read limit offset w response written :
  fst (get_all_templates true limit offset w) = Returns response ->
  TemplateListResponse.source response = txt "db" ->
  redis_link w 1 = Some written ->
  snd (get_all_templates true limit offset w)
  = store_key listing_key
      (Some (json_dumps (PList (map model_dump (page limit offset w))),
             (written + 30000)%Z))
      (redis_advance (db_advance (redis_advance w))).
Proof.
  rewrite get_all_templates_cached; cbv zeta.
  destruct (truthy _).
  - destruct (try! items <- py_iter _; comprehension model_validate items);
      cbn [fst]; intros H; [ | discriminate ].
    injection H as <-; intros H; discriminate H.
  - destruct (db_link w 0); cbn [fst snd]; [ discriminate | ].
    intros _ _ Hlink; rewrite set_templates_cache_eq; cbn [snd].
    change (redis_link (db_advance (redis_advance w)) 0) with (redis_link w 1).
    rewrite Hlink; reflexivity.
Qed.

(** X10. After a cache-enabled listing read was answered from the table with a
    page that is not empty, and redis took the write at server time
    [written], the next cache-enabled read, whatever limit and offset it asks
    for, is answered with that same page and source "redis" while the server
    time of its lookup is before [written] + 30 s; the answer leaves the
    entry and its expiry as they are.  From [written] + 30 s on the read goes
    to the table again and returns the page it asked for. *)
Theorem cached_listing_expires_after_30s :
  forall limit offset w response written limit' offset' now,
    valid_rows (table w) = true ->
    fst (get_all_templates true limit offset w) = Returns response ->
    TemplateListResponse.source response = txt "db" ->
    TemplateListResponse.templates response <> [] ->
    redis_link w 1 = Some written ->
    redis_link w 2 = Some now ->
    let w1 := snd (get_all_templates true limit offset w) in
    ((now < written + 30000)%Z ->
     get_all_templates true limit' offset' w1
     = (Returns (list_response "redis" (TemplateListResponse.templates response)
                               limit' offset'),
        redis_advance w1))
    /\ ((written + 30000 <= now)%Z -> db_link w1 0 = false ->
        fst (get_all_templates true limit' offset' w1)
        = Returns (list_response "db" (page limit' offset' w) limit' offset')).
Proof.
  intros limit offset w response written limit' offset' now
         Hvalid Hread Hsource Hsome Hset Hget w1.
  assert (TemplateListResponse.templates response = page limit offset w) as Hpage.
  { revert Hread Hsource; rewrite get_all_templates_cached; cbv zeta.
    destruct (truthy _).
    - destruct (try! items <- py_iter _; comprehension model_validate items);
        cbn [fst]; intros H; [ | discriminate ].
      injection H as <-; intros H; discriminate H.
    - destruct (db_link w 0); cbn [fst]; [ discriminate | ].
      intros H _; injection H as <-; reflexivity. }
  rewrite Hpage in *.
  pose proof (world_after_db_read limit offset w response written Hread Hsource Hset) as Hw1.
  fold w1 in Hw1.
  assert (redis_link w1 0 = Some now) as Hnow by (rewrite Hw1; exact Hget).
  assert (redis_db w1 listing_key
          = Some (json_dumps (PList (map model_dump (page limit offset w))),
                  (written + 30000)%Z)) as Hentry by (rewrite Hw1; reflexivity).
  assert (table w1 = table w) as Htable by (rewrite Hw1; reflexivity).
  split.
  - intros Hfresh.
    rewrite get_all_templates_cached; cbv zeta.
    rewrite Hnow; unfold cache_view; rewrite Hentry; cbn [live].
    apply Z.ltb_lt in Hfresh; rewrite Hfresh.
    cbn [json_dumps].
    change (91%N :: join (txt ", ") (map json_dumps (map model_dump (page limit offset w)))
               ++ [93%N])
      with (json_dumps (PList (map model_dump (page limit offset w)))).
    unfold decode_cached.
    rewrite json_loads_snapshots by (apply page_valid; assumption).
    cbn [py_iter obind].
    rewrite comprehension_cached_forms by (apply page_valid; assumption).
    destruct (page limit offset w) as [ | r rs ]; [ congruence | reflexivity ].
  - intros Hstale Hdb.
    rewrite get_all_templates_cached; cbv zeta.
    rewrite Hnow; unfold cache_view; rewrite Hentry; cbn [live].
    apply Z.ltb_ge in Hstale; rewrite Hstale; cbn [truthy].
    rewrite Hdb; cbn [fst]; unfold page; rewrite Htable; reflexivity.
Qed.

Lemma cached_listing_expires_after_30s_witness :
  get_all_templates true 100 0 (snd (get_all_templates true 1 1 (Sample.stocked 3)))
  = (Returns (list_response "redis" [model_validate_item (Sample.row 1)] 100 0),
     redis_advance (snd (get_all_templates true 1 1 (Sample.stocked 3)))).
Proof.
  refine (proj1 (cached_listing_expires_after_30s 1 1 (Sample.stocked 3)
                   (list_response "db" [model_validate_item (Sample.row 1)] 1 1)
                   1000%Z 100 0 2000%Z _ _ _ _ _ _) _);
    try reflexivity; try discriminate.
Defined.

(** ** X11: invalidating twice *)

(** X11. [invalidate_cache] changes no other key; on a key that holds nothing it
    changes nothing at all; once its delete was served the key holds
    nothing, so that invalidating again, served or not, changes nothing. *)
Theorem invalidate_cache_is_idempotent :
  forall key w,
    let w1 := snd (invalidate_cache key w) in
    (forall k, k <> key -> redis_db w1 k = redis_db w k)
    /\ (redis_db w key = None -> forall k, redis_db w1 k = redis_db w k)
    /\ (forall now, redis_link w 0 = Some now ->
                    redis_db w1 key = None
                    /\ forall k, redis_db (snd (invalidate_cache key w1)) k = redis_db w1 k).
Proof.
  assert (forall key w k,
             redis_db w key = None ->
             redis_db (snd (invalidate_cache key w)) k = redis_db w k) as Habsent.
  { intros key w k H; rewrite invalidate_cache_eq; cbn [snd].
    destruct (redis_link w 0); [ | reflexivity ].
    simpl; destruct (text_eqb k key) eqn:E; [ | reflexivity ].
    apply text_eqb_eq in E; subst k; symmetry; exact H. }
  intros key w w1; split; [ | split ].
  - intros k Hk; unfold w1; rewrite invalidate_cache_eq; cbn [snd].
    destruct (redis_link w 0); [ | reflexivity ].
    simpl; destruct (text_eqb k key) eqn:E; [ | reflexivity ].
    apply text_eqb_eq in E; congruence.
  - intros H k; apply Habsent; exact H.
  - intros now Hnow.
    assert (redis_db w1 key = None) as Hgone.
    { unfold w1; rewrite invalidate_cache_eq, Hnow; simpl.
      rewrite text_eqb_refl; reflexivity. }
    split; [ exact Hgone | intros k; apply Habsent; exact Hgone ].
Qed.

Lemma invalidate_cache_is_idempotent_witness :
  redis_db (snd (invalidate_cache listing_key
                   (Sample.caching (txt "[]") (Sample.stocked 1)))) listing_key
  = None.
Proof.
  apply (proj2 (proj2 (invalidate_cache_is_idempotent listing_key
                         (Sample.caching (txt "[]") (Sample.stocked 1)))) 0%Z).
  reflexivity.
Defined.

(** ** The routes, as equations *)

Ltac route :=
  unfold template_router.serve, template_router.unprocessable,
    template_router.get_template, template_router.create_template,
    template_router.update_template, template_router.delete_template,
    template_router.get_templates_by_status,
    template_router.try_, template_router.await, template_router.return_,
    template_router.raise_.

Lemma serve_get_template template_id w :
  template_router.serve 200 (template_router.get_template template_id) w =
  (if db_link w 0 then template_router.Response 500 None
   else match find_row template_id (table w) with
        | Some row => template_router.Response 200 (Some (model_validate_item row))
        | None => template_router.Response 404 None
        end,
   db_advance w).
Proof.
  route; unfold get_template_by_id, get_by_id, bind; rewrite session_get_eq.
  destruct (db_link w 0); [ reflexivity | ].
  destruct (find_row template_id (table w)); reflexivity.
Qed.

Lemma serve_create_template request w :
  template_router.serve 201 (template_router.create_template request) w =
  match create_template request w with
  | (Returns r, w') => (template_router.Response 201 (Some r), w')
  | (Raises _, w') => (template_router.Response 500 None, w')
  end.
Proof. route; destruct (create_template request w) as [[r | e] w']; reflexivity. Qed.

Lemma serve_update_template template_id request w :
  template_router.serve 200 (template_router.update_template template_id request) w =
  match update_template template_id request w with
  | (Returns (Some t), w') => (template_router.Response 200 (Some t), w')
  | (Returns None, w') => (template_router.Response 404 None, w')
  | (Raises _, w') => (template_router.Response 500 None, w')
  end.
Proof.
  route; destruct (update_template template_id request w) as [[[t | ] | e] w']; reflexivity.
Qed.

Lemma serve_delete_template template_id w :
  template_router.serve 204 (template_router.delete_template template_id) w =
  match delete_template template_id w with
  | (Returns true, w') => (template_router.Response 204 (Some tt), w')
  | (Returns false, w') => (template_router.Response 404 None, w')
  | (Raises _, w') => (template_router.Response 500 None, w')
  end.
Proof.
  route; destruct (delete_template template_id w) as [[[ | ] | e] w']; reflexivity.
Qed.

Lemma GET_template_eq path w :
  match parse_uuid path with
  | None => template_router.GET_template path w = (template_router.Response 422 None, w)
  | Some template_id =>
    template_router.GET_template path w =
    (if db_link w 0 then template_router.Response 500 None
     else match find_row template_id (table w) with
          | Some row => template_router.Response 200 (Some (model_validate_item row))
          | None => template_router.Response 404 None
          end,
     db_advance w)
  end.
Proof.
  unfold template_router.GET_template.
  destruct (parse_uuid path) as [template_id | ]; [ apply serve_get_template | reflexivity ].
Qed.

(** What a create that returned has made. *)
Lemma create_template_returned request w r w' :
  create_template request w = (Returns r, w') ->
  let t := TemplateCreateResponse.template r in
  TemplateResponse.title t = TemplateCreateRequest.title request
  /\ TemplateResponse.body t = TemplateCreateRequest.body request
  /\ TemplateResponse.status t = TemplateCreateRequest.status request
  /\ TemplateResponse.id t = entropy w 0
  /\ exists row, find_row (entropy w 0) (table w') = Some row /\ model_validate_item row = t.
Proof.
  rewrite create_template_eq; cbv zeta.
  destruct (db_link w 0); [ discriminate | ].
  destruct (has_row (entropy w 0) (table w)) eqn:Hfresh; [ discriminate | ].
  destruct (db_link w 1); [ discriminate | ].
  intros H; injection H as <- <-; cbn [TemplateCreateResponse.template].
  repeat (split; [ reflexivity | ]).
  eexists; split; [ | reflexivity ].
  rewrite table_after_invalidate; cbn [table with_table db_advance with_db_link].
  apply find_row_fresh; [ exact Hfresh | reflexivity ].
Qed.

(** ** X12: GET /test/template/{id} *)


(** ** X13: DELETE /test/template/{id} *)

(** X13. The route answers 204 when a row of the id existed and both database
    round trips succeeded, 404 when none existed, 500 when the database
    failed and 422 to a path that is no UUID.  After a 204 or a 404 no row
    has the id: a GET of the same path answers 404 and a second DELETE
    answers 404 as well. *)
Theorem DELETE_template_answers :
  forall path w,
    let answer := fst (template_router.DELETE_template path w) in
    let w1 := snd (template_router.DELETE_template path w) in
    match parse_uuid path with
    | None => answer = template_router.Response 422 None /\ w1 = w
    | Some template_id =>
      answer = (if db_link w 0 || db_link w 1 then template_router.Response 500 None
                else if has_row template_id (table w)
                     then template_router.Response 204 (Some tt)
                     else template_router.Response 404 None)
      /\ (template_router.status_code answer = 204
          \/ template_router.status_code answer = 404 ->
          has_row template_id (table w1) = false
          /\ (db_link w1 0 = false ->
              fst (template_router.GET_template path w1) = template_router.Response 404 None)
          /\ (db_link w1 0 = false -> db_link w1 1 = false ->
              fst (template_router.DELETE_template path w1)
              = template_router.Response 404 None))
    end.
Proof.
  intros path w; cbv zeta.
  pose proof (GET_template_eq path) as HG.
  unfold template_router.DELETE_template.
  destruct (parse_uuid path) as [template_id | ] eqn:Hpath; [ | split; reflexivity ].
  rewrite serve_delete_template, delete_template_eq; cbv zeta.
  destruct (db_link w 0); [ split; [ reflexivity | intros [H | H]; discriminate H ] | ].
  destruct (db_link w 1); [ split; [ reflexivity | intros [H | H]; discriminate H ] | ].
  cbn [orb].
  assert (forall w1,
             has_row template_id (table w1) = false ->
             (db_link w1 0 = false ->
              fst (template_router.GET_template path w1) = template_router.Response 404 None)
             /\ (db_link w1 0 = false -> db_link w1 1 = false ->
                 fst (template_router.serve 204 (template_router.delete_template template_id) w1)
                 = template_router.Response 404 None)) as Hafter.
  { intros w1 Hgone; split.
    - intros D; rewrite (HG w1), D; cbn [fst].
      rewrite has_row_find in Hgone; destruct (find_row _ _); [ discriminate | reflexivity ].
    - intros D0 D1; rewrite serve_delete_template, delete_template_eq; cbv zeta.
      rewrite D0, D1, Hgone; reflexivity. }
  destruct (has_row template_id (table w)) eqn:Hrow; cbn [fst snd].
  - split; [ reflexivity | intros _ ].
    assert (has_row template_id (table (snd (invalidate_cache listing_key
              (with_table (filter (fun r => negb (TemplateItem.id r =? template_id)%N)
                                  (table w)) (db_advance (db_advance w)))))) = false)
      as Hgone by (rewrite table_after_invalidate; apply has_row_removed).
    split; [ exact Hgone | apply Hafter; exact Hgone ].
  - split; [ reflexivity | intros _ ].
    assert (has_row template_id
              (table (with_table (filter (fun r => negb (TemplateItem.id r =? template_id)%N)
                                         (table w)) (db_advance (db_advance w)))) = false)
      as Hgone by apply has_row_removed.
    split; [ exact Hgone | apply Hafter; exact Hgone ].
Qed.

(** ** X14: PUT /test/template/{id} on an id that no row has *)

(** X14. When the path is a UUID that no row has, the body is a valid update and
    the database answers, the route answers 404, whichever fields the body
    sets; the table and the redis content are as before and no redis call
    was made. *)
Theorem PUT_template_missing_id :
  forall path json template_id request w,
    parse_uuid path = Some template_id ->
    validate_update_request json = Returns request ->
    find_row template_id (table w) = None ->
    db_link w 0 = false ->
    let w' := snd (template_router.PUT_template path json w) in
    fst (template_router.PUT_template path json w) = template_router.Response 404 None
    /\ table w' = table w /\ redis_db w' = redis_db w /\ redis_link w' = redis_link w.
Proof.
  intros path json template_id request w Hpath Hjson Hrow D; cbv zeta.
  unfold template_router.PUT_template; rewrite Hpath, Hjson, serve_update_template.
  destruct (sets_a_field request) eqn:Hset.
  - rewrite update_template_start by assumption; cbv zeta; rewrite D, Hrow.
    repeat split; reflexivity.
  - rewrite update_template_empty by assumption.
    pose proof (update_template_nothing template_id w) as (Ht & Hr & Hl & _ & Hres).
    rewrite D, Hrow in Hres.
    destruct (update_template template_id Sample.nothing w) as [[[t | ] | e] w1];
      cbn [fst snd] in *; try discriminate.
    repeat split; assumption.
Qed.

Lemma PUT_template_missing_id_witness :
  fst (template_router.PUT_template (uuid_str 9%N)
         (PDict [(txt "status", PStr (txt "PUBLISHED"))]) (Sample.stocked 2))
  = template_router.Response 404 None.
Proof.
  refine (proj1 (PUT_template_missing_id (uuid_str 9%N)
                   (PDict [(txt "status", PStr (txt "PUBLISHED"))])
                   9%N Sample.publish (Sample.stocked 2) _ _ _ _)); reflexivity.
Defined.

(** ** X15: what POST /test/template takes *)

Lemma validate_create_request_returns json request :
  validate_create_request json = Returns request ->
  exists d,
    json = PDict d
    /\ dict_get (txt "title") d = Some (PStr (TemplateCreateRequest.title request))
    /\ 1 <= length (TemplateCreateRequest.title request) <= 200
    /\ (dict_get (txt "body") d = None -> TemplateCreateRequest.body request = None)
    /\ (dict_get (txt "status") d = None -> TemplateCreateRequest.status request = DRAFT).
Proof.
  unfold validate_create_request.
  destruct json as [ | | | | | | d | | ]; try discriminate.
  destruct (dict_get (txt "title") d) as [v | ] eqn:Ht; [ | discriminate ].
  destruct (as_title v) as [t | ] eqn:Hv; [ | discriminate ].
  destruct (field_or None (optional as_request_str) "body" d) as [b | ] eqn:Hb;
    [ | discriminate ].
  destruct (field_or DRAFT as_status "status" d) as [s | ] eqn:Hs; [ | discriminate ].
  intros H; injection H as <-; exists d;
    cbn [TemplateCreateRequest.title TemplateCreateRequest.body
         TemplateCreateRequest.status].
  unfold as_title, as_request_str in Hv.
  destruct v as [ | | | | x | | | | ]; try discriminate; cbn [as_str] in Hv.
  destruct ((1 <=? length x) && (length x <=? 200)) eqn:Hlen; [ | discriminate ].
  injection Hv as <-.
  apply andb_true_iff in Hlen; destruct Hlen as [H1 H2].
  apply Nat.leb_le in H1, H2.
  unfold field_or in Hb, Hs.
  split; [ reflexivity | split; [ exact Ht | split; [ split; assumption | split ] ] ].
  - intros E; rewrite E in Hb; congruence.
  - intros E; rewrite E in Hs; congruence.
Qed.

Lemma validate_update_request_returns json request :
  validate_update_request json = Returns request ->
  match TemplateUpdateRequest.title request with
  | Some t => 1 <= length t <= 200
  | None => True
  end.
Proof.
  unfold validate_update_request.
  destruct json as [ | | | | | | d | | ]; try discriminate.
  destruct (field_or None (optional as_title) "title" d) as [t | ] eqn:Ht;
    [ | discriminate ].
  destruct (field_or None (optional as_request_str) "body" d); [ | discriminate ].
  destruct (field_or None (optional as_status) "status" d); [ | discriminate ].
  intros H; injection H as <-; cbn [TemplateUpdateRequest.title].
  unfold field_or in Ht.
  destruct (dict_get (txt "title") d) as [v | ]; [ | injection Ht as <-; exact I ].
  unfold optional, as_title, as_request_str in Ht.
  destruct v as [ | | | | s | | | | ]; try discriminate;
    try (injection Ht as <-; exact I).
  cbn [as_str] in Ht.
  destruct ((1 <=? length s) && (length s <=? 200)) eqn:Hlen; [ | discriminate ].
  injection Ht as <-.
  apply andb_true_iff in Hlen; destruct Hlen as [H1 H2].
  apply Nat.leb_le in H1, H2; split; assumption.
Qed.

(** X15. The route answers 422, and touches nothing, unless the body is a JSON
    object whose title is a string of 1 to 200 characters; in particular a
    body without a title, with a title that is no string, with an empty
    title or with one of 201 characters is refused.  A 201 answer carries a
    template with exactly that title, with body None when the body names
    none and with status DRAFT when the body names none. *)
Theorem POST_template_takes_valid_titles :
  forall json w,
    let answer := fst (template_router.POST_template json w) in
    (template_router.status_code answer = 422
     /\ snd (template_router.POST_template json w) = w)
    \/ (template_router.status_code answer <> 422
        /\ exists d title,
            json = PDict d /\ dict_get (txt "title") d = Some (PStr title)
            /\ 1 <= length title <= 200
            /\ forall created,
                template_router.content answer = Some created ->
                let t := TemplateCreateResponse.template created in
                template_router.status_code answer = 201
                /\ TemplateResponse.title t = title
                /\ (dict_get (txt "body") d = None -> TemplateResponse.body t = None)
                /\ (dict_get (txt "status") d = None -> TemplateResponse.status t = DRAFT)).
Proof.
  intros json w; cbv zeta; unfold template_router.POST_template.
  destruct (validate_create_request json) as [request | e] eqn:Hjson;
    [ right | left; split; reflexivity ].
  destruct (validate_create_request_returns json request Hjson)
    as (d & -> & Htitle & Hlen & Hbody & Hstatus).
  rewrite serve_create_template.
  destruct (create_template request w) as [[r | e] w'] eqn:Hcreate; cbn [fst].
  - split; [ discriminate | ].
    exists d, (TemplateCreateRequest.title request).
    split; [ reflexivity | split; [ exact Htitle | split; [ exact Hlen | ] ] ].
    intros created H; injection H as <-.
    destruct (create_template_returned request w r w' Hcreate) as (Ht & Hb & Hs & _).
    cbv zeta; split; [ reflexivity | split; [ exact Ht | split ] ].
    + intros H; rewrite Hb; apply Hbody; exact H.
    + intros H; rewrite Hs; apply Hstatus; exact H.
  - split; [ discriminate | ].
    exists d, (TemplateCreateRequest.title request).
    split; [ reflexivity | split; [ exact Htitle | split; [ exact Hlen | ] ] ].
    intros created H; discriminate H.
Qed.

(** ** X16: titles keep their length *)

Lemma titles_fit_app rows e :
  titles_fit rows = true ->
  1 <= length (TemplateItem.title e) <= 200 ->
  titles_fit (rows ++ [e]) = true.
Proof.
  unfold titles_fit; intros H [H1 H2]; rewrite forallb_app, H; cbn [forallb].
  apply Nat.leb_le in H1, H2; rewrite H1, H2; reflexivity.
Qed.

Lemma titles_fit_replace i new rows :
  titles_fit rows = true ->
  1 <= length (TemplateItem.title new) <= 200 ->
  titles_fit (replace_row i new rows) = true.
Proof.
  unfold titles_fit; intros H [H1 H2]; apply Nat.leb_le in H1, H2.
  induction rows as [ | r rows IH ]; [ reflexivity | ].
  rewrite replace_row_cons; cbn [forallb] in H.
  apply andb_true_iff in H; destruct H as [Hr Hrows].
  destruct (TemplateItem.id r =? i)%N; cbn [forallb].
  - rewrite H1, H2, Hrows; reflexivity.
  - rewrite Hr; cbn [andb]; apply IH; exact Hrows.
Qed.

Lemma titles_fit_filter (f : TemplateItem.t -> bool) rows :
  titles_fit rows = true -> titles_fit (filter f rows) = true.
Proof.
  unfold titles_fit; induction rows as [ | r rows IH ]; cbn [forallb filter]; intros H;
    [ reflexivity | ].
  apply andb_true_iff in H; destruct H as [Hr Hrows].
  destruct (f r); cbn [forallb]; [ rewrite Hr | ]; auto.
Qed.

Lemma titles_fit_found i rows old :
  titles_fit rows = true -> find_row i rows = Some old ->
  1 <= length (TemplateItem.title old) <= 200.
Proof.
  unfold titles_fit, find_row; intros H Hold.
  apply find_some in Hold; destruct Hold as [Hin _].
  rewrite forallb_forall in H; specialize (H old Hin).
  apply andb_true_iff in H; destruct H as [H1 H2].
  apply Nat.leb_le in H1, H2; split; assumption.
Qed.

(** A mutation whose request carries a title of 1 to 200 characters, if it
    carries one, keeps the titles of the table within these bounds. *)
Lemma titles_fit_after_mutation m w :
  titles_fit (table w) = true ->
  match m with
  | Create request => 1 <= length (TemplateCreateRequest.title request) <= 200
  | Update _ request =>
    match TemplateUpdateRequest.title request with
    | Some t => 1 <= length t <= 200
    | None => True
    end
  | Delete _ => True
  end ->
  titles_fit (table (snd (run_mutation m w))) = true.
Proof.
  intros H Hm.
  destruct (table_after_mutation m w)
    as [-> | [(request & entity & -> & _ & Htitle & _ & ->)
           | [(template_id & request & old & -> & Hold & ->) | (template_id & _ & ->)]]].
  - exact H.
  - apply titles_fit_app; [ exact H | rewrite Htitle; exact Hm ].
  - apply titles_fit_replace; [ exact H | ].
    pose proof (titles_fit_found _ _ _ H Hold) as Hfit.
    simpl; destruct (TemplateUpdateRequest.title request); assumption.
  - apply titles_fit_filter; exact H.
Qed.

Lemma route_world_create request w :
  snd (template_router.serve 201 (template_router.create_template request) w)
  = snd (run_mutation (Create request) w).
Proof.
  rewrite serve_create_template, run_mutation_eq.
  destruct (create_template request w) as [[r | e] w']; reflexivity.
Qed.

Lemma route_world_update template_id request w :
  snd (template_router.serve 200 (template_router.update_template template_id request) w)
  = snd (run_mutation (Update template_id request) w).
Proof.
  rewrite serve_update_template, run_mutation_eq.
  destruct (update_template template_id request w) as [[[t | ] | e] w']; reflexivity.
Qed.

Lemma route_world_delete template_id w :
  snd (template_router.serve 204 (template_router.delete_template template_id) w)
  = snd (run_mutation (Delete template_id) w).
Proof.
  rewrite serve_delete_template, run_mutation_eq.
  destruct (delete_template template_id w) as [[[ | ] | e] w']; reflexivity.
Qed.

(** X16. When every title of the table has 1 to 200 characters, every title has
    after a POST, a PUT or a DELETE, whatever path and body the request
    carries and whatever the route answers. *)
Theorem routes_keep_titles_within_bounds :
  forall w,
    titles_fit (table w) = true ->
    (forall json, titles_fit (table (snd (template_router.POST_template json w))) = true)
    /\ (forall path json,
           titles_fit (table (snd (template_router.PUT_template path json w))) = true)
    /\ (forall path,
           titles_fit (table (snd (template_router.DELETE_template path w))) = true).
Proof.
  intros w H; split; [ | split ].
  - intros json; unfold template_router.POST_template.
    destruct (validate_create_request json) as [request | e] eqn:Hjson; [ | exact H ].
    rewrite route_world_create; apply titles_fit_after_mutation; [ exact H | ].
    destruct (validate_create_request_returns json request Hjson) as (d & _ & _ & Hlen & _).
    exact Hlen.
  - intros path json; unfold template_router.PUT_template.
    destruct (parse_uuid path) as [template_id | ]; [ | exact H ].
    destruct (validate_update_request json) as [request | e] eqn:Hjson; [ | exact H ].
    rewrite route_world_update; apply titles_fit_after_mutation; [ exact H | ].
    exact (validate_update_request_returns json request Hjson).
  - intros path; unfold template_router.DELETE_template.
    destruct (parse_uuid path) as [template_id | ]; [ | exact H ].
    rewrite route_world_delete; apply titles_fit_after_mutation; [ exact H | exact I ].
Qed.

Lemma routes_keep_titles_within_bounds_witness :
  titles_fit (table (snd (template_router.POST_template
                            (PDict [(txt "title", PStr (txt "Y"))]) (Sample.stocked 2))))
  = true.
Proof.
  apply (proj1 (routes_keep_titles_within_bounds (Sample.stocked 2) eq_refl)).
Defined.

(** ** X17: POST, then GET by the id returned *)

(** X17. When POST answers 201 with a template, uuid4 having produced a 128-bit
    id, a GET of the path that spells this id answers 200 with the same
    template, provided the database answers. *)
Theorem POST_then_GET_template :
  forall json w created w1,
    template_router.POST_template json w
    = (template_router.Response 201 (Some created), w1) ->
    valid_uuid (entropy w 0) = true ->
    db_link w1 0 = false ->
    let t := TemplateCreateResponse.template created in
    fst (template_router.GET_template (uuid_str (TemplateResponse.id t)) w1)
    = template_router.Response 200 (Some t).
Proof.
  intros json w created w1 Hpost Hid D; cbv zeta.
  unfold template_router.POST_template in Hpost.
  destruct (validate_create_request json) as [request | e]; [ | discriminate ].
  rewrite serve_create_template in Hpost.
  destruct (create_template request w) as [[r | e] w'] eqn:Hcreate; [ | discriminate ].
  injection Hpost as <- <-.
  destruct (create_template_returned request w r w' Hcreate)
    as (_ & _ & _ & Hrid & row & Hrow & Hvalid).
  cbv zeta in Hrid, Hvalid.
  pose proof (GET_template_eq (uuid_str (TemplateResponse.id
                                            (TemplateCreateResponse.template r))) w') as HG.
  rewrite Hrid in *; rewrite (parse_uuid_str _ Hid) in HG; rewrite HG, D, Hrow; cbn [fst].
  rewrite Hvalid; reflexivity.
Qed.

Lemma POST_then_GET_template_witness :
  fst (template_router.GET_template (uuid_str 100%N)
         (snd (template_router.POST_template
                 (PDict [(txt "title", PStr (txt "Y"))]) Sample.quiet)))
  = template_router.Response 200
      (Some {| TemplateResponse.id := 100%N; TemplateResponse.title := txt "Y";
               TemplateResponse.body := None; TemplateResponse.status := DRAFT;
               TemplateResponse.created_at := Sample.instant 0;
               TemplateResponse.updated_at := Sample.instant 1 |}).
Proof.
  exact (POST_then_GET_template
           (PDict [(txt "title", PStr (txt "Y"))]) Sample.quiet
           {| TemplateCreateResponse.message := txt "Template created successfully";
              TemplateCreateResponse.template :=
                {| TemplateResponse.id := 100%N; TemplateResponse.title := txt "Y";
                   TemplateResponse.body := None; TemplateResponse.status := DRAFT;
                   TemplateResponse.created_at := Sample.instant 0;
                   TemplateResponse.updated_at := Sample.instant 1 |} |}
           (snd (template_router.POST_template
                   (PDict [(txt "title", PStr (txt "Y"))]) Sample.quiet))
           eq_refl eq_refl eq_refl).
Defined.

(** ** X19: what a PUT cannot change *)

Lemma map_replace_row {B} (f : TemplateItem.t -> B) i new rows old :
  find_row i rows = Some old -> f new = f old ->
  map f (replace_row i new rows) = map f rows.
Proof.
  unfold find_row; intros Hold Hf; induction rows as [ | r rows IH ]; [ reflexivity | ].
  rewrite replace_row_cons; cbn [find] in Hold.
  destruct (TemplateItem.id r =? i)%N; cbn [map].
  - injection Hold as ->; rewrite Hf; reflexivity.
  - f_equal; apply IH; exact Hold.
Qed.

(** X19. Whatever path and body a PUT carries, and whatever it answers, the
    table holds afterwards the same pairs of id and created_at as before,
    each as often (in whatever order the rows come): a body that names id or
    created_at does not reach them, and no row is added or lost. *)
Theorem PUT_template_keeps_id_and_created_at :
  forall path json w,
    let key := fun r => (TemplateItem.id r, TemplateItem.created_at r) in
    Permutation (map key (table (snd (template_router.PUT_template path json w))))
                (map key (table w)).
Proof.
  intros path json w; cbv zeta; unfold template_router.PUT_template.
  destruct (parse_uuid path) as [template_id | ]; [ | apply Permutation_refl ].
  destruct (validate_update_request json) as [request | e]; [ | apply Permutation_refl ].
  rewrite route_world_update.
  destruct (table_after_mutation (Update template_id request) w)
    as [-> | [(r & entity & Hm & _) | [(i & r & old & Hm & Hold & ->) | (i & Hm & _)]]];
    try discriminate Hm; [ apply Permutation_refl | ].
  injection Hm as <- <-.
  rewrite map_replace_row with (old := old); [ apply Permutation_refl | exact Hold | ].
  reflexivity.
Qed.

(** ** X20: the shape of a listing answer *)

(** X20. Every answer of [get_all_templates] carries as total the number of
    templates in it, and as limit and offset the values asked for; its source
    is "db" or "redis", and "db" whenever use_cache is False.  With source
    "db" the templates are the requested page of the table, so that total is
    the smaller of limit and the number of rows past the offset, not the
    number of rows of the table. *)
Theorem listing_answer_shape :
  forall use_cache limit offset w answer w',
    get_all_templates use_cache limit offset w = (Returns answer, w') ->
    TemplateListResponse.total answer
    = Some (length (TemplateListResponse.templates answer))
    /\ TemplateListResponse.limit answer = Some limit
    /\ TemplateListResponse.offset answer = Some offset
    /\ (TemplateListResponse.source answer = txt "db"
        \/ use_cache = true /\ TemplateListResponse.source answer = txt "redis")
    /\ (TemplateListResponse.source answer = txt "db" ->
        TemplateListResponse.templates answer = page limit offset w
        /\ TemplateListResponse.total answer
           = Some (Nat.min limit (length (table w) - offset))).
Proof.
  intros use_cache limit offset w answer w' H.
  assert (length (page limit offset w) = Nat.min limit (length (table w) - offset)) as Hlen
      by (unfold page; rewrite length_map, length_firstn, length_skipn; reflexivity).
  destruct use_cache.
  - rewrite get_all_templates_cached in H; cbv zeta in H.
    destruct (truthy _).
    + destruct (try! items <- py_iter _; comprehension model_validate items);
        [ | discriminate ].
      injection H as <- <-; cbn.
      repeat (split; [ reflexivity | ]).
      split; [ right; split; reflexivity | intros H; discriminate H ].
    + destruct (db_link w 0); [ discriminate | ].
      injection H as <- _; cbn.
      repeat (split; [ reflexivity | ]).
      split; [ left; reflexivity | intros _; split; [ reflexivity | ] ].
      rewrite Hlen; reflexivity.
  - rewrite get_all_templates_uncached in H.
    destruct (db_link w 0); [ discriminate | ].
    injection H as <- _; cbn.
    repeat (split; [ reflexivity | ]).
    split; [ left; reflexivity | intros _; split; [ reflexivity | ] ].
    rewrite Hlen; reflexivity.
Qed.

Lemma listing_answer_shape_witness :
  TemplateListResponse.total
    (list_response "db" (page 2 4 (Sample.stocked 5)) 2 4)
  = Some (Nat.min 2 (length (table (Sample.stocked 5)) - 4)).
Proof.
  refine (proj2 (proj2 (proj2 (proj2 (proj2
            (listing_answer_shape false 2 4 (Sample.stocked 5)
               (list_response "db" (page 2 4 (Sample.stocked 5)) 2 4)
               (snd (get_all_templates false 2 4 (Sample.stocked 5))) _)))) _));
    reflexivity.
Defined.

(** ** X21: PUT, then GET of the same path *)

(** X21. When PUT answers 200 with a template, a GET of the same path answers 200
    with the same template, provided the database answers: what the update
    returned is what is stored. *)
Theorem PUT_then_GET_template :
  forall path json w t w1,
    template_router.PUT_template path json w
    = (template_router.Response 200 (Some t), w1) ->
    db_link w1 0 = false ->
    fst (template_router.GET_template path w1) = template_router.Response 200 (Some t).
Proof.
  intros path json w t w1 Hput D.
  pose proof (GET_template_eq path w1) as HG.
  unfold template_router.PUT_template in Hput.
  destruct (parse_uuid path) as [template_id | ]; [ | discriminate ].
  destruct (validate_update_request json) as [request | e]; [ | discriminate ].
  rewrite serve_update_template in Hput.
  rewrite HG, D; cbn [fst]; clear HG.
  destruct (sets_a_field request) eqn:Hset.
  - destruct (printable_update request) eqn:Hprint;
      [ | rewrite update_template_unprintable in Hput by assumption; cbv zeta in Hput;
          destruct (db_link w 0); discriminate ].
    rewrite update_template_eq in Hput by assumption; cbv zeta in Hput.
    destruct (db_link w 0); [ discriminate | ].
    destruct (find_row template_id (table w)) as [old | ] eqn:Hold; [ | discriminate ].
    destruct (db_link w 1); [ discriminate | ].
    destruct (db_link w 2); [ discriminate | ].
    injection Hput as <- <-.
    rewrite table_after_invalidate; cbn [table with_table db_advance with_db_link].
    rewrite (find_row_replaced _ (patched request (clock w 0) old) _ _ Hold);
      [ reflexivity | simpl; eapply find_row_id; exact Hold ].
  - rewrite update_template_empty in Hput by assumption.
    pose proof (update_template_nothing template_id w) as (Ht & _ & _ & _ & Hres).
    destruct (update_template template_id Sample.nothing w) as [[[u | ] | e] w2];
      try discriminate.
    injection Hput as <- <-; cbn [fst snd] in *.
    rewrite Ht.
    destruct (db_link w 0); [ discriminate | ].
    destruct (find_row template_id (table w)); [ | discriminate ].
    injection Hres as ->; reflexivity.
Qed.

Lemma PUT_then_GET_template_witness :
  fst (template_router.GET_template (uuid_str 1%N)
         (snd (template_router.PUT_template (uuid_str 1%N)
                 (PDict [(txt "status", PStr (txt "PUBLISHED"))]) (Sample.stocked 2))))
  = template_router.Response 200
      (Some (model_validate_item (patched Sample.publish (Sample.instant 0) (Sample.row 1)))).
Proof.
  exact (PUT_then_GET_template (uuid_str 1%N)
           (PDict [(txt "status", PStr (txt "PUBLISHED"))]) (Sample.stocked 2)
           (model_validate_item (patched Sample.publish (Sample.instant 0) (Sample.row 1)))
           (snd (template_router.PUT_template (uuid_str 1%N)
                   (PDict [(txt "status", PStr (txt "PUBLISHED"))]) (Sample.stocked 2)))
           eq_refl eq_refl).
Defined.

(** ** X22: a created template is listed *)

(** X22. After [create_template] returned, a listing with use_cache=False from
    offset 0 with a limit above the former number of rows is answered from
    the table with the created template and the templates of all former
    rows, each as often as the table had it and in whatever order the rows
    come; its total is one more than the former number of rows.  The
    database is taken to answer. *)
Theorem created_template_is_listed :
  forall request w created w1 limit,
    create_template request w = (Returns created, w1) ->
    db_link w1 0 = false ->
    length (table w) < limit ->
    exists listing,
      fst (get_all_templates false limit 0 w1) = Returns listing
      /\ TemplateListResponse.source listing = txt "db"
      /\ Permutation (TemplateListResponse.templates listing)
                     (TemplateCreateResponse.template created
                        :: map model_validate_item (table w))
      /\ TemplateListResponse.total listing = Some (S (length (table w))).
Proof.
  intros request w created w1 limit Hcreate D Hlimit.
  rewrite get_all_templates_uncached, D; cbn [fst]; unfold page; cbn [skipn].
  rewrite create_template_eq in Hcreate; cbv zeta in Hcreate.
  destruct (db_link w 0); [ discriminate | ].
  destruct (has_row (entropy w 0) (table w)); [ discriminate | ].
  destruct (db_link w 1); [ discriminate | ].
  injection Hcreate as <- <-.
  rewrite table_after_invalidate; cbn [table with_table db_advance with_db_link].
  rewrite firstn_all2 by (rewrite length_app; simpl; lia).
  eexists; split; [ reflexivity | ].
  unfold list_response;
    cbn [TemplateListResponse.source TemplateListResponse.templates
         TemplateListResponse.total TemplateCreateResponse.template].
  split; [ reflexivity | split ].
  - rewrite map_app; apply Permutation_sym, Permutation_cons_append.
  - rewrite length_map, length_app, Nat.add_comm; reflexivity.
Qed.

Lemma created_template_is_listed_witness :
  exists listing,
    fst (get_all_templates false 100 0
           (snd (create_template Sample.create_X (Sample.stocked 2))))
    = Returns listing
    /\ TemplateListResponse.total listing = Some 3.
Proof.
  destruct (created_template_is_listed Sample.create_X (Sample.stocked 2)
              {| TemplateCreateResponse.message := txt "Template created successfully";
                 TemplateCreateResponse.template :=
                   {| TemplateResponse.id := 100%N; TemplateResponse.title := txt "X";
                      TemplateResponse.body := None; TemplateResponse.status := DRAFT;
                      TemplateResponse.created_at := Sample.instant 0;
                      TemplateResponse.updated_at := Sample.instant 1 |} |}
              (snd (create_template Sample.create_X (Sample.stocked 2))) 100
              eq_refl eq_refl ltac:(simpl; lia))
    as (listing & E & _ & _ & T).
  exists listing; split; [ exact E | exact T ].
Defined.

(** ** X23: a PUT cannot clear a body *)

(** X23. A body that is set stays set: when a row has a body, the row of
    that id has one after any PUT, whatever path and JSON body the request
    carries, since a null in the request is read as "leave unchanged". *)
Theorem PUT_template_cannot_clear_body :
  forall path json w template_id row row',
    find_row template_id (table w) = Some row ->
    find_row template_id (table (snd (template_router.PUT_template path json w)))
    = Some row' ->
    TemplateItem.body row <> None ->
    TemplateItem.body row' <> None.
Proof.
  intros path json w template_id row row' Hrow Hrow' Hbody.
  unfold template_router.PUT_template in Hrow'.
  destruct (parse_uuid path) as [target | ]; [ | cbn in Hrow'; congruence ].
  destruct (validate_update_request json) as [request | e]; [ | cbn in Hrow'; congruence ].
  rewrite route_world_update in Hrow'.
  destruct (table_after_mutation (Update target request) w)
    as [E | [(r & entity & Hm & _) | [(i & r & old & Hm & Hold & E) | (i & Hm & _)]]];
    try discriminate Hm; cbv zeta in E; rewrite E in Hrow'; [ congruence | ].
  injection Hm as <- <-.
  destruct (N.eq_dec template_id target) as [-> | Hother].
  - rewrite (find_row_replaced _ (patched request (clock w 0) old) _ _ Hold) in Hrow'
      by (simpl; eapply find_row_id; exact Hold).
    injection Hrow' as <-; simpl.
    destruct (TemplateUpdateRequest.body request); [ discriminate | congruence ].
  - rewrite find_row_other in Hrow' by (auto; simpl; eapply find_row_id; exact Hold).
    congruence.
Qed.

Lemma PUT_template_cannot_clear_body_witness :
  TemplateItem.body
    {| TemplateItem.id := 1%N; TemplateItem.title := txt "Z";
       TemplateItem.body := Some (txt "b"); TemplateItem.status := DRAFT;
       TemplateItem.created_at := Sample.instant 0;
       TemplateItem.updated_at := Sample.instant 0 |}
  <> None.
Proof.
  refine (PUT_template_cannot_clear_body (uuid_str 1%N)
            (PDict [(txt "body", PNone); (txt "title", PStr (txt "Z"))])
            (with_table [Sample.row 0;
                         {| TemplateItem.id := 1%N; TemplateItem.title := txt "X";
                            TemplateItem.body := Some (txt "b");
                            TemplateItem.status := DRAFT;
                            TemplateItem.created_at := Sample.instant 0;
                            TemplateItem.updated_at := Sample.instant 0 |}]
                        Sample.quiet)
            1%N
            {| TemplateItem.id := 1%N; TemplateItem.title := txt "X";
               TemplateItem.body := Some (txt "b"); TemplateItem.status := DRAFT;
               TemplateItem.created_at := Sample.instant 0;
               TemplateItem.updated_at := Sample.instant 0 |}
            {| TemplateItem.id := 1%N; TemplateItem.title := txt "Z";
               TemplateItem.body := Some (txt "b"); TemplateItem.status := DRAFT;
               TemplateItem.created_at := Sample.instant 0;
               TemplateItem.updated_at := Sample.instant 0 |}
            _ _ _); [ reflexivity | reflexivity | discriminate ].
Defined.
